(** * Multi-night stacker: a shallow embedding of [multi_night_stacker.py]

    The development follows the source file top-down: text formatting,
    [pathlib] paths over a finite-map file system, the signals of
    [SirilWorker], the widgets of [MultiNightStackerGUI] and then the
    methods [detect_sets], [process_set], [combine_sequences],
    [register_combined], [stack_combined], [process_workflow],
    [save_preset] and [load_preset].  Theorems come after the definitions. *)

From Stdlib Require Import ZArith Lia Ascii DecimalString DecimalNat.
From stdpp Require Import base gmap list strings sorting.

Local Open Scope Z_scope.
Local Open Scope nat_scope.

(** ** Text: what [str], f-strings and [join] produce

    A [str] is kept as the bytes of its UTF-8 encoding, which is what a
    string literal of this file denotes; the order of two such byte strings
    is the order of the [str] values by code point. *)

Module Text.

(** [str(n)] and [f"{n}"] for a non-negative [int]. *)
Definition str_nat (n : nat) : string :=
  NilZero.string_of_uint (Nat.to_uint n).

Fixpoint zeros (k : nat) : string :=
  match k with
  | O => EmptyString
  | S k' => String "0"%char (zeros k')
  end.

(** [f"{n:05d}"]: decimal digits, padded on the left with zeros to a
    minimum width of five. *)
Definition fmt_05d (n : nat) : string :=
  let s := str_nat n in zeros (5 - String.length s) +:+ s.

(** Values of a [QDoubleSpinBox] with [setDecimals(1)] are multiples of
    one tenth; they are kept as an integer number of tenths.  [str(v)] of
    such a float prints the integer part, a point and the tenths digit. *)
Definition str_tenths (t : Z) : string :=
  let a := Z.abs t in
  (if (t <? 0)%Z then "-" else EmptyString) +:+
  str_nat (Z.to_nat (a / 10)) +:+ "." +:+ str_nat (Z.to_nat (a mod 10)).

(** [int(v)] truncates toward zero. *)
Definition int_of_tenths (t : Z) : Z := Z.quot t 10.

(** [str(k)] for an [int]. *)
Definition str_int (k : Z) : string :=
  (if (k <? 0)%Z then "-" else EmptyString) +:+ str_nat (Z.to_nat (Z.abs k)).

(** [sep.join(parts)]. *)
Definition join (sep : string) (parts : list string) : string :=
  String.concat sep parts.

(** [str.isspace] on a character of one byte: the ASCII white space. *)
Definition isspace (c : ascii) : bool :=
  let n := Ascii.nat_of_ascii c in
  ((9 <=? n) && (n <=? 13)) || ((28 <=? n) && (n <=? 32)).

(** [str.isspace] on a character of two bytes: U+0085 and U+00A0. *)
Definition isspace2 (c d : ascii) : bool :=
  let m := Ascii.nat_of_ascii c in
  let n := Ascii.nat_of_ascii d in
  (m =? 194) && ((n =? 133) || (n =? 160)).

(** [str.isspace] on a character of three bytes: U+1680, U+2000 to
    U+200A, U+2028, U+2029, U+202F, U+205F and U+3000. *)
Definition isspace3 (c d e : ascii) : bool :=
  let m := Ascii.nat_of_ascii c in
  let n := Ascii.nat_of_ascii d in
  let o := Ascii.nat_of_ascii e in
  ((m =? 225) && (n =? 154) && (o =? 128)) ||
  ((m =? 226) && (n =? 128) &&
   (((128 <=? o) && (o <=? 138)) || (o =? 168) || (o =? 169) || (o =? 175))) ||
  ((m =? 226) && (n =? 129) && (o =? 159)) ||
  ((m =? 227) && (n =? 128) && (o =? 128)).

(** [s.lstrip()] *)
Fixpoint lstrip (s : string) : string :=
  match s with
  | String c s1 =>
      if isspace c then lstrip s1
      else
        match s1 with
        | String d s2 =>
            if isspace2 c d then lstrip s2
            else
              match s2 with
              | String e s3 => if isspace3 c d e then lstrip s3 else s
              | EmptyString => s
              end
        | EmptyString => s
        end
  | EmptyString => EmptyString
  end.

(** [s.rstrip()] on the reversed bytes: a character that ends the string
    shows its last byte first. *)
Fixpoint rstrip_reversed (s : string) : string :=
  match s with
  | String c s1 =>
      if isspace c then rstrip_reversed s1
      else
        match s1 with
        | String d s2 =>
            if isspace2 d c then rstrip_reversed s2
            else
              match s2 with
              | String e s3 => if isspace3 e d c then rstrip_reversed s3 else s
              | EmptyString => s
              end
        | EmptyString => s
        end
  | EmptyString => EmptyString
  end.

(** [s.strip()]. *)
Definition strip (s : string) : string :=
  String.rev (rstrip_reversed (String.rev (lstrip s))).

(** [name] matches the pattern [pp_light_*.fit]. *)
Definition matches_pp_light (name : string) : bool :=
  let n := String.length name in
  (13 <=? n) &&
  String.eqb (String.substring 0 9 name) "pp_light_" &&
  String.eqb (String.substring (n - 4) 4 name) ".fit".

End Text.

(** ** Paths and the file system

    A [pathlib.Path] is its sequence of components; the first component of
    every path below is the working directory as the caller gave it.  The
    file system is that of a POSIX system, a finite map from paths to
    nodes: an entry is named by the path that leads to it from the working
    directory, the folders on the way to it are directories and not links,
    and no path steps back above the working directory.  Entries can be
    read and written, and names are within the limits of the file
    system. *)

Module FS.

Inductive node :=
| File
| Dir
| Symlink (target : list string).

#[global] Instance node_eq_dec : EqDecision node.
Proof. solve_decision. Defined.

(** [p / c] for a name [c] that is one component: [set1], [lights], a
    file name.  Text with a separator in it is not one component; see
    [is_name_part] and [div_text]. *)
Definition div (p : list string) (c : string) : list string := p ++ [c].

(** Text that can be taken into a file name: no separator and no NUL. *)
Definition is_name_part (text : string) : bool :=
  forallb (λ c, negb (Ascii.eqb c "/") && negb (Ascii.eqb c "000"))
    (String.list_ascii_of_string text).

(** What lies between the slashes of [text]. *)
Fixpoint split_slash (text : string) : list string :=
  match text with
  | EmptyString => [EmptyString]
  | String c rest =>
      if Ascii.eqb c "/" then EmptyString :: split_slash rest
      else
        match split_slash rest with
        | part :: parts => String c part :: parts
        | [] => [String c EmptyString]
        end
  end.

(** The components [pathlib] keeps of [text]: not the empty ones, not
    the dots. *)
Definition components (text : string) : list string :=
  filter (λ part, part ≠ EmptyString ∧ part ≠ ".") (split_slash text).

(** The root [pathlib] sees at the head of [text]: two slashes when there
    are exactly two, one slash for one or for more than two. *)
Definition root (text : string) : string :=
  match text with
  | String c (String d rest) =>
      if Ascii.eqb c "/" then
        if Ascii.eqb d "/" then
          match rest with
          | String e _ => if Ascii.eqb e "/" then "/" else "//"
          | EmptyString => "//"
          end
        else "/"
      else EmptyString
  | String c EmptyString => if Ascii.eqb c "/" then "/" else EmptyString
  | EmptyString => EmptyString
  end.

(** The root and the components of [Path(a) / b / ...]: a part that is
    rooted takes the place of all that came before it. *)
Definition parse (p : list string) : string * list string :=
  foldl
    (λ parsed part,
       match root part with
       | EmptyString => (parsed.1, parsed.2 ++ components part)
       | rooted => (rooted, components part)
       end)
    (EmptyString, []) p.

(** One part further from [p]: [..] leads back to the folder [p] lies in,
    any other part into [p]. *)
Definition step (p : list string) (part : string) : list string :=
  if String.eqb part ".." then
    match p with
    | [] | [_] => p
    | _ => removelast p
    end
  else p ++ [part].

(** The entry [p / text] names, for free text: the parts of [text] are
    followed from [p]; text that begins with a slash is followed from the
    root instead.  For a name that is one component this is [div]. *)
Definition div_text (p : list string) (text : string) : list string :=
  match root text with
  | EmptyString => foldl step p (components text)
  | rooted => foldl step [rooted] (components text)
  end.

(** [str(p)] *)
Definition path_str (p : list string) : string :=
  match parse p with
  | (EmptyString, []) => "."
  | (anchor, parts) => anchor +:+ Text.join "/" parts
  end.

(** [p.name] *)
Definition name (p : list string) : string := default EmptyString (last p).

(** Following symbolic links, at most [fuel] of them (the kernel stops
    at 40 and reports a loop). *)
Fixpoint resolve (fuel : nat) (fs : gmap (list string) node)
    (p : list string) : option node :=
  match fs !! p with
  | Some (Symlink t) =>
      match fuel with
      | O => None
      | S fuel' => resolve fuel' fs t
      end
  | other => other
  end.

(** [p.exists()]: false for a missing entry and for a dangling link. *)
Definition path_exists (fs : gmap (list string) node) (p : list string) : bool :=
  match resolve 40 fs p with
  | Some _ => true
  | None => false
  end.

(** [p.is_dir()] *)
Definition is_dir (fs : gmap (list string) node) (p : list string) : bool :=
  match resolve 40 fs p with
  | Some Dir => true
  | _ => false
  end.

(** [p] is an entry of [dir] whose name matches [pp_light_*.fit]. *)
Definition pp_light_in (dir p : list string) : bool :=
  bool_decide (take (length dir) p = dir) &&
  match drop (length dir) p with
  | [name] => Text.matches_pp_light name
  | _ => false
  end.

(** [dir.glob("pp_light_*.fit")], in the order the directory lists them. *)
Definition glob_pp_light (fs : gmap (list string) node) (dir : list string)
    : list (list string) :=
  filter (λ p, pp_light_in dir p) (map_to_list fs).*1.

(** [Path.__lt__]: component by component, each by code point. *)
Fixpoint path_compare (p q : list string) : comparison :=
  match p, q with
  | [], [] => Eq
  | [], _ :: _ => Lt
  | _ :: _, [] => Gt
  | a :: p', b :: q' =>
      match String.compare a b with
      | Eq => path_compare p' q'
      | c => c
      end
  end.

Definition path_le (p q : list string) : Prop := path_compare p q ≠ Gt.

#[global] Instance path_le_dec : RelDecision path_le.
Proof. intros p q. unfold path_le. solve_decision. Defined.

(** [sorted(paths)] *)
Definition sorted (l : list (list string)) : list (list string) :=
  merge_sort path_le l.

(** [repr(str(p))], as the messages of [OSError] show a path; for a path
    without apostrophe, backslash or control character. *)
Definition quoted (p : list string) : string :=
  "'" +:+ path_str p +:+ "'".

(** [p.unlink()]: removes a file or a link, never a directory. *)
Definition unlink (p : list string) (fs : gmap (list string) node)
    : string + gmap (list string) node :=
  match fs !! p with
  | None => inl ("[Errno 2] No such file or directory: " +:+ quoted p)
  | Some Dir => inl ("[Errno 21] Is a directory: " +:+ quoted p)
  | Some _ => inr (delete p fs)
  end.

(** [p.parent] *)
Definition parent (p : list string) : list string := removelast p.

(** [link.symlink_to(target)]: the name must be free, whatever is there,
    and the folder the link goes into must be there. *)
Definition symlink_to (link target : list string) (fs : gmap (list string) node)
    : string + gmap (list string) node :=
  match fs !! link with
  | Some _ =>
      inl ("[Errno 17] File exists: " +:+ quoted target +:+ " -> " +:+ quoted link)
  | None =>
      if is_dir fs (parent link) then inr (<[link := Symlink target]> fs)
      else if path_exists fs (parent link) then
        inl ("[Errno 20] Not a directory: " +:+ quoted target +:+ " -> " +:+ quoted link)
      else
        inl ("[Errno 2] No such file or directory: " +:+ quoted target +:+ " -> " +:+
             quoted link)
  end.

(** [p.mkdir(exist_ok=True)]: no parents are made. *)
Definition mkdir_exist_ok (p : list string) (fs : gmap (list string) node)
    : string + gmap (list string) node :=
  match fs !! p with
  | None =>
      if is_dir fs (parent p) then inr (<[p := Dir]> fs)
      else if path_exists fs (parent p) then
        inl ("[Errno 20] Not a directory: " +:+ quoted p)
      else inl ("[Errno 2] No such file or directory: " +:+ quoted p)
  | Some _ =>
      if is_dir fs p then inr fs
      else inl ("[Errno 17] File exists: " +:+ quoted p)
  end.

End FS.

Notation "p // c" := (FS.div p c) (at level 40, left associativity).

(** ** Signals, exceptions and the engine

    A run is observed through the signals it emits.  Next to them the trace
    records every command handed to [SirilWorker.cmd] together with what
    its call came to: [None] when it returned, [Some message] when the
    engine raised. *)

Inductive event :=
| Log (message color : string)
| Progress (percentage : nat)
| Finished (success : bool) (message : string)
| Call (args : list string) (failure : option string)
| MessageBox (kind title text : string).

Inductive outcome (A : Type) :=
| Ok (a : A)
| Raise (message : string).
Arguments Ok {A} a.
Arguments Raise {A} message.

(** What a run can change: the session inside the engine and the files. *)
Record world (E : Type) := World {
  engine : E;
  files : gmap (list string) FS.node
}.
Arguments World {E} engine files.
Arguments engine {E} w.
Arguments files {E} w.

(** A computation emits events, may change the world and returns or raises. *)
Definition M (E A : Type) : Type := world E → list event * world E * outcome A.

Definition ret {E A : Type} (a : A) : M E A := λ w, ([], w, Ok a).

Definition bind {E A B : Type} (m : M E A) (k : A → M E B) : M E B :=
  λ w,
    match m w with
    | (ev1, w1, Ok a) =>
        match k a w1 with
        | (ev2, w2, r) => (ev1 ++ ev2, w2, r)
        end
    | (ev1, w1, Raise e) => (ev1, w1, Raise e)
    end.

Notation "x <- m ;; k" := (bind m (λ x, k))
  (at level 100, m at next level, right associativity).
Notation "m ;;; k" := (bind m (λ _, k))
  (at level 100, right associativity).

Definition raise {E A : Type} (message : string) : M E A := λ w, ([], w, Raise message).

(** [try: body  except Exception as e: handler(str(e))] *)
Definition try_except {E A : Type} (body : M E A) (handler : string → M E A) : M E A :=
  λ w,
    match body w with
    | (ev1, w1, Raise e) =>
        match handler e w1 with
        | (ev2, w2, r) => (ev1 ++ ev2, w2, r)
        end
    | done => done
    end.

Definition emit {E : Type} (e : event) : M E unit := λ w, ([e], w, Ok tt).

Definition get_files {E : Type} : M E (gmap (list string) FS.node) :=
  λ w, ([], w, Ok (files w)).

(** A [pathlib] operation that changes the files or raises [OSError]. *)
Definition fs_op {E : Type}
    (op : gmap (list string) FS.node → string + gmap (list string) FS.node)
    : M E unit :=
  λ w,
    match op (files w) with
    | inl e => ([], w, Raise e)
    | inr fs' => ([], World (engine w) fs', Ok tt)
    end.

(** [for x in l: body(x)] *)
Fixpoint for_each {E A : Type} (l : list A) (body : A → M E unit) : M E unit :=
  match l with
  | [] => ret tt
  | x :: l' => body x ;;; for_each l' body
  end.

(** [for x in l: s = body(s, x)] for a loop that carries a variable. *)
Fixpoint for_fold {E A S : Type} (l : list A) (body : S → A → M E S) (s : S) : M E S :=
  match l with
  | [] => ret s
  | x :: l' => s' <- body s x ;; for_fold l' body s'
  end.

Definition dquote : string := String "034"%char EmptyString.

(** The line feed that opens the banner messages. *)
Definition nl : string := String "010"%char EmptyString.

(** ** The window: widgets read by the workflow

    Spin boxes hold tenths (see [Text.str_tenths]); [working_dir] is the
    empty string while no directory has been chosen. *)

Record gui := Gui {
  working_dir : string;
  detected_sets : list string;
  sets_label : string;
  start_button_enabled : bool;
  seq_name_edit : string;
  bias_coeff_spin : Z;
  use_flats_check : bool;
  debayer_check : bool;
  sigma_high_spin : Z;
  sigma_low_spin : Z;
  normalize_check : bool;
  rgb_equal_check : bool
}.

(** The widgets as [init_ui] leaves them, for the default name [today]. *)
Definition init_ui (today : string) : gui :=
  {| working_dir := EmptyString;
     detected_sets := [];
     sets_label := "No sets detected";
     start_button_enabled := false;
     seq_name_edit := today;
     bias_coeff_spin := 80;
     use_flats_check := true;
     debayer_check := true;
     sigma_high_spin := 30;
     sigma_low_spin := 30;
     normalize_check := true;
     rgb_equal_check := true |}.

(** ** [MultiNightStackerGUI.detect_sets] *)

Definition set_name (i : nat) : string := "set" +:+ Text.str_nat i.

(** The [while True] loop; [fuel] bounds the number of rounds. *)
Fixpoint detect_loop (fuel : nat) (fs : gmap (list string) FS.node)
    (working_path : list string) (i : nat)
    (detected : list string) (log : list event)
    : option (list string * list event) :=
  match fuel with
  | O => None
  | S fuel' =>
      let set_path := working_path // set_name i in
      if negb (FS.path_exists fs set_path) then Some (detected, log)
      else
        let lights_path := set_path // "lights" in
        if FS.path_exists fs lights_path then
          detect_loop fuel' fs working_path (i + 1)
            (detected ++ [set_name i])
            (log ++ [Log ("Detected: " +:+ FS.name set_path) "blue"])
        else
          detect_loop fuel' fs working_path (i + 1)
            detected
            (log ++ [Log ("Skipping " +:+ FS.name set_path +:+ ": no lights/ folder")
                         "orange"])
  end.

Definition with_detected (g : gui) (detected : list string)
    (label : string) (enabled : bool) : gui :=
  {| working_dir := working_dir g;
     detected_sets := detected;
     sets_label := label;
     start_button_enabled := enabled;
     seq_name_edit := seq_name_edit g;
     bias_coeff_spin := bias_coeff_spin g;
     use_flats_check := use_flats_check g;
     debayer_check := debayer_check g;
     sigma_high_spin := sigma_high_spin g;
     sigma_low_spin := sigma_low_spin g;
     normalize_check := normalize_check g;
     rgb_equal_check := rgb_equal_check g |}.

(** A finite file system has fewer existing set folders than entries, so
    one round more than its size is enough; [None] would be a loop that
    ran out of rounds. *)
Definition detect_sets (g : gui) (fs : gmap (list string) FS.node)
    : option (gui * list event) :=
  match working_dir g with
  | EmptyString => Some (g, [])
  | _ =>
      match detect_loop (S (size fs)) fs [working_dir g] 1 [] [] with
      | None => None
      | Some (detected, log) =>
          match detected with
          | [] =>
              Some (with_detected g detected
                      "No valid sets detected (expecting set1/, set2/, etc. with lights/ folders)"
                      false, log)
          | _ =>
              Some (with_detected g detected
                      ("Detected sets: " +:+ Text.join ", " detected +:+ " (" +:+
                       Text.str_nat (length detected) +:+ " total)")
                      true, log)
          end
      end
  end.

(** ** [SirilWorker] and the workflow methods *)

Section Worker.

Context {E : Type}.

(** [worker.siril]: the connected interface, if there is one.  Its [cmd]
    either returns, having changed its session and the files, or raises
    with a message. *)
Variable siril :
  option (list string → E → gmap (list string) FS.node →
          string + E * gmap (list string) FS.node).

(** What the engine does with one command; nothing when no interface
    is attached ([if self.siril:]). *)
Definition engine_step (args : list string) (w : world E) : string + world E :=
  match siril with
  | None => inr w
  | Some engine_cmd =>
      match engine_cmd args (engine w) (files w) with
      | inl e => inl e
      | inr (s', fs') => inr (World s' fs')
      end
  end.

(** The guarded call [self.siril.cmd] inside [SirilWorker.cmd]; the trace
    keeps the command and whether the call raised. *)
Definition siril_cmd (args : list string) : M E unit :=
  λ w,
    match engine_step args w with
    | inl e => ([Call args (Some e)], w, Raise e)
    | inr w' => ([Call args None], w', Ok tt)
    end.

(** [SirilWorker.cmd] *)
Definition cmd (args : list string) : M E unit :=
  let cmd_str := Text.join " " args in
  emit (Log ("$ " +:+ cmd_str) "blue") ;;;
  try_except (siril_cmd args)
    (λ e, emit (Log ("Command failed: " +:+ e) "red") ;;; raise e).

(** [SirilWorker.run]: [task_func] returns [None] or a truth value. *)
Definition run (task_func : M E (option bool)) : M E unit :=
  try_except
    (result <- task_func ;;
     match result with
     | None | Some true => emit (Finished true "Task completed successfully")
     | Some false => emit (Finished false "Task completed with errors")
     end)
    (λ e, emit (Log ("Error: " +:+ e) "red") ;;; emit (Finished false e)).

Variable g : gui.

(** [MultiNightStackerGUI.process_set] *)
Definition process_set (set_name : string) : M E unit :=
  let set_path := [working_dir g] // set_name in
  (if use_flats_check g then
     let flats_path := set_path // "flats" in
     fs <- get_files ;;
     if FS.path_exists fs flats_path then
       emit (Log ("Processing flats for " +:+ set_name +:+ "...") "blue") ;;;
       cmd ["cd"; FS.path_str flats_path] ;;;
       cmd ["convert"; "flat"; "-out=../process"] ;;;
       cmd ["cd"; "../process"] ;;;
       cmd ["calibrate"; "flat"] ;;;
       cmd ["stack"; "pp_flat"; "rej"; "3"; "3"; "-norm=mul"] ;;;
       cmd ["cd"; working_dir g]
     else
       emit (Log ("Warning: No flats folder in " +:+ set_name) "orange")
   else ret tt) ;;;
  emit (Log ("Processing lights for " +:+ set_name +:+ "...") "blue") ;;;
  let lights_path := set_path // "lights" in
  cmd ["cd"; FS.path_str lights_path] ;;;
  cmd ["convert"; "light"; "-out=../process"] ;;;
  cmd ["cd"; "../process"] ;;;
  let bias_coeff := Text.int_of_tenths (bias_coeff_spin g) in
  let calib_args :=
    ["calibrate"; "light";
     "-bias=" +:+ dquote +:+ "=" +:+ Text.str_int bias_coeff +:+ "*$OFFSET" +:+ dquote] in
  fs <- get_files ;;
  let calib_args :=
    if use_flats_check g &&
       FS.path_exists fs (set_path // "process" // "pp_flat_stacked.fit")
    then calib_args ++ ["-flat=pp_flat_stacked"] else calib_args in
  let calib_args :=
    if debayer_check g
    then calib_args ++ ["-cfa"; "-equalize_cfa"; "-debayer"] else calib_args in
  cmd calib_args ;;;
  cmd ["cd"; working_dir g] ;;;
  emit (Log ("Completed " +:+ set_name) "green").

(** One round of the inner loop of [combine_sequences]. *)
Definition link_frame (combined_dir : list string) (seq_name : string)
    (frame_counter : nat) (fit_file : list string) : M E nat :=
  let link_name :=
    FS.div_text combined_dir
      (seq_name +:+ "_" +:+ Text.fmt_05d frame_counter +:+ ".fit") in
  fs <- get_files ;;
  (if FS.path_exists fs link_name then fs_op (FS.unlink link_name) else ret tt) ;;;
  fs_op (FS.symlink_to link_name fit_file) ;;;
  ret (frame_counter + 1).

(** One round of the outer loop of [combine_sequences]. *)
Definition link_set (combined_dir : list string) (seq_name : string)
    (frame_counter : nat) (set_name : string) : M E nat :=
  let set_process_dir := [working_dir g] // set_name // "process" in
  fs <- get_files ;;
  let pp_light_files := FS.sorted (FS.glob_pp_light fs set_process_dir) in
  match pp_light_files with
  | [] =>
      emit (Log ("Warning: No pp_light files found in " +:+ set_name) "orange") ;;;
      ret frame_counter
  | _ =>
      emit (Log ("Linking " +:+ Text.str_nat (length pp_light_files) +:+
                 " files from " +:+ set_name) "blue") ;;;
      for_fold pp_light_files (link_frame combined_dir seq_name) frame_counter
  end.

(** [MultiNightStackerGUI.combine_sequences] *)
Definition combine_sequences (seq_name : string) : M E unit :=
  let combined_dir := [working_dir g] // "multi_night_combined" in
  frame_counter <- for_fold (detected_sets g) (link_set combined_dir seq_name) 1 ;;
  emit (Log ("Created " +:+ Text.str_nat (frame_counter - 1) +:+ " symbolic links")
            "green").

(** [MultiNightStackerGUI.register_combined] *)
Definition register_combined (seq_name : string) : M E unit :=
  let combined_dir := [working_dir g] // "multi_night_combined" in
  cmd ["cd"; FS.path_str combined_dir] ;;;
  emit (Log "Registering combined sequence..." "blue") ;;;
  cmd ["register"; seq_name] ;;;
  cmd ["cd"; working_dir g].

(** The argument list built by [stack_combined]. *)
Definition stack_args (seq_name : string) : list string :=
  let sigma_low := sigma_low_spin g in
  let sigma_high := sigma_high_spin g in
  let stack_args :=
    ["stack"; "r_" +:+ seq_name; "rej";
     Text.str_tenths sigma_low; Text.str_tenths sigma_high] in
  let stack_args := stack_args ++ ["-norm=addscale"] in
  let stack_args :=
    if normalize_check g then stack_args ++ ["-output_norm"] else stack_args in
  let stack_args :=
    if rgb_equal_check g then stack_args ++ ["-rgb_equal"] else stack_args in
  stack_args ++ ["-out=../" +:+ seq_name +:+ "_stacked"].

(** [MultiNightStackerGUI.stack_combined] *)
Definition stack_combined (seq_name : string) : M E unit :=
  let combined_dir := [working_dir g] // "multi_night_combined" in
  cmd ["cd"; FS.path_str combined_dir] ;;;
  cmd (stack_args seq_name) ;;;
  cmd ["cd"; working_dir g].

(** [MultiNightStackerGUI.process_workflow] *)
Definition process_workflow : M E (option bool) :=
  try_except
    (emit (Log "=== Starting Multi-Night Processing ===" "green") ;;;
     let seq_name := Text.strip (seq_name_edit g) in
     cmd ["cd"; working_dir g] ;;;
     emit (Progress 5) ;;;
     let combined_dir := [working_dir g] // "multi_night_combined" in
     fs_op (FS.mkdir_exist_ok combined_dir) ;;;
     emit (Log ("Created directory: " +:+ FS.path_str combined_dir) "blue") ;;;
     let num_sets := length (detected_sets g) in
     let base_progress := 5 in
     let progress_per_set := if 0 <? num_sets then 60 / num_sets else 0 in
     for_each (zip (seq 0 num_sets) (detected_sets g))
       (λ '(idx, set_name),
          emit (Log (nl +:+ "=== Processing " +:+ set_name +:+ " ===") "green") ;;;
          process_set set_name ;;;
          emit (Progress (base_progress + (idx + 1) * progress_per_set))) ;;;
     emit (Log (nl +:+ "=== Combining All Nights ===") "green") ;;;
     combine_sequences seq_name ;;;
     emit (Progress 70) ;;;
     emit (Log (nl +:+ "=== Registering Across All Nights ===") "green") ;;;
     register_combined seq_name ;;;
     emit (Progress 85) ;;;
     emit (Log (nl +:+ "=== Stacking Final Result ===") "green") ;;;
     stack_combined seq_name ;;;
     emit (Progress 100) ;;;
     emit (Log (nl +:+ "=== Processing Complete! ===") "green") ;;;
     emit (Log ("Final result: " +:+ working_dir g +:+ "/" +:+ seq_name +:+ "_stacked.fit")
               "green") ;;;
     cmd ["close"] ;;;
     ret None)
    (λ e, emit (Log ("Error in workflow: " +:+ e) "red") ;;; raise e).

End Worker.

(** ** Presets: [save_preset] and [load_preset]

    A preset file is kept as the JSON document it holds; [json.dump]
    followed by [json.load] gives back the dictionary that was written.
    [JNum t] is a number with at most one decimal place, [t] tenths: every
    number a spin box with [setDecimals(1)] holds and [save_preset] writes,
    and every integer.  On such a number the rounding of [setValue] to one
    decimal changes nothing, which leaves the range.  A number with more
    decimals has no value here. *)

Inductive jvalue :=
| JStr (s : string)
| JNum (tenths : Z)
| JBool (b : bool)
| JOther.

(** What opening and parsing a file gives: a dictionary, or an exception
    (unreadable, not JSON, or JSON that is not an object). *)
Inductive preset_file :=
| Unreadable (error : string)
| Object (preset_data : gmap string jvalue).

(** The dictionary literal of [save_preset]. *)
Definition preset_data_of (g : gui) : gmap string jvalue :=
  list_to_map
    [("sequence_name", JStr (seq_name_edit g));
     ("bias_coefficient", JNum (bias_coeff_spin g));
     ("use_flats", JBool (use_flats_check g));
     ("debayer", JBool (debayer_check g));
     ("sigma_high", JNum (sigma_high_spin g));
     ("sigma_low", JNum (sigma_low_spin g));
     ("output_normalization", JBool (normalize_check g));
     ("rgb_equalization", JBool (rgb_equal_check g))].

(** [save_preset]; an empty [file_path] is a cancelled dialog. *)
Definition save_preset (g : gui) (file_path : string)
    (store : gmap string preset_file) : gmap string preset_file * list event :=
  let preset_data := preset_data_of g in
  match file_path with
  | EmptyString => (store, [])
  | _ => (<[file_path := Object preset_data]> store,
          [Log ("Preset saved: " +:+ file_path) "green"])
  end.

(** [QDoubleSpinBox.setValue] keeps the value inside the range given to
    [setRange]. *)
Definition clamp (lo hi v : Z) : Z := Z.max lo (Z.min hi v).

Definition bias_range : Z * Z := (0, 1000)%Z.
Definition sigma_range : Z * Z := (1, 100)%Z.

(** The eight setters, on the values [save_preset] writes and on values of
    another kind: text for a number or a flag, a number for text or a flag,
    a flag for text, a list, an object; these the binding refuses with a
    [TypeError].  The conversions the binding makes (a flag taken as the
    number 1.0 or 0.0, an integer as a flag, null as the empty text) are
    not among the values below. *)
Definition type_error (setter : string) : string :=
  setter +:+ ": argument 1 has unexpected type".

Definition seq_name_setText (v : jvalue) (g : gui) : string + gui :=
  match v with
  | JStr s =>
      inr (Gui (working_dir g) (detected_sets g) (sets_label g)
             (start_button_enabled g) s (bias_coeff_spin g) (use_flats_check g)
             (debayer_check g) (sigma_high_spin g) (sigma_low_spin g)
             (normalize_check g) (rgb_equal_check g))
  | _ => inl (type_error "setText(self, str)")
  end.

Definition bias_coeff_setValue (v : jvalue) (g : gui) : string + gui :=
  match v with
  | JNum t =>
      inr (Gui (working_dir g) (detected_sets g) (sets_label g)
             (start_button_enabled g) (seq_name_edit g)
             (clamp (fst bias_range) (snd bias_range) t) (use_flats_check g)
             (debayer_check g) (sigma_high_spin g) (sigma_low_spin g)
             (normalize_check g) (rgb_equal_check g))
  | _ => inl (type_error "setValue(self, float)")
  end.

Definition use_flats_setChecked (v : jvalue) (g : gui) : string + gui :=
  match v with
  | JBool b =>
      inr (Gui (working_dir g) (detected_sets g) (sets_label g)
             (start_button_enabled g) (seq_name_edit g) (bias_coeff_spin g) b
             (debayer_check g) (sigma_high_spin g) (sigma_low_spin g)
             (normalize_check g) (rgb_equal_check g))
  | _ => inl (type_error "setChecked(self, bool)")
  end.

Definition debayer_setChecked (v : jvalue) (g : gui) : string + gui :=
  match v with
  | JBool b =>
      inr (Gui (working_dir g) (detected_sets g) (sets_label g)
             (start_button_enabled g) (seq_name_edit g) (bias_coeff_spin g)
             (use_flats_check g) b (sigma_high_spin g) (sigma_low_spin g)
             (normalize_check g) (rgb_equal_check g))
  | _ => inl (type_error "setChecked(self, bool)")
  end.

Definition sigma_high_setValue (v : jvalue) (g : gui) : string + gui :=
  match v with
  | JNum t =>
      inr (Gui (working_dir g) (detected_sets g) (sets_label g)
             (start_button_enabled g) (seq_name_edit g) (bias_coeff_spin g)
             (use_flats_check g) (debayer_check g)
             (clamp (fst sigma_range) (snd sigma_range) t) (sigma_low_spin g)
             (normalize_check g) (rgb_equal_check g))
  | _ => inl (type_error "setValue(self, float)")
  end.

Definition sigma_low_setValue (v : jvalue) (g : gui) : string + gui :=
  match v with
  | JNum t =>
      inr (Gui (working_dir g) (detected_sets g) (sets_label g)
             (start_button_enabled g) (seq_name_edit g) (bias_coeff_spin g)
             (use_flats_check g) (debayer_check g) (sigma_high_spin g)
             (clamp (fst sigma_range) (snd sigma_range) t)
             (normalize_check g) (rgb_equal_check g))
  | _ => inl (type_error "setValue(self, float)")
  end.

Definition normalize_setChecked (v : jvalue) (g : gui) : string + gui :=
  match v with
  | JBool b =>
      inr (Gui (working_dir g) (detected_sets g) (sets_label g)
             (start_button_enabled g) (seq_name_edit g) (bias_coeff_spin g)
             (use_flats_check g) (debayer_check g) (sigma_high_spin g)
             (sigma_low_spin g) b (rgb_equal_check g))
  | _ => inl (type_error "setChecked(self, bool)")
  end.

Definition rgb_equal_setChecked (v : jvalue) (g : gui) : string + gui :=
  match v with
  | JBool b =>
      inr (Gui (working_dir g) (detected_sets g) (sets_label g)
             (start_button_enabled g) (seq_name_edit g) (bias_coeff_spin g)
             (use_flats_check g) (debayer_check g) (sigma_high_spin g)
             (sigma_low_spin g) (normalize_check g) b)
  | _ => inl (type_error "setChecked(self, bool)")
  end.

(** [preset_data.get(key, fallback)] *)
Definition dict_get (preset_data : gmap string jvalue) (key : string)
    (fallback : jvalue) : jvalue :=
  default fallback (preset_data !! key).

(** Statements run in order until one raises. *)
Fixpoint run_setters (steps : list (gui → string + gui)) (g : gui)
    : gui * option string :=
  match steps with
  | [] => (g, None)
  | step :: rest =>
      match step g with
      | inl e => (g, Some e)
      | inr g' => run_setters rest g'
      end
  end.

(** The body of the [try] once the dictionary is read; [default_name] is
    [datetime.now().strftime("%Y%m%d_seq")]. *)
Definition apply_preset (default_name : string)
    (preset_data : gmap string jvalue) : list (gui → string + gui) :=
  [seq_name_setText (dict_get preset_data "sequence_name" (JStr default_name));
   bias_coeff_setValue (dict_get preset_data "bias_coefficient" (JNum 80));
   use_flats_setChecked (dict_get preset_data "use_flats" (JBool true));
   debayer_setChecked (dict_get preset_data "debayer" (JBool true));
   sigma_high_setValue (dict_get preset_data "sigma_high" (JNum 30));
   sigma_low_setValue (dict_get preset_data "sigma_low" (JNum 30));
   normalize_setChecked (dict_get preset_data "output_normalization" (JBool true));
   rgb_equal_setChecked (dict_get preset_data "rgb_equalization" (JBool true))].

Definition load_error (e : string) : event :=
  MessageBox "warning" "Load Error" ("Failed to load preset: " +:+ e).

(** [load_preset]; an empty [file_path] is a cancelled dialog. *)
Definition load_preset (default_name : string) (g : gui) (file_path : string)
    (store : gmap string preset_file) : gui * list event :=
  match file_path with
  | EmptyString => (g, [])
  | _ =>
      match store !! file_path with
      | None =>
          (g, [load_error ("[Errno 2] No such file or directory: '" +:+ file_path +:+ "'")])
      | Some (Unreadable e) => (g, [load_error e])
      | Some (Object preset_data) =>
          match run_setters (apply_preset default_name preset_data) g with
          | (g', None) => (g', [Log ("Preset loaded: " +:+ file_path) "green"])
          | (g', Some e) => (g', [load_error e])
          end
      end
  end.

(** ** Vocabulary of the statements *)

(** The number a string of decimal digits denotes; leading zeros allowed. *)
Definition decimal_value (s : string) : option nat :=
  Nat.of_uint <$> NilEmpty.uint_of_string s.

(** The commands of a trace, in the order they were issued. *)
Definition calls (ev : list event) : list (list string) :=
  omap (λ e, match e with Call args _ => Some args | _ => None end) ev.

(** The percentages a trace reported. *)
Definition progress_values (ev : list event) : list nat :=
  omap (λ e, match e with Progress n => Some n | _ => None end) ev.

(** The terminal events of a trace. *)
Definition finished_events (ev : list event) : list (bool * string) :=
  omap (λ e, match e with Finished ok msg => Some (ok, msg) | _ => None end) ev.

(** Replaying commands on the engine, stopping at the first that raises. *)
Fixpoint exec {E : Type}
    (siril : option (list string → E → gmap (list string) FS.node →
                     string + E * gmap (list string) FS.node))
    (cmds : list (list string)) (w : world E) : string + world E :=
  match cmds with
  | [] => inr w
  | c :: cs =>
      match engine_step siril c w with
      | inl e => inl e
      | inr w' => exec siril cs w'
      end
  end.

Definition combined_dir (g : gui) : list string :=
  [working_dir g] // "multi_night_combined".

(** The name of the [k]-th link of the combined sequence. *)
Definition link_name (g : gui) (seq_name : string) (k : nat) : list string :=
  combined_dir g // (seq_name +:+ "_" +:+ Text.fmt_05d k +:+ ".fit").

Definition process_dir (g : gui) (set_name : string) : list string :=
  [working_dir g] // set_name // "process".

(** The calibrated lights of one set, in the order they are linked. *)
Definition calibrated (g : gui) (fs : gmap (list string) FS.node)
    (set_name : string) : list (list string) :=
  FS.sorted (FS.glob_pp_light fs (process_dir g set_name)).

(** The calibrated lights of all detected sets, set after set. *)
Definition all_calibrated (g : gui) (fs : gmap (list string) FS.node)
    : list (list string) :=
  concat (calibrated g fs <$> detected_sets g).

(** What [detect_sets] logs about folder [seti]. *)
Definition detect_log_line (fs : gmap (list string) FS.node)
    (working_path : list string) (i : nat) : event :=
  if FS.path_exists fs (working_path // set_name i // "lights")
  then Log ("Detected: " +:+ set_name i) "blue"
  else Log ("Skipping " +:+ set_name i +:+ ": no lights/ folder") "orange".

(** A spin-box value inside the range of its control. *)
Definition in_range (r : Z * Z) (v : Z) : Prop := (fst r ≤ v ≤ snd r)%Z.

(** The field under [key] is absent or carries the JSON type that
    [save_preset] writes for it. *)
Definition text_or_absent (o : option jvalue) : Prop :=
  match o with Some (JStr _) | None => True | _ => False end.
Definition number_or_absent (o : option jvalue) : Prop :=
  match o with Some (JNum _) | None => True | _ => False end.
Definition flag_or_absent (o : option jvalue) : Prop :=
  match o with Some (JBool _) | None => True | _ => False end.

Definition well_typed_preset (preset_data : gmap string jvalue) : Prop :=
  text_or_absent (preset_data !! "sequence_name") ∧
  number_or_absent (preset_data !! "bias_coefficient") ∧
  flag_or_absent (preset_data !! "use_flats") ∧
  flag_or_absent (preset_data !! "debayer") ∧
  number_or_absent (preset_data !! "sigma_high") ∧
  number_or_absent (preset_data !! "sigma_low") ∧
  flag_or_absent (preset_data !! "output_normalization") ∧
  flag_or_absent (preset_data !! "rgb_equalization").

(** What [load_preset] hands to each setter. *)
Definition text_field (o : option jvalue) (fallback : string) : string :=
  match o with Some (JStr s) => s | _ => fallback end.
Definition number_field (o : option jvalue) (fallback : Z) : Z :=
  match o with Some (JNum t) => t | _ => fallback end.
Definition flag_field (o : option jvalue) (fallback : bool) : bool :=
  match o with Some (JBool b) => b | _ => fallback end.

(** The commands of the flat stage of [process_set], in order. *)
Definition flat_commands (g : gui) (set_name : string) : list (list string) :=
  [["cd"; FS.path_str ([working_dir g] // set_name // "flats")];
   ["convert"; "flat"; "-out=../process"];
   ["cd"; "../process"];
   ["calibrate"; "flat"];
   ["stack"; "pp_flat"; "rej"; "3"; "3"; "-norm=mul"];
   ["cd"; working_dir g]].

(** The commands that bring the lights into the process folder. *)
Definition light_prelude (g : gui) (set_name : string) : list (list string) :=
  [["cd"; FS.path_str ([working_dir g] // set_name // "lights")];
   ["convert"; "light"; "-out=../process"];
   ["cd"; "../process"]].

Definition master_flat (g : gui) (set_name : string) : list string :=
  [working_dir g] // set_name // "process" // "pp_flat_stacked.fit".

(** The synthetic-bias argument for an integer coefficient. *)
Definition bias_arg (coefficient : Z) : string :=
  "-bias=" +:+ dquote +:+ "=" +:+ Text.str_int coefficient +:+ "*$OFFSET" +:+ dquote.

(** The light-calibration command when the files are [fs]. *)
Definition calibrate_light_args (g : gui) (fs : gmap (list string) FS.node)
    (set_name : string) : list string :=
  ["calibrate"; "light"; bias_arg (Text.int_of_tenths (bias_coeff_spin g))] ++
  (if use_flats_check g && FS.path_exists fs (master_flat g set_name)
   then ["-flat=pp_flat_stacked"] else []) ++
  (if debayer_check g then ["-cfa"; "-equalize_cfa"; "-debayer"] else []).

Definition is_digit (c : ascii) : bool :=
  let n := Ascii.nat_of_ascii c in (48 <=? n) && (n <=? 57).

(** What follows a command that the engine refused: in [SirilWorker.cmd],
    then in [process_workflow], then in [SirilWorker.run]. *)
Definition cmd_failed (e : string) : list event :=
  [Log ("Command failed: " +:+ e) "red"].

Definition workflow_failed (e : string) : list event :=
  cmd_failed e ++ [Log ("Error in workflow: " +:+ e) "red"].

Definition failure_tail (e : string) : list event :=
  workflow_failed e ++ [Log ("Error: " +:+ e) "red"; Finished false e].

(** A computation that emits no terminal event and in whose traces a
    refused command is followed by [suffix] and nothing else, the
    computation raising the engine's message. *)
Definition trace_ok {E A : Type} (suffix : string → list event) (m : M E A) : Prop :=
  ∀ w ev w' r,
    m w = (ev, w', r) →
    finished_events ev = [] ∧
    ∀ pre args e post,
      ev = pre ++ Call args (Some e) :: post → post = suffix e ∧ r = Raise e.

(** A computation that reports no progress. *)
Definition silent {E A : Type} (m : M E A) : Prop :=
  ∀ w ev w' r, m w = (ev, w', r) → progress_values ev = [].

(** A computation that, when it returns, has reported [ps]. *)
Definition reports {E A : Type} (ps : list nat) (m : M E A) : Prop :=
  ∀ w ev w' a, m w = (ev, w', Ok a) → progress_values ev = ps.

(** The percentages of a run over [n] sets that reaches its end. *)
Definition expected_progress (n : nat) : list nat :=
  [5] ++ ((λ idx, 5 + (idx + 1) * (if 0 <? n then 60 / n else 0)) <$> seq 0 n) ++
  [70; 85; 100].

(** ** Example inputs *)

Definition ex_gui : gui :=
  {| working_dir := "/astro";
     detected_sets := [];
     sets_label := "No sets detected";
     start_button_enabled := false;
     seq_name_edit := "m31";
     bias_coeff_spin := 80;
     use_flats_check := true;
     debayer_check := true;
     sigma_high_spin := 30;
     sigma_low_spin := 30;
     normalize_check := true;
     rgb_equal_check := true |}.

(** [set1], [set2] and [set4] with lights, no [set3]. *)
Definition ex_files_gap : gmap (list string) FS.node :=
  list_to_map
    [(["/astro"], FS.Dir);
     (["/astro"; "set1"], FS.Dir); (["/astro"; "set1"; "lights"], FS.Dir);
     (["/astro"; "set2"], FS.Dir); (["/astro"; "set2"; "lights"], FS.Dir);
     (["/astro"; "set4"], FS.Dir); (["/astro"; "set4"; "lights"], FS.Dir)].

(** [set1] without a lights folder, [set2] with one. *)
Definition ex_files_no_lights : gmap (list string) FS.node :=
  list_to_map
    [(["/astro"], FS.Dir);
     (["/astro"; "set1"], FS.Dir); (["/astro"; "set1"; "flats"], FS.Dir);
     (["/astro"; "set2"], FS.Dir); (["/astro"; "set2"; "lights"], FS.Dir)].

(** A preset that only gives a bias coefficient, 250.0, above the range
    of the control. *)
Definition ex_preset_over_range : gmap string jvalue :=
  {[ "bias_coefficient" := JNum 2500 ]}.

Definition ex_preset_store : gmap string preset_file :=
  {[ "night.json" := Object ex_preset_over_range ]}.

(** Two sets after calibration: [set1] with flats, two calibrated lights
    and a master flat, [set2] without a flats folder, with one calibrated
    light and a master flat left in its process folder. *)
Definition ex_files_calibrated : gmap (list string) FS.node :=
  list_to_map
    [(["/astro"], FS.Dir);
     (["/astro"; "set1"], FS.Dir);
     (["/astro"; "set1"; "lights"], FS.Dir);
     (["/astro"; "set1"; "flats"], FS.Dir);
     (["/astro"; "set1"; "process"], FS.Dir);
     (["/astro"; "set1"; "process"; "pp_light_00002.fit"], FS.File);
     (["/astro"; "set1"; "process"; "pp_light_00001.fit"], FS.File);
     (["/astro"; "set1"; "process"; "pp_flat_stacked.fit"], FS.File);
     (["/astro"; "set2"], FS.Dir);
     (["/astro"; "set2"; "lights"], FS.Dir);
     (["/astro"; "set2"; "process"], FS.Dir);
     (["/astro"; "set2"; "process"; "pp_light_00001.fit"], FS.File);
     (["/astro"; "set2"; "process"; "pp_flat_stacked.fit"], FS.File)].

Definition ex_world : world unit := World tt ex_files_calibrated.

(** An engine that accepts every command and leaves the files alone. *)
Definition ex_siril :
    option (list string → unit → gmap (list string) FS.node →
            string + unit * gmap (list string) FS.node) :=
  Some (λ _ s fs, inr (s, fs)).

(** An engine that refuses to register. *)
Definition ex_siril_no_register :
    option (list string → unit → gmap (list string) FS.node →
            string + unit * gmap (list string) FS.node) :=
  Some (λ args s fs,
          match args with
          | "register" :: _ => inl "register failed"
          | _ => inr (s, fs)
          end).

(** The example window after detection, and with a coefficient of 8.5. *)
Definition ex_gui_detected : gui :=
  with_detected ex_gui ["set1"; "set2"] "Detected sets: set1, set2 (2 total)" true.

Definition ex_gui_bias_85 : gui :=
  {| working_dir := "/astro";
     detected_sets := ["set1"; "set2"];
     sets_label := "Detected sets: set1, set2 (2 total)";
     start_button_enabled := true;
     seq_name_edit := "m31";
     bias_coeff_spin := 85;
     use_flats_check := true;
     debayer_check := true;
     sigma_high_spin := 30;
     sigma_low_spin := 30;
     normalize_check := true;
     rgb_equal_check := true |}.

(** ** The window around the widgets: log pane, progress bar, slots

    The widgets the workflow does not read, and the methods of
    [MultiNightStackerGUI] that run in the window's thread. *)

Record window := Window {
  widgets : gui;
  dir_label : string;
  progress_bar : nat;
  log_text : list string
}.

(** [color_map] of [MultiNightStackerGUI.log]. *)
Definition color_map : gmap string string :=
  list_to_map
    [("black", "#000000"); ("red", "#FF0000"); ("green", "#00AA00");
     ("blue", "#0000FF"); ("orange", "#FF8800")].

(** [color_map.get(color, color_map["black"])] *)
Definition hex_color (color : string) : string :=
  default (default EmptyString (color_map !! "black")) (color_map !! color).

(** [MultiNightStackerGUI.log]: one more line in the log pane. *)
Definition log (message color : string) (win : window) : window :=
  {| widgets := widgets win;
     dir_label := dir_label win;
     progress_bar := progress_bar win;
     log_text :=
       log_text win ++
       ["<span style=" +:+ dquote +:+ "color: " +:+ hex_color color +:+ ";" +:+
        dquote +:+ ">" +:+ message +:+ "</span>"] |}.

(** The calls of [self.log] that a method made, kept as [Log] events,
    written to the pane in order. *)
Definition write_log (logged : list event) (win : window) : window :=
  foldl (λ win e, match e with Log message color => log message color win | _ => win end)
    win logged.

(** [QProgressBar.setValue] on a bar with the default range 0 to 100: a
    value outside the range is ignored. *)
Definition progress_bar_setValue (value : nat) (win : window) : window :=
  if value <=? 100 then
    {| widgets := widgets win;
       dir_label := dir_label win;
       progress_bar := value;
       log_text := log_text win |}
  else win.

Definition start_button_setEnabled (enabled : bool) (g : gui) : gui :=
  with_detected g (detected_sets g) (sets_label g) enabled.

Definition with_widgets (win : window) (g : gui) : window :=
  {| widgets := g;
     dir_label := dir_label win;
     progress_bar := progress_bar win;
     log_text := log_text win |}.

(** The window as [init_ui] leaves it; [sirilpy_available] is the module
    flag [SIRILPY_AVAILABLE]. *)
Definition init_window (today : string) (sirilpy_available : bool) : window :=
  let win :=
    log "Multi-Night Stacker initialized" "green"
      {| widgets := init_ui today;
         dir_label := "No directory selected";
         progress_bar := 0;
         log_text := [] |} in
  if sirilpy_available then win
  else log "WARNING: sirilpy not available. Siril integration will not work." "red" win.

(** ** [select_directory] *)

Definition no_sets_found : event :=
  MessageBox "warning" "No Sets Found"
    ("No valid set folders detected." +:+ nl +:+ nl +:+
     "Expected structure:" +:+ nl +:+
     "  set1/" +:+ nl +:+
     "    lights/" +:+ nl +:+
     "    flats/" +:+ nl +:+
     "  set2/" +:+ nl +:+
     "    lights/" +:+ nl +:+
     "    flats/" +:+ nl +:+
     "  ...").

Definition set_working_dir (directory : string) (g : gui) : gui :=
  {| working_dir := directory;
     detected_sets := detected_sets g;
     sets_label := sets_label g;
     start_button_enabled := start_button_enabled g;
     seq_name_edit := seq_name_edit g;
     bias_coeff_spin := bias_coeff_spin g;
     use_flats_check := use_flats_check g;
     debayer_check := debayer_check g;
     sigma_high_spin := sigma_high_spin g;
     sigma_low_spin := sigma_low_spin g;
     normalize_check := normalize_check g;
     rgb_equal_check := rgb_equal_check g |}.

(** [select_directory]; [directory] is what the dialog returned, empty
    when it was cancelled.  The result is the window and the message boxes
    shown; [None] only if [detect_sets] ran out of rounds. *)
Definition select_directory (directory : string) (win : window)
    (fs : gmap (list string) FS.node) : option (window * list event) :=
  match directory with
  | EmptyString => Some (win, [])
  | _ =>
      match detect_sets (set_working_dir directory (widgets win)) fs with
      | None => None
      | Some (g, logged) =>
          let win :=
            write_log logged
              {| widgets := g;
                 dir_label := directory;
                 progress_bar := progress_bar win;
                 log_text := log_text win |} in
          match detected_sets g with
          | [] => Some (win, [no_sets_found])
          | _ => Some (log ("Working directory set: " +:+ directory) "green" win, [])
          end
      end
  end.

(** ** [start_processing] and [on_processing_finished] *)

(** The text of the question asked before a run. *)
Definition confirm_text (g : gui) (seq_name : string) : string :=
  "Process " +:+ Text.str_nat (length (detected_sets g)) +:+ " sets?" +:+ nl +:+ nl +:+
  "Sets: " +:+ Text.join ", " (detected_sets g) +:+ nl +:+
  "Sequence name: " +:+ seq_name +:+ nl +:+
  "Sigma rejection: " +:+ Text.str_tenths (sigma_low_spin g) +:+ "/" +:+
    Text.str_tenths (sigma_high_spin g) +:+ nl +:+ nl +:+
  "This will:" +:+ nl +:+
  "1. Calibrate each set individually" +:+ nl +:+
  "2. Combine all calibrated lights" +:+ nl +:+
  "3. Register across all nights" +:+ nl +:+
  "4. Stack final result" +:+ nl +:+ nl +:+
  "Continue?".

(** Text of white space only, or empty: what [str.strip] leaves nothing
    of.  A character is one, two or three bytes of the text. *)
Inductive blank : string → Prop :=
| blank_empty : blank EmptyString
| blank_space (c : ascii) (rest : string) :
    Text.isspace c = true → blank rest → blank (String c rest)
| blank_space2 (c d : ascii) (rest : string) :
    Text.isspace2 c d = true → blank rest → blank (String c (String d rest))
| blank_space3 (c d e : ascii) (rest : string) :
    Text.isspace3 c d e = true → blank rest →
    blank (String c (String d (String e rest))).

(** [start_processing]: the window, the message boxes shown and whether the
    worker thread was started.  [reply_yes] is the answer to the question,
    looked at only when the question is asked. *)
Definition start_processing (sirilpy_available reply_yes : bool) (win : window)
    : window * list event * bool :=
  let g := widgets win in
  match working_dir g with
  | EmptyString =>
      (win, [MessageBox "warning" "No Directory"
               "Please select a working directory first."], false)
  | _ =>
      match detected_sets g with
      | [] =>
          (win, [MessageBox "warning" "No Sets"
                   "No valid sets detected. Please check directory structure."], false)
      | _ =>
          if negb sirilpy_available then
            (win, [MessageBox "critical" "Missing Dependency"
                     "sirilpy is not available. This script must be run from Siril."],
             false)
          else
            let seq_name := Text.strip (seq_name_edit g) in
            match seq_name with
            | EmptyString =>
                (win, [MessageBox "warning" "No Sequence Name"
                         "Please enter a sequence name."], false)
            | _ =>
                let question :=
                  MessageBox "question" "Start Processing" (confirm_text g seq_name) in
                if negb reply_yes then (win, [question], false)
                else
                  (progress_bar_setValue 0
                     (with_widgets win (start_button_setEnabled false g)),
                   [question], true)
            end
      end
  end.

(** [on_processing_finished], the slot of the worker's terminal signal. *)
Definition on_processing_finished (success : bool) (message : string) (win : window)
    : window * list event :=
  let win := with_widgets win (start_button_setEnabled true (widgets win)) in
  if success then
    let seq_name := Text.strip (seq_name_edit (widgets win)) in
    (win,
     [MessageBox "information" "Processing Complete"
        ("Multi-night stacking complete!" +:+ nl +:+ nl +:+
         "Processed " +:+ Text.str_nat (length (detected_sets (widgets win))) +:+
           " nights" +:+ nl +:+
         "Final result: " +:+ seq_name +:+ "_stacked.fit" +:+ nl +:+ nl +:+
         "You can now open the result in Siril for further processing.")])
  else
    (win, [MessageBox "warning" "Processing Error" ("Processing failed: " +:+ message)]).

(** The three connections made by [start_processing]: each signal of the
    worker reaches its slot, in the order of emission.  The commands in a
    trace are not signals. *)
Definition deliver (e : event) (win : window) : window * list event :=
  match e with
  | Log message color => (log message color win, [])
  | Progress percentage => (progress_bar_setValue percentage win, [])
  | Finished success message => on_processing_finished success message win
  | Call _ _ | MessageBox _ _ _ => (win, [])
  end.

Fixpoint deliver_all (signals : list event) (win : window) : window * list event :=
  match signals with
  | [] => (win, [])
  | e :: rest =>
      let '(win1, boxes1) := deliver e win in
      let '(win2, boxes2) := deliver_all rest win1 in
      (win2, boxes1 ++ boxes2)
  end.

(** Pressing the start button: [start_processing], then the worker thread
    running [process_workflow] under [SirilWorker.run], its signals
    delivered to the window. *)
Definition press_start {E : Type}
    (siril : option (list string → E → gmap (list string) FS.node →
                     string + E * gmap (list string) FS.node))
    (sirilpy_available reply_yes : bool) (win : window) (w : world E)
    : window * list event * world E :=
  match start_processing sirilpy_available reply_yes win with
  | (win1, boxes, true) =>
      match run (process_workflow siril (widgets win1)) w with
      | (signals, w', _) =>
          let '(win2, boxes2) := deliver_all signals win1 in
          (win2, boxes ++ boxes2, w')
      end
  | (win1, boxes, false) => (win1, boxes, w)
  end.

(** ** Settings kept between sessions: [save_settings], [load_settings]

    The configuration file in the home directory is [None] while it does
    not exist. *)

(** The dictionary literal of [save_settings]; an unset directory is
    written as [null]. *)
Definition settings_of (g : gui) : gmap string jvalue :=
  list_to_map
    [("last_directory",
      match working_dir g with EmptyString => JOther | directory => JStr directory end);
     ("bias_coefficient", JNum (bias_coeff_spin g))].

(** [save_settings]; when the file cannot be opened for writing the
    exception is swallowed and the file stays as it was. *)
Definition save_settings (g : gui) (writable : bool) (config : option preset_file)
    : option preset_file :=
  let settings := settings_of g in
  if writable then Some (Object settings) else config.

(** [load_settings]: every exception is swallowed. *)
Definition load_settings (config : option preset_file) (g : gui) : gui :=
  match config with
  | None => g
  | Some (Unreadable _) => g
  | Some (Object settings) =>
      match settings !! "bias_coefficient" with
      | Some value =>
          match bias_coeff_setValue value g with
          | inr g' => g'
          | inl _ => g
          end
      | None => g
      end
  end.

(** [closeEvent] *)
Definition closeEvent (win : window) (writable : bool) (config : option preset_file)
    : option preset_file :=
  save_settings (widgets win) writable config.

(** [MultiNightStackerGUI.__init__] up to the point where it asks Siril for
    its working directory: [init_ui], then [load_settings]. *)
Definition new_window (today : string) (sirilpy_available : bool)
    (config : option preset_file) : window :=
  let win := init_window today sirilpy_available in
  with_widgets win (load_settings config (widgets win)).

(** ** More vocabulary *)

(** Every event of every trace of [m] satisfies [P]. *)
Definition emits_only {E A : Type} (P : event → Prop) (m : M E A) : Prop :=
  ∀ w ev w' r, m w = (ev, w', r) → Forall P ev.

(** A signal the window can show as meant: a log line whose colour is a
    key of [color_map], a percentage between 5 and 100; no message box comes
    from the worker thread. *)
Definition well_formed_signal (e : event) : Prop :=
  match e with
  | Log _ color => is_Some (color_map !! color)
  | Progress percentage => 5 ≤ percentage ≤ 100
  | Call _ _ | Finished _ _ => True
  | MessageBox _ _ _ => False
  end.

(** An event of the log, not a command, a percentage or a terminal event. *)
Definition is_log (e : event) : Prop :=
  match e with
  | Log _ _ => True
  | _ => False
  end.

(** An event that is not a percentage. *)
Definition no_progress (e : event) : Prop :=
  match e with
  | Progress _ => False
  | _ => True
  end.

(** What the commands of a trace came to, in order. *)
Definition call_results (ev : list event) : list (option string) :=
  omap (λ e, match e with Call _ failure => Some failure | _ => None end) ev.

(** A computation whose traces report a prefix of [ps], all of it when it
    returns. *)
Definition reports_up_to {E A : Type} (ps : list nat) (m : M E A) : Prop :=
  ∀ w ev w' r,
    m w = (ev, w', r) →
    progress_values ev `prefix_of` ps ∧
    ∀ a, r = Ok a → progress_values ev = ps.

(** The commands that end a run: registration and stacking of the combined
    sequence, each from the combined folder, then [close]. *)
Definition closing_commands (g : gui) (seq_name : string) : list (list string) :=
  [["cd"; FS.path_str (combined_dir g)]; ["register"; seq_name]; ["cd"; working_dir g];
   ["cd"; FS.path_str (combined_dir g)]; stack_args g seq_name; ["cd"; working_dir g];
   ["close"]].

(** The commands of [process_set] when the files are [fs] at its start and
    [fs1] when the calibration command is built. *)
Definition set_commands (g : gui) (fs fs1 : gmap (list string) FS.node)
    (set_name : string) : list (list string) :=
  (if use_flats_check g && FS.path_exists fs ([working_dir g] // set_name // "flats")
   then flat_commands g set_name else []) ++
  light_prelude g set_name ++
  [calibrate_light_args g fs1 set_name; ["cd"; working_dir g]].

(** The three spin boxes hold values inside the ranges [init_ui] gave them. *)
Definition spins_in_range (g : gui) : Prop :=
  in_range bias_range (bias_coeff_spin g) ∧
  in_range sigma_range (sigma_high_spin g) ∧
  in_range sigma_range (sigma_low_spin g).

(** The state of the directory panel and the start button. *)
Definition directory_state (g : gui) : string * list string * string * bool :=
  (working_dir g, detected_sets g, sets_label g, start_button_enabled g).

(** A computation that takes a world to one related to it by [R], whether
    it returns or raises. *)
Definition preserves {E A : Type} (R : world E → world E → Prop) (m : M E A) : Prop :=
  ∀ w ev w' r, m w = (ev, w', r) → R w w'.

(** The engine's session is the same and so is every entry that is not
    directly inside [dir]. *)
Definition same_outside {E : Type} (dir : list string) (w w' : world E) : Prop :=
  engine w' = engine w ∧
  ∀ p, (∀ c : string, p ≠ dir // c) → files w' !! p = files w !! p.

(** The signals a worker thread sends while it runs the workflow over [n]
    sets: log lines in one of four colours, percentages of the expected
    list, commands and terminal events, never a message box. *)
Definition worker_event (n : nat) (e : event) : Prop :=
  match e with
  | Log _ color => color ∈ ["blue"; "green"; "orange"; "red"]
  | Progress percentage => percentage ∈ expected_progress n
  | Call _ _ | Finished _ _ => True
  | MessageBox _ _ _ => False
  end.

(** The files once [frames] have been linked under the counters [k],
    [k+1], ... of the combined sequence. *)
Fixpoint link_all (g : gui) (seq_name : string) (k : nat)
    (frames : list (list string)) (fs : gmap (list string) FS.node)
    : gmap (list string) FS.node :=
  match frames with
  | [] => fs
  | fit_file :: rest =>
      link_all g seq_name (S k) rest (<[link_name g seq_name k := FS.Symlink fit_file]> fs)
  end.

(** What [combine_sequences] logs about one set when the files are [fs]. *)
Definition link_log (g : gui) (fs : gmap (list string) FS.node)
    (set_name : string) : event :=
  match calibrated g fs set_name with
  | [] => Log ("Warning: No pp_light files found in " +:+ set_name) "orange"
  | frames =>
      Log ("Linking " +:+ Text.str_nat (length frames) +:+ " files from " +:+ set_name)
        "blue"
  end.

(** The whole log of [combine_sequences]: one line per set, then the
    number of links. *)
Definition combine_log (g : gui) (fs : gmap (list string) FS.node) : list event :=
  (link_log g fs <$> detected_sets g) ++
  [Log ("Created " +:+ Text.str_nat (length (all_calibrated g fs)) +:+ " symbolic links")
       "green"].



(** ** More example inputs *)

Definition ex_window : window :=
  {| widgets := ex_gui_detected;
     dir_label := "/astro";
     progress_bar := 0;
     log_text := [] |}.

Definition ex_config : option preset_file :=
  Some (Object {[ "bias_coefficient" := JNum 2500 ]}).

(** The calibrated example once [process_workflow] has made the combined
    folder. *)
Definition ex_files_combined : gmap (list string) FS.node :=
  <[ ["/astro"; "multi_night_combined"] := FS.Dir ]> ex_files_calibrated.

Definition ex_world_combined : world unit := World tt ex_files_combined.

(** A sequence name of one NO-BREAK SPACE followed by one IDEOGRAPHIC
    SPACE, and the example window with that name typed in. *)
Definition ex_blank_name : string :=
  String (Ascii.ascii_of_nat 194) (String (Ascii.ascii_of_nat 160)
    (String (Ascii.ascii_of_nat 227) (String (Ascii.ascii_of_nat 128)
      (String (Ascii.ascii_of_nat 128) EmptyString)))).

Definition ex_window_blank_name : window :=
  with_widgets ex_window
    {| working_dir := "/astro";
       detected_sets := ["set1"; "set2"];
       sets_label := "Detected sets: set1, set2 (2 total)";
       start_button_enabled := true;
       seq_name_edit := ex_blank_name;
       bias_coeff_spin := 80;
       use_flats_check := true;
       debayer_check := true;
       sigma_high_spin := 30;
       sigma_low_spin := 30;
       normalize_check := true;
       rgb_equal_check := true |}.

(** * Facts about the text functions *)

Section text_facts.

Lemma decimal_value_str_nat (n : nat) :
  decimal_value (Text.str_nat n) = Some n.
Proof.
  unfold decimal_value, Text.str_nat.
  pose proof (DecimalNat.Unsigned.of_to n) as Hn.
  destruct (Nat.to_uint n) as [| d | d | d | d | d | d | d | d | d | d] eqn:Hd;
    [ simpl in *; by rewrite <- Hn
    | change (NilZero.string_of_uint ?u) with (NilEmpty.string_of_uint u);
      rewrite NilEmpty.usu; simpl; by rewrite Hn .. ].
Qed.

Lemma str_nat_inj (n m : nat) : Text.str_nat n = Text.str_nat m → n = m.
Proof.
  intros H. pose proof (decimal_value_str_nat n) as Hn.
  rewrite H, decimal_value_str_nat in Hn. by injection Hn.
Qed.

Lemma decimal_value_zeros (k : nat) (s : string) :
  decimal_value (Text.zeros k +:+ s) = decimal_value s.
Proof.
  induction k as [| k IH]; [done |].
  rewrite <- IH. unfold decimal_value. simpl.
  destruct (NilEmpty.uint_of_string (Text.zeros k +:+ s)); done.
Qed.

Lemma decimal_value_fmt_05d (n : nat) :
  decimal_value (Text.fmt_05d n) = Some n.
Proof.
  unfold Text.fmt_05d. by rewrite decimal_value_zeros, decimal_value_str_nat.
Qed.

Lemma fmt_05d_inj (n m : nat) : Text.fmt_05d n = Text.fmt_05d m → n = m.
Proof.
  intros H. pose proof (decimal_value_fmt_05d n) as Hn.
  rewrite H, decimal_value_fmt_05d in Hn. by injection Hn.
Qed.

Lemma string_app_length (s t : string) :
  String.length (s +:+ t) = String.length s + String.length t.
Proof. induction s as [| c s IH]; simpl; [done | by rewrite IH]. Qed.

Lemma string_app_inv_tail (s1 s2 t : string) : s1 +:+ t = s2 +:+ t → s1 = s2.
Proof.
  revert s2. induction s1 as [| c s1 IH]; intros [| c2 s2] H.
  - done.
  - apply (f_equal String.length) in H.
    rewrite !string_app_length in H. simpl in H. lia.
  - apply (f_equal String.length) in H.
    rewrite !string_app_length in H. simpl in H. lia.
  - change (String c (s1 +:+ t) = String c2 (s2 +:+ t)) in H.
    injection H as -> H. f_equal. by apply IH.
Qed.

Lemma string_app_assoc (s t u : string) : (s +:+ t) +:+ u = s +:+ (t +:+ u).
Proof.
  induction s as [| c s IH]; [done |].
  change (String c ((s +:+ t) +:+ u) = String c (s +:+ (t +:+ u))). by rewrite IH.
Qed.

Lemma set_name_inj (i j : nat) : set_name i = set_name j → i = j.
Proof.
  unfold set_name. intros H. apply String.app_inj in H. by apply str_nat_inj.
Qed.

(** The decimal rendering of a number starts with a digit. *)
Lemma str_nat_head (n : nat) (t : string) :
  ∃ c rest, Text.str_nat n +:+ t = String c rest ∧ is_digit c = true.
Proof.
  unfold Text.str_nat.
  destruct (Nat.to_uint n); simpl; eexists _, _; (split; [reflexivity | done]).
Qed.

(** A rendered spin-box value starts with a digit, or with a minus sign
    and then a digit. *)
Lemma str_tenths_head (t : Z) :
  ∃ c rest, Text.str_tenths t = String c rest ∧
    (is_digit c = true ∨
     c = "-"%char ∧ ∃ c' rest', rest = String c' rest' ∧ is_digit c' = true).
Proof.
  unfold Text.str_tenths.
  destruct (str_nat_head (Z.to_nat (Z.abs t / 10))
              ("." +:+ Text.str_nat (Z.to_nat (Z.abs t `mod` 10))))
    as (c & rest & Heq & Hc).
  destruct (t <? 0)%Z.
  - exists "-"%char, (String c rest). split; [by rewrite <- Heq |].
    right. split; [done |]. by exists c, rest.
  - exists c, rest. split; [by rewrite <- Heq | by left].
Qed.

End text_facts.

(** * Facts about paths and the file system *)

Section fs_facts.

Implicit Types (fs : gmap (list string) FS.node) (p q dir : list string).

Lemma name_div p (c : string) : FS.name (p // c) = c.
Proof. unfold FS.name, FS.div. by rewrite last_snoc. Qed.

Lemma div_inj p (c d : string) : p // c = p // d → c = d.
Proof. unfold FS.div. intros H. apply app_inv_head in H. by injection H. Qed.

Lemma resolve_is_Some fuel fs p :
  is_Some (FS.resolve fuel fs p) → is_Some (fs !! p).
Proof.
  destruct fuel; simpl; destruct (fs !! p) as [[| | t] |]; eauto;
    intros [? ?]; done.
Qed.

Lemma path_exists_lookup fs p :
  FS.path_exists fs p = true → is_Some (fs !! p).
Proof.
  unfold FS.path_exists. intros H. apply (resolve_is_Some 40).
  destruct (FS.resolve 40 fs p); [eauto | done].
Qed.

Lemma path_exists_file fs p : fs !! p = Some FS.File → FS.path_exists fs p = true.
Proof. unfold FS.path_exists. simpl. by intros ->. Qed.

Lemma path_exists_absent fs p : fs !! p = None → FS.path_exists fs p = false.
Proof. unfold FS.path_exists. simpl. by intros ->. Qed.

(** Existing entries are counted by [size]: the pigeonhole behind the
    bound on the rounds of [detect_loop]. *)
Lemma existing_paths_bound fs (l : list (list string)) :
  NoDup l → (∀ p, p ∈ l → FS.path_exists fs p = true) → length l ≤ size fs.
Proof.
  intros Hnd Hl.
  rewrite <- (length_map_to_list fs), <- (length_fmap fst (map_to_list fs)).
  apply submseteq_length, NoDup_submseteq; [done |].
  intros p Hp. destruct (path_exists_lookup fs p (Hl p Hp)) as [x Hx].
  apply list_elem_of_fmap. exists (p, x). split; [done |].
  by apply elem_of_map_to_list.
Qed.

End fs_facts.

(** * [detect_sets] *)

Section detect_facts.

Implicit Types (fs : gmap (list string) FS.node) (wp : list string).

Lemma detect_loop_S fuel fs wp (i : nat) detected log :
  detect_loop (S fuel) fs wp i detected log =
    if negb (FS.path_exists fs (wp // set_name i)) then Some (detected, log)
    else if FS.path_exists fs (wp // set_name i // "lights")
    then detect_loop fuel fs wp (i + 1) (detected ++ [set_name i])
           (log ++ [Log ("Detected: " +:+ set_name i) "blue"])
    else detect_loop fuel fs wp (i + 1) detected
           (log ++ [Log ("Skipping " +:+ set_name i +:+ ": no lights/ folder")
                        "orange"]).
Proof. simpl. by rewrite name_div. Qed.

Lemma detect_loop_spec fs wp (n : nat) :
  ∀ fuel i detected log,
    (∀ j, i ≤ j < i + n → FS.path_exists fs (wp // set_name j) = true) →
    FS.path_exists fs (wp // set_name (i + n)) = false →
    n < fuel →
    detect_loop fuel fs wp i detected log =
      Some (detected ++
              (set_name <$>
                 filter (λ j, FS.path_exists fs (wp // set_name j // "lights") = true)
                        (seq i n)),
            log ++ (detect_log_line fs wp <$> seq i n)).
Proof.
  induction n as [| n IH]; intros fuel i detected log Hex Hab Hfuel;
    (destruct fuel as [| fuel]; [lia |]); rewrite detect_loop_S.
  - rewrite Nat.add_0_r in Hab. rewrite Hab. simpl.
    by rewrite !app_nil_r.
  - rewrite (Hex i) by lia.
    change (seq i (S n)) with (i :: seq (S i) n).
    rewrite filter_cons, fmap_cons. unfold detect_log_line at 1.
    replace (i + 1) with (S i) by lia. simpl negb. cbv iota.
    destruct (FS.path_exists fs (wp // set_name i // "lights")) eqn:Hl.
    + rewrite decide_True by done.
      rewrite IH; [| intros j Hj; apply Hex; lia
                   | by replace (S i + n) with (i + S n) by lia | lia].
      by rewrite fmap_cons, <- !app_assoc.
    + rewrite decide_False by done.
      rewrite IH; [| intros j Hj; apply Hex; lia
                   | by replace (S i + n) with (i + S n) by lia | lia].
      by rewrite <- !app_assoc.
Qed.

(** The folders [set1 .. setn] all exist only if the file system has at
    least [n] entries. *)
Lemma existing_sets_bound fs wp (n : nat) :
  (∀ j, 1 ≤ j < 1 + n → FS.path_exists fs (wp // set_name j) = true) →
  n ≤ size fs.
Proof.
  intros Hex.
  assert (length ((λ j, wp // set_name j) <$> seq 1 n) = n) as <-
    by (by rewrite length_fmap, length_seq).
  apply existing_paths_bound.
  - apply NoDup_fmap_2_strong; [| apply NoDup_seq].
    intros i j _ _ H. by apply set_name_inj, (div_inj wp).
  - intros p [j [-> Hj]]%list_elem_of_fmap. apply Hex.
    apply elem_of_seq in Hj. lia.
Qed.

Lemma detect_sets_spec (g : gui) fs (n : nat) :
  working_dir g ≠ EmptyString →
  (∀ i, 1 ≤ i ≤ n →
        FS.path_exists fs ([working_dir g] // set_name i) = true) →
  FS.path_exists fs ([working_dir g] // set_name (S n)) = false →
  ∃ g',
    detect_sets g fs =
      Some (g', detect_log_line fs [working_dir g] <$> seq 1 n) ∧
    detected_sets g' =
      set_name <$>
        filter (λ i, FS.path_exists fs
                       ([working_dir g] // set_name i // "lights") = true)
               (seq 1 n) ∧
    working_dir g' = working_dir g.
Proof.
  intros Hwd Hex Hab. unfold detect_sets.
  destruct (working_dir g) as [| c wd'] eqn:Hw; [done |]. rewrite <- Hw in *.
  rewrite (detect_loop_spec fs [working_dir g] n);
    [ | intros j Hj; apply Hex; lia | done
      | apply Nat.lt_succ_r, existing_sets_bound with (wp := [working_dir g]);
        intros j Hj; apply Hex; lia ].
  simpl app.
  destruct (set_name <$> filter _ (seq 1 n)) eqn:Hd; eexists; (split; [reflexivity |]);
    simpl; by rewrite ?Hd.
Qed.

End detect_facts.

(** C2.  Discovery looks at [set1], [set2], ... in ascending order and stops
    at the first folder that is absent: when [set1 .. setn] exist and
    [set(n+1)] does not, the detected sets are exactly those among
    [set1 .. setn] that have a [lights] subfolder, in ascending order,
    whatever exists beyond [set(n+1)]; a folder without [lights] is logged
    as skipped and the scan goes on with the next number. *)
Theorem C2_detect_sets_stops_at_first_absent
    (g : gui) (fs : gmap (list string) FS.node) (n : nat) :
  working_dir g ≠ EmptyString →
  (∀ i, 1 ≤ i ≤ n → FS.path_exists fs ([working_dir g] // set_name i) = true) →
  FS.path_exists fs ([working_dir g] // set_name (S n)) = false →
  ∃ g',
    detect_sets g fs = Some (g', detect_log_line fs [working_dir g] <$> seq 1 n) ∧
    detected_sets g' =
      set_name <$>
        filter (λ i, FS.path_exists fs
                       ([working_dir g] // set_name i // "lights") = true)
               (seq 1 n) ∧
    working_dir g' = working_dir g.
Proof. apply detect_sets_spec. Qed.

Lemma C2_detect_sets_witness :
  ∃ g',
    detect_sets ex_gui ex_files_gap =
      Some (g', detect_log_line ex_files_gap [working_dir ex_gui] <$> seq 1 2) ∧
    detected_sets g' =
      set_name <$>
        filter (λ i, FS.path_exists ex_files_gap
                       ([working_dir ex_gui] // set_name i // "lights") = true)
               (seq 1 2) ∧
    working_dir g' = working_dir ex_gui.
Proof.
  apply (C2_detect_sets_stops_at_first_absent ex_gui ex_files_gap 2).
  - discriminate.
  - intros i Hi. destruct i as [| [| [| i]]]; [lia | reflexivity | reflexivity | lia].
  - reflexivity.
Defined.

(** The two directories of the specification. *)
Example detect_sets_gap :
  fst <$> detect_sets ex_gui ex_files_gap =
    Some (with_detected ex_gui ["set1"; "set2"]
            "Detected sets: set1, set2 (2 total)" true).
Proof. vm_compute. reflexivity. Qed.

Example detect_sets_no_lights :
  detect_sets ex_gui ex_files_no_lights =
    Some (with_detected ex_gui ["set2"] "Detected sets: set2 (1 total)" true,
          [Log "Skipping set1: no lights/ folder" "orange";
           Log "Detected: set2" "blue"]).
Proof. vm_compute. reflexivity. Qed.

(** In any directory with [set1/lights] and [set2/lights] but no [set3],
    whatever else it holds, exactly [set1; set2] are detected. *)
Example detect_sets_stops_before_set4 (g : gui) (fs : gmap (list string) FS.node) :
  working_dir g ≠ EmptyString →
  FS.path_exists fs ([working_dir g] // set_name 1) = true →
  FS.path_exists fs ([working_dir g] // set_name 1 // "lights") = true →
  FS.path_exists fs ([working_dir g] // set_name 2) = true →
  FS.path_exists fs ([working_dir g] // set_name 2 // "lights") = true →
  FS.path_exists fs ([working_dir g] // set_name 3) = false →
  ∃ g' log, detect_sets g fs = Some (g', log) ∧ detected_sets g' = ["set1"; "set2"].
Proof.
  intros Hwd H1 L1 H2 L2 H3.
  destruct (detect_sets_spec g fs 2 Hwd) as (g' & Hrun & Hdet & _).
  - intros i Hi. destruct i as [| [| [| i]]]; [lia | done | done | lia].
  - done.
  - exists g', (detect_log_line fs [working_dir g] <$> seq 1 2). split; [done |].
    rewrite Hdet. simpl seq. rewrite !filter_cons, filter_nil.
    rewrite L1, L2. by rewrite !decide_True by done.
Qed.

(** * Presets *)

Section preset_facts.

Implicit Types (g : gui) (preset_data : gmap string jvalue).

Lemma clamp_in_range (r : Z * Z) (v : Z) :
  in_range r v → clamp (fst r) (snd r) v = v.
Proof. unfold in_range, clamp. lia. Qed.

Lemma clamp_bounds (lo hi v : Z) : (lo ≤ hi)%Z → (lo ≤ clamp lo hi v ≤ hi)%Z.
Proof. unfold clamp. lia. Qed.

Lemma preset_data_of_lookups g :
  preset_data_of g !! "sequence_name" = Some (JStr (seq_name_edit g)) ∧
  preset_data_of g !! "bias_coefficient" = Some (JNum (bias_coeff_spin g)) ∧
  preset_data_of g !! "use_flats" = Some (JBool (use_flats_check g)) ∧
  preset_data_of g !! "debayer" = Some (JBool (debayer_check g)) ∧
  preset_data_of g !! "sigma_high" = Some (JNum (sigma_high_spin g)) ∧
  preset_data_of g !! "sigma_low" = Some (JNum (sigma_low_spin g)) ∧
  preset_data_of g !! "output_normalization" = Some (JBool (normalize_check g)) ∧
  preset_data_of g !! "rgb_equalization" = Some (JBool (rgb_equal_check g)).
Proof. repeat split; vm_compute; reflexivity. Qed.

(** Loading a well-typed dictionary runs all eight setters. *)
Lemma run_setters_apply_preset (default_name : string) preset_data g :
  well_typed_preset preset_data →
  run_setters (apply_preset default_name preset_data) g =
    (Gui (working_dir g) (detected_sets g) (sets_label g) (start_button_enabled g)
       (text_field (preset_data !! "sequence_name") default_name)
       (clamp (fst bias_range) (snd bias_range)
          (number_field (preset_data !! "bias_coefficient") 80))
       (flag_field (preset_data !! "use_flats") true)
       (flag_field (preset_data !! "debayer") true)
       (clamp (fst sigma_range) (snd sigma_range)
          (number_field (preset_data !! "sigma_high") 30))
       (clamp (fst sigma_range) (snd sigma_range)
          (number_field (preset_data !! "sigma_low") 30))
       (flag_field (preset_data !! "output_normalization") true)
       (flag_field (preset_data !! "rgb_equalization") true),
     None).
Proof.
  intros (H1 & H2 & H3 & H4 & H5 & H6 & H7 & H8).
  unfold apply_preset, dict_get.
  destruct (preset_data !! "sequence_name") as [[]|]; try done;
  destruct (preset_data !! "bias_coefficient") as [[]|]; try done;
  destruct (preset_data !! "use_flats") as [[]|]; try done;
  destruct (preset_data !! "debayer") as [[]|]; try done;
  destruct (preset_data !! "sigma_high") as [[]|]; try done;
  destruct (preset_data !! "sigma_low") as [[]|]; try done;
  destruct (preset_data !! "output_normalization") as [[]|]; try done;
  destruct (preset_data !! "rgb_equalization") as [[]|]; try done.
Qed.

Lemma preset_data_of_well_typed g : well_typed_preset (preset_data_of g).
Proof.
  destruct (preset_data_of_lookups g) as (H1 & H2 & H3 & H4 & H5 & H6 & H7 & H8).
  unfold well_typed_preset. by rewrite H1, H2, H3, H4, H5, H6, H7, H8.
Qed.

End preset_facts.

(** C9.  Saving a configuration whose three numbers lie within the ranges
    of their controls and loading the file again sets each of the eight
    fields, whatever the widgets held in between, to the value saved. *)
Theorem C9_preset_round_trip
    (default_name : string) (g current : gui) (file_path : string)
    (store : gmap string preset_file) :
  file_path ≠ EmptyString →
  in_range bias_range (bias_coeff_spin g) →
  in_range sigma_range (sigma_high_spin g) →
  in_range sigma_range (sigma_low_spin g) →
  let saved := save_preset g file_path store in
  let loaded := load_preset default_name current file_path saved.1 in
  seq_name_edit loaded.1 = seq_name_edit g ∧
  bias_coeff_spin loaded.1 = bias_coeff_spin g ∧
  use_flats_check loaded.1 = use_flats_check g ∧
  debayer_check loaded.1 = debayer_check g ∧
  sigma_high_spin loaded.1 = sigma_high_spin g ∧
  sigma_low_spin loaded.1 = sigma_low_spin g ∧
  normalize_check loaded.1 = normalize_check g ∧
  rgb_equal_check loaded.1 = rgb_equal_check g ∧
  loaded.2 = [Log ("Preset loaded: " +:+ file_path) "green"].
Proof.
  intros Hpath Hb Hh Hl. unfold save_preset, load_preset.
  destruct file_path as [| c rest]; [done |]. cbn [fst snd].
  rewrite lookup_insert_eq.
  rewrite run_setters_apply_preset by apply preset_data_of_well_typed.
  destruct (preset_data_of_lookups g) as (H1 & H2 & H3 & H4 & H5 & H6 & H7 & H8).
  rewrite H1, H2, H3, H4, H5, H6, H7, H8. cbn [fst snd text_field number_field flag_field
    seq_name_edit bias_coeff_spin use_flats_check debayer_check sigma_high_spin
    sigma_low_spin normalize_check rgb_equal_check].
  by rewrite !clamp_in_range by done.
Qed.

Lemma C9_preset_round_trip_witness :
  let saved := save_preset ex_gui "night.json" ∅ in
  let loaded := load_preset "20261104_seq" (init_ui "20261104_seq") "night.json" saved.1 in
  seq_name_edit loaded.1 = seq_name_edit ex_gui ∧
  bias_coeff_spin loaded.1 = bias_coeff_spin ex_gui ∧
  use_flats_check loaded.1 = use_flats_check ex_gui ∧
  debayer_check loaded.1 = debayer_check ex_gui ∧
  sigma_high_spin loaded.1 = sigma_high_spin ex_gui ∧
  sigma_low_spin loaded.1 = sigma_low_spin ex_gui ∧
  normalize_check loaded.1 = normalize_check ex_gui ∧
  rgb_equal_check loaded.1 = rgb_equal_check ex_gui ∧
  loaded.2 = [Log ("Preset loaded: " +:+ "night.json") "green"].
Proof.
  apply (C9_preset_round_trip "20261104_seq" ex_gui (init_ui "20261104_seq")
           "night.json" ∅).
  - discriminate.
  - unfold in_range. simpl. lia.
  - unfold in_range. simpl. lia.
  - unfold in_range. simpl. lia.
Defined.

(** C10, as stated, fails: a bias coefficient of 250.0 in the file is not
    applied as given, the control keeps 100.0, the upper end of its range. *)
Lemma C10_counterexample :
  ex_preset_store !! "night.json" = Some (Object ex_preset_over_range) ∧
  ex_preset_over_range !! "bias_coefficient" = Some (JNum 2500) ∧
  bias_coeff_spin (load_preset "20261104_seq" ex_gui "night.json" ex_preset_store).1
    = 1000%Z ∧
  bias_coeff_spin (load_preset "20261104_seq" ex_gui "night.json" ex_preset_store).1
    ≠ 2500%Z ∧
  (load_preset "20261104_seq" ex_gui "night.json" ex_preset_store).2
    = [Log "Preset loaded: night.json" "green"].
Proof. repeat split; vm_compute; done. Qed.

(** C10, amended.  Loading a JSON object in which every field that is
    present has the type [save_preset] writes (text for the name, a number
    with at most one decimal place for the coefficient and the two sigmas,
    a flag for the four check boxes) succeeds; a missing field takes its
    fixed default (the dated sequence name, 8, true, true, 3.0, 3.0, true,
    true); a present text or flag is applied as given and a present number
    is applied after being brought into the range of its control (0 to 100
    for the bias coefficient, 0.1 to 10.0 for the two sigmas). *)
Theorem C10_load_preset_defaults
    (default_name : string) (g : gui) (file_path : string)
    (store : gmap string preset_file) (preset_data : gmap string jvalue) :
  file_path ≠ EmptyString →
  store !! file_path = Some (Object preset_data) →
  well_typed_preset preset_data →
  let loaded := load_preset default_name g file_path store in
  loaded.2 = [Log ("Preset loaded: " +:+ file_path) "green"] ∧
  seq_name_edit loaded.1 = text_field (preset_data !! "sequence_name") default_name ∧
  bias_coeff_spin loaded.1 =
    clamp 0 1000 (number_field (preset_data !! "bias_coefficient") 80) ∧
  use_flats_check loaded.1 = flag_field (preset_data !! "use_flats") true ∧
  debayer_check loaded.1 = flag_field (preset_data !! "debayer") true ∧
  sigma_high_spin loaded.1 = clamp 1 100 (number_field (preset_data !! "sigma_high") 30) ∧
  sigma_low_spin loaded.1 = clamp 1 100 (number_field (preset_data !! "sigma_low") 30) ∧
  normalize_check loaded.1 = flag_field (preset_data !! "output_normalization") true ∧
  rgb_equal_check loaded.1 = flag_field (preset_data !! "rgb_equalization") true.
Proof.
  intros Hpath Hfile Hty. unfold load_preset.
  destruct file_path as [| c rest]; [done |].
  rewrite Hfile, run_setters_apply_preset by done. done.
Qed.

Lemma C10_load_preset_defaults_witness :
  let loaded := load_preset "20261104_seq" ex_gui "night.json" ex_preset_store in
  loaded.2 = [Log ("Preset loaded: " +:+ "night.json") "green"] ∧
  seq_name_edit loaded.1 =
    text_field (ex_preset_over_range !! "sequence_name") "20261104_seq" ∧
  bias_coeff_spin loaded.1 =
    clamp 0 1000 (number_field (ex_preset_over_range !! "bias_coefficient") 80) ∧
  use_flats_check loaded.1 = flag_field (ex_preset_over_range !! "use_flats") true ∧
  debayer_check loaded.1 = flag_field (ex_preset_over_range !! "debayer") true ∧
  sigma_high_spin loaded.1 =
    clamp 1 100 (number_field (ex_preset_over_range !! "sigma_high") 30) ∧
  sigma_low_spin loaded.1 =
    clamp 1 100 (number_field (ex_preset_over_range !! "sigma_low") 30) ∧
  normalize_check loaded.1 =
    flag_field (ex_preset_over_range !! "output_normalization") true ∧
  rgb_equal_check loaded.1 =
    flag_field (ex_preset_over_range !! "rgb_equalization") true.
Proof.
  apply (C10_load_preset_defaults "20261104_seq" ex_gui "night.json"
           ex_preset_store ex_preset_over_range).
  - discriminate.
  - reflexivity.
  - repeat split.
Defined.

(** * The worker: commands and their traces *)

Section worker_facts.

Context {E : Type}.
Variable siril :
  option (list string → E → gmap (list string) FS.node →
          string + E * gmap (list string) FS.node).

Implicit Types (w : world E) (args : list string) (ev : list event).

(** [SirilWorker.cmd] logs the command, calls the engine and, when the
    call raises, logs the failure and raises the same message. *)
Lemma cmd_eq args w :
  cmd siril args w =
    match engine_step siril args w with
    | inl e =>
        ([Log ("$ " +:+ Text.join " " args) "blue"; Call args (Some e);
          Log ("Command failed: " +:+ e) "red"], w, Raise e)
    | inr w' =>
        ([Log ("$ " +:+ Text.join " " args) "blue"; Call args None], w', Ok tt)
    end.
Proof.
  unfold cmd, bind, try_except, emit, siril_cmd, raise.
  by destruct (engine_step siril args w).
Qed.

Lemma calls_app ev1 ev2 : calls (ev1 ++ ev2) = calls ev1 ++ calls ev2.
Proof. apply omap_app. Qed.

Lemma progress_values_app ev1 ev2 :
  progress_values (ev1 ++ ev2) = progress_values ev1 ++ progress_values ev2.
Proof. apply omap_app. Qed.

Lemma finished_events_app ev1 ev2 :
  finished_events (ev1 ++ ev2) = finished_events ev1 ++ finished_events ev2.
Proof. apply omap_app. Qed.

Lemma bind_ok_inv {A B : Type} (m : M E A) (k : A → M E B) w ev w' (b : B) :
  bind m k w = (ev, w', Ok b) →
  ∃ ev1 w1 a ev2,
    m w = (ev1, w1, Ok a) ∧ k a w1 = (ev2, w', Ok b) ∧ ev = ev1 ++ ev2.
Proof.
  unfold bind. destruct (m w) as [[ev1 w1] [a | e]]; [| done].
  destruct (k a w1) as [[ev2 w2] r] eqn:Hk. intros [= <- <- <-].
  by exists ev1, w1, a, ev2.
Qed.

Lemma bind_get_files {B : Type} (k : gmap (list string) FS.node → M E B) w :
  bind get_files k w = k (files w) w.
Proof. unfold bind, get_files. by destruct (k (files w) w) as [[??]?]. Qed.

Lemma bind_ret {A B : Type} (a : A) (k : A → M E B) w : bind (ret a) k w = k a w.
Proof. unfold bind, ret. by destruct (k a w) as [[??]?]. Qed.

Lemma bind_emit {B : Type} (e : event) (k : unit → M E B) w :
  bind (emit e) k w =
    match k tt w with (ev2, w2, r) => (e :: ev2, w2, r) end.
Proof. done. Qed.

Lemma bind_emit_ok {B : Type} (e : event) (k : unit → M E B) w ev w' (b : B) :
  bind (emit e) k w = (ev, w', Ok b) →
  ∃ ev2, k tt w = (ev2, w', Ok b) ∧ ev = e :: ev2.
Proof.
  rewrite bind_emit. destruct (k tt w) as [[ev2 w2] r]. intros [= <- <- <-].
  by exists ev2.
Qed.

Lemma cmd_ok args w ev w' :
  cmd siril args w = (ev, w', Ok tt) →
  engine_step siril args w = inr w' ∧
  ev = [Log ("$ " +:+ Text.join " " args) "blue"; Call args None].
Proof.
  rewrite cmd_eq. destruct (engine_step siril args w); [done |].
  by intros [= <- <-].
Qed.

Lemma bind_cmd_ok {B : Type} args (k : unit → M E B) w ev w' (b : B) :
  bind (cmd siril args) k w = (ev, w', Ok b) →
  ∃ w1 ev2,
    engine_step siril args w = inr w1 ∧ k tt w1 = (ev2, w', Ok b) ∧
    ev = [Log ("$ " +:+ Text.join " " args) "blue"; Call args None] ++ ev2.
Proof.
  intros (ev1 & w1 & [] & ev2 & Hc & Hk & ->)%bind_ok_inv.
  apply cmd_ok in Hc as [Hs ->]. by exists w1, ev2.
Qed.

End worker_facts.

(** * [stack_combined] *)

Section stack_facts.

Lemma str_tenths_not_option (t : Z) (c : ascii) (rest : string) :
  is_digit c = false → Text.str_tenths t ≠ String "-" (String c rest).
Proof.
  intros Hc Heq. destruct (str_tenths_head t) as (c0 & r0 & H0 & Hd).
  rewrite H0 in Heq. injection Heq as -> ->.
  destruct Hd as [Hd | (_ & c' & r' & Hr & Hd)]; [done |].
  injection Hr as <- <-. congruence.
Qed.

Lemma registered_not_option (seq_name : string) (c : ascii) (rest : string) :
  "r_" +:+ seq_name ≠ String "-" (String c rest).
Proof. discriminate. Qed.

Lemma out_not_option (seq_name flag : string) :
  String.get 4 flag ≠ Some "="%char → "-out=../" +:+ seq_name +:+ "_stacked" ≠ flag.
Proof. intros Hflag <-. by apply Hflag. Qed.

Lemma stack_args_eq (g : gui) (seq_name : string) :
  stack_args g seq_name =
    ["stack"; "r_" +:+ seq_name; "rej";
     Text.str_tenths (sigma_low_spin g); Text.str_tenths (sigma_high_spin g);
     "-norm=addscale"] ++
    (if normalize_check g then ["-output_norm"] else []) ++
    (if rgb_equal_check g then ["-rgb_equal"] else []) ++
    ["-out=../" +:+ seq_name +:+ "_stacked"].
Proof. unfold stack_args. by destruct (normalize_check g), (rgb_equal_check g). Qed.

(** Which words that start with a dash occur in the argument list. *)
Lemma stack_args_option (g : gui) (seq_name : string) (c : ascii) (rest : string) :
  is_digit c = false →
  String.get 4 (String "-" (String c rest)) ≠ Some "="%char →
  String "-" (String c rest) ∈ stack_args g seq_name ↔
    String "-" (String c rest) = "-norm=addscale" ∨
    (normalize_check g = true ∧ String "-" (String c rest) = "-output_norm") ∨
    (rgb_equal_check g = true ∧ String "-" (String c rest) = "-rgb_equal").
Proof.
  intros Hc Hget. rewrite stack_args_eq. split.
  - intros Hin. rewrite !elem_of_app, !elem_of_cons, elem_of_nil in Hin.
    destruct Hin as [[H | [H | [H | [H | [H | [H | []]]]]]] | [H | [H | H]]].
    + discriminate H.
    + by destruct (registered_not_option seq_name c rest).
    + discriminate H.
    + by destruct (str_tenths_not_option (sigma_low_spin g) c rest).
    + by destruct (str_tenths_not_option (sigma_high_spin g) c rest).
    + by left.
    + destruct (normalize_check g); [| by apply elem_of_nil in H].
      apply list_elem_of_singleton in H. right. by left.
    + destruct (rgb_equal_check g); [| by apply elem_of_nil in H].
      apply list_elem_of_singleton in H. right. by right.
    + destruct H as [H | []].
      by destruct (out_not_option seq_name (String "-" (String c rest))).
  - intros [-> | [[Hn ->] | [Hr ->]]].
    + set_solver.
    + rewrite Hn. set_solver.
    + rewrite Hr. set_solver.
Qed.

End stack_facts.

(** C5.  The stacking command asks for sigma-clipping rejection with the
    two configured thresholds, low then high, on the registered sequence
    [r_{seqName}]; additive-scale normalization is always present, output
    normalization exactly when [normalizeOutput] is set, RGB equalization
    exactly when [rgbEqualize] is set; its last argument names the output
    as [../{seqName}_stacked].  [stack_combined] first changes into
    [{workingDirectory}/multi_night_combined]; whenever the engine accepts
    that, the stack command is the next and only stack command issued, so
    that the output is named from inside the combined folder; when the
    engine accepts it too, the change back to the working directory
    follows and nothing else. *)
Theorem C5_stack_command {E : Type}
    (siril : option (list string → E → gmap (list string) FS.node →
                     string + E * gmap (list string) FS.node))
    (g : gui) (seq_name : string) (w : world E) :
  let args := stack_args g seq_name in
  let cd_in := ["cd"; FS.path_str ([working_dir g] // "multi_night_combined")] in
  let cd_back := ["cd"; working_dir g] in
  take 5 args =
    ["stack"; "r_" +:+ seq_name; "rej";
     Text.str_tenths (sigma_low_spin g); Text.str_tenths (sigma_high_spin g)] ∧
  "-norm=addscale" ∈ args ∧
  ("-output_norm" ∈ args ↔ normalize_check g = true) ∧
  ("-rgb_equal" ∈ args ↔ rgb_equal_check g = true) ∧
  last args = Some ("-out=../" +:+ seq_name +:+ "_stacked") ∧
  ∃ ev w' r,
    stack_combined siril g seq_name w = (ev, w', r) ∧
    match engine_step siril cd_in w with
    | inl e => calls ev = [cd_in] ∧ r = Raise e
    | inr w1 =>
        match engine_step siril args w1 with
        | inl e => calls ev = [cd_in; args] ∧ r = Raise e
        | inr w2 =>
            calls ev = [cd_in; args; cd_back] ∧
            match engine_step siril cd_back w2 with
            | inl e => r = Raise e
            | inr w3 => r = Ok tt ∧ w' = w3
            end
        end
    end.
Proof.
  cbn zeta. split; [by rewrite stack_args_eq |].
  split.
  { apply (stack_args_option g seq_name "n" "orm=addscale"); [done | done |]. by left. }
  split.
  { split.
    - intros H. apply (stack_args_option g seq_name "o" "utput_norm") in H; [| done..].
      by destruct H as [H | [[H _] | [_ H]]].
    - intros H. apply (stack_args_option g seq_name "o" "utput_norm"); [done.. |].
      right. by left. }
  split.
  { split.
    - intros H. apply (stack_args_option g seq_name "r" "gb_equal") in H; [| done..].
      by destruct H as [H | [[_ H] | [H _]]].
    - intros H. apply (stack_args_option g seq_name "r" "gb_equal"); [done.. |].
      right. by right. }
  split; [rewrite stack_args_eq, !app_assoc; apply last_snoc |].
  unfold stack_combined, bind. rewrite cmd_eq.
  destruct (engine_step siril
              ["cd"; FS.path_str ([working_dir g] // "multi_night_combined")] w)
    as [e | w1]; [by eexists _, _, _ |].
  rewrite cmd_eq.
  destruct (engine_step siril (stack_args g seq_name) w1) as [e | w2];
    [by eexists _, _, _ |].
  rewrite cmd_eq.
  destruct (engine_step siril ["cd"; working_dir g] w2) as [e | w3];
    by eexists _, _, _.
Qed.

(** The stack command of the example window, as the engine receives it. *)
Example stack_combined_example :
  calls (stack_combined ex_siril ex_gui_detected "m31" ex_world).1.1 =
    [["cd"; "/astro/multi_night_combined"];
     ["stack"; "r_m31"; "rej"; "3.0"; "3.0"; "-norm=addscale"; "-output_norm";
      "-rgb_equal"; "-out=../m31_stacked"];
     ["cd"; "/astro"]].
Proof. vm_compute. reflexivity. Qed.

(** * [process_set] *)

Section process_set_facts.

Context {E : Type}.
Variable siril :
  option (list string → E → gmap (list string) FS.node →
          string + E * gmap (list string) FS.node).

Implicit Types (w : world E) (g : gui) (ev : list event).

Lemma exec_app (l1 l2 : list (list string)) w w1 :
  exec siril l1 w = inr w1 → exec siril (l1 ++ l2) w = exec siril l2 w1.
Proof.
  revert w. induction l1 as [| c l1 IH]; intros w; simpl.
  - by intros [= ->].
  - destruct (engine_step siril c w) as [e | w2]; [done | apply IH].
Qed.

(** The flat stage of a run that goes on: its commands, and the world it
    leaves. *)
Lemma flat_stage_ok g (set_name : string) (rest : M E unit) w ev w' :
  bind
    (if use_flats_check g then
       fs <- get_files ;;
       if FS.path_exists fs ([working_dir g] // set_name // "flats") then
         emit (Log ("Processing flats for " +:+ set_name +:+ "...") "blue") ;;;
         cmd siril ["cd"; FS.path_str ([working_dir g] // set_name // "flats")] ;;;
         cmd siril ["convert"; "flat"; "-out=../process"] ;;;
         cmd siril ["cd"; "../process"] ;;;
         cmd siril ["calibrate"; "flat"] ;;;
         cmd siril ["stack"; "pp_flat"; "rej"; "3"; "3"; "-norm=mul"] ;;;
         cmd siril ["cd"; working_dir g]
       else
         emit (Log ("Warning: No flats folder in " +:+ set_name) "orange")
     else ret tt) (λ _, rest) w = (ev, w', Ok tt) →
  let flats :=
    use_flats_check g &&
    FS.path_exists (files w) ([working_dir g] // set_name // "flats") in
  ∃ w1 ev1 ev2,
    exec siril (if flats then flat_commands g set_name else []) w = inr w1 ∧
    calls ev1 = (if flats then flat_commands g set_name else []) ∧
    rest w1 = (ev2, w', Ok tt) ∧ ev = ev1 ++ ev2 ∧
    (use_flats_check g = true → flats = false →
     ev1 = [Log ("Warning: No flats folder in " +:+ set_name) "orange"]).
Proof.
  intros (ev1 & w1 & [] & ev2 & Hf & Hr & ->)%bind_ok_inv. cbn zeta.
  exists w1, ev1, ev2.
  destruct (use_flats_check g); simpl.
  - rewrite bind_get_files in Hf.
    destruct (FS.path_exists (files w) ([working_dir g] // set_name // "flats")).
    + apply bind_emit_ok in Hf as (? & Hf & ->).
      apply bind_cmd_ok in Hf as (wa & ? & Ha & Hf & ->).
      apply bind_cmd_ok in Hf as (wb & ? & Hb & Hf & ->).
      apply bind_cmd_ok in Hf as (wc & ? & Hc & Hf & ->).
      apply bind_cmd_ok in Hf as (wd & ? & Hd & Hf & ->).
      apply bind_cmd_ok in Hf as (we & ? & He & Hf & ->).
      apply cmd_ok in Hf as [Hg ->].
      unfold flat_commands. simpl. rewrite Ha, Hb, Hc, Hd, He, Hg. done.
    + unfold emit in Hf. injection Hf as <- <-. done.
  - unfold ret in Hf. injection Hf as <- <-. done.
Qed.

(** A run of [process_set] that returns has issued the flat commands, if
    flats are used and the folder is there, then the three commands that
    convert the lights, then the calibration command built from the files
    as they are at that moment, then the change back. *)
Lemma process_set_ok g (set_name : string) w ev w' :
  process_set siril g set_name w = (ev, w', Ok tt) →
  let flats :=
    use_flats_check g &&
    FS.path_exists (files w) ([working_dir g] // set_name // "flats") in
  let before :=
    (if flats then flat_commands g set_name else []) ++ light_prelude g set_name in
  ∃ w1,
    exec siril before w = inr w1 ∧
    exec siril [calibrate_light_args g (files w1) set_name; ["cd"; working_dir g]] w1
      = inr w' ∧
    calls ev =
      before ++ [calibrate_light_args g (files w1) set_name; ["cd"; working_dir g]] ∧
    (use_flats_check g = true → flats = false →
     Log ("Warning: No flats folder in " +:+ set_name) "orange" ∈ ev).
Proof.
  unfold process_set. intros H.
  apply flat_stage_ok in H as (w0 & ev0 & ev1 & Hflat & Hcalls & H & -> & Hwarn).
  cbn zeta.
  apply bind_emit_ok in H as (? & H & ->).
  apply bind_cmd_ok in H as (wa & ? & Ha & H & ->).
  apply bind_cmd_ok in H as (wb & ? & Hb & H & ->).
  apply bind_cmd_ok in H as (wc & ? & Hc & H & ->).
  rewrite bind_get_files in H.
  apply bind_cmd_ok in H as (wd & ? & Hd & H & ->).
  apply bind_cmd_ok in H as (we & ? & He & H & ->).
  unfold emit in H. injection H as <- <-.
  assert (Hargs :
    (if debayer_check g
     then (if use_flats_check g &&
              FS.path_exists (files wc)
                ([working_dir g] // set_name // "process" // "pp_flat_stacked.fit")
           then ["calibrate"; "light";
                 "-bias=" +:+ dquote +:+ "=" +:+
                 Text.str_int (Text.int_of_tenths (bias_coeff_spin g)) +:+
                 "*$OFFSET" +:+ dquote] ++ ["-flat=pp_flat_stacked"]
           else ["calibrate"; "light";
                 "-bias=" +:+ dquote +:+ "=" +:+
                 Text.str_int (Text.int_of_tenths (bias_coeff_spin g)) +:+
                 "*$OFFSET" +:+ dquote]) ++ ["-cfa"; "-equalize_cfa"; "-debayer"]
     else (if use_flats_check g &&
              FS.path_exists (files wc)
                ([working_dir g] // set_name // "process" // "pp_flat_stacked.fit")
           then ["calibrate"; "light";
                 "-bias=" +:+ dquote +:+ "=" +:+
                 Text.str_int (Text.int_of_tenths (bias_coeff_spin g)) +:+
                 "*$OFFSET" +:+ dquote] ++ ["-flat=pp_flat_stacked"]
           else ["calibrate"; "light";
                 "-bias=" +:+ dquote +:+ "=" +:+
                 Text.str_int (Text.int_of_tenths (bias_coeff_spin g)) +:+
                 "*$OFFSET" +:+ dquote]))
    = calibrate_light_args g (files wc) set_name).
  { unfold calibrate_light_args, master_flat, bias_arg.
    destruct (debayer_check g),
      (use_flats_check g &&
       FS.path_exists (files wc)
         ([working_dir g] // set_name // "process" // "pp_flat_stacked.fit")); done. }
  rewrite Hargs in Hd.
  exists wc. repeat split.
  - rewrite (exec_app _ _ _ _ Hflat). unfold light_prelude. simpl.
    by rewrite Ha, Hb, Hc.
  - simpl. by rewrite Hd, He.
  - rewrite Hargs, calls_app, Hcalls, <- app_assoc. reflexivity.
  - intros Hu Hf. apply elem_of_app. left. rewrite (Hwarn Hu Hf). by left.
Qed.

(** What the calibration command holds. *)
Lemma bias_arg_get_1 (k : Z) : String.get 1 (bias_arg k) = Some "b"%char.
Proof. reflexivity. Qed.

Lemma calibrate_light_args_flat g fs (set_name : string) :
  "-flat=pp_flat_stacked" ∈ calibrate_light_args g fs set_name ↔
    use_flats_check g = true ∧ FS.path_exists fs (master_flat g set_name) = true.
Proof.
  unfold calibrate_light_args.
  rewrite !elem_of_app, !elem_of_cons, elem_of_nil. split.
  - intros [[H | [H | [H | []]]] | [H | H]].
    + discriminate H.
    + discriminate H.
    + apply (f_equal (String.get 1)) in H. rewrite bias_arg_get_1 in H.
      discriminate H.
    + destruct (use_flats_check g), (FS.path_exists fs (master_flat g set_name));
        try done; by apply elem_of_nil in H.
    + destruct (debayer_check g); [| by apply elem_of_nil in H].
      rewrite !elem_of_cons, elem_of_nil in H.
      destruct H as [H | [H | [H | []]]]; discriminate H.
  - intros [-> ->]. right. left. simpl. by left.
Qed.

Lemma calibrate_light_args_debayer g fs (set_name flag : string) :
  flag ∈ ["-cfa"; "-equalize_cfa"; "-debayer"] →
  flag ∈ calibrate_light_args g fs set_name ↔ debayer_check g = true.
Proof.
  intros Hflag. unfold calibrate_light_args.
  rewrite !elem_of_cons, elem_of_nil in Hflag.
  rewrite !elem_of_app, !elem_of_cons, elem_of_nil. split.
  - intros [[H | [H | [H | []]]] | [H | H]].
    + destruct Hflag as [-> | [-> | [-> | []]]]; discriminate H.
    + destruct Hflag as [-> | [-> | [-> | []]]]; discriminate H.
    + apply (f_equal (String.get 1)) in H. rewrite bias_arg_get_1 in H.
      destruct Hflag as [-> | [-> | [-> | []]]]; discriminate H.
    + destruct (use_flats_check g && FS.path_exists fs (master_flat g set_name));
        [| by apply elem_of_nil in H].
      apply list_elem_of_singleton in H.
      destruct Hflag as [-> | [-> | [-> | []]]]; discriminate H.
    + destruct (debayer_check g); [done | by apply elem_of_nil in H].
  - intros ->. right. right.
    destruct Hflag as [-> | [-> | [-> | []]]]; set_solver.
Qed.

End process_set_facts.

(** C6.  In a run of [process_set] that returns: when flats are used and
    the set has a flats folder, the commands open with the flat stage, whose
    stack command has the fixed bounds 3 and 3 and multiplicative
    normalization, and otherwise no flat command is issued; the light
    calibration command that follows the conversion of the lights carries
    the master-flat argument exactly when flats are used and the
    master-flat file exists in the process folder at that moment, and the
    three CFA and debayer options exactly when debayering is on. *)
Theorem C6_calibration_commands {E : Type}
    (siril : option (list string → E → gmap (list string) FS.node →
                     string + E * gmap (list string) FS.node))
    (g : gui) (set_name : string) (w : world E) (ev : list event) (w' : world E) :
  process_set siril g set_name w = (ev, w', Ok tt) →
  let flats :=
    use_flats_check g &&
    FS.path_exists (files w) ([working_dir g] // set_name // "flats") in
  ∃ before calib w1,
    calls ev = before ++ [calib; ["cd"; working_dir g]] ∧
    exec siril before w = inr w1 ∧
    (flats = true →
       before = flat_commands g set_name ++ light_prelude g set_name ∧
       ["stack"; "pp_flat"; "rej"; "3"; "3"; "-norm=mul"] ∈ flat_commands g set_name) ∧
    (flats = false → before = light_prelude g set_name) ∧
    take 2 calib = ["calibrate"; "light"] ∧
    ("-flat=pp_flat_stacked" ∈ calib ↔
       use_flats_check g = true ∧
       FS.path_exists (files w1) (master_flat g set_name) = true) ∧
    (∀ flag, flag ∈ ["-cfa"; "-equalize_cfa"; "-debayer"] →
       flag ∈ calib ↔ debayer_check g = true).
Proof.
  intros Hrun flats.
  destruct (process_set_ok siril g set_name w ev w' Hrun) as (w1 & Hb & _ & Hcalls & _).
  eexists _, (calibrate_light_args g (files w1) set_name), w1.
  split; [exact Hcalls |]. split; [exact Hb |]. fold flats.
  split; [intros Hf; split; [by rewrite Hf | unfold flat_commands; set_solver] |].
  split; [by intros -> |].
  split; [done |].
  split; [apply calibrate_light_args_flat |].
  intros flag Hflag. by apply calibrate_light_args_debayer.
Qed.

Lemma C6_calibration_commands_witness :
  let run := process_set ex_siril ex_gui_detected "set1" ex_world in
  let flats :=
    use_flats_check ex_gui_detected &&
    FS.path_exists (files ex_world)
      ([working_dir ex_gui_detected] // "set1" // "flats") in
  ∃ before calib w1,
    calls run.1.1 = before ++ [calib; ["cd"; working_dir ex_gui_detected]] ∧
    exec ex_siril before ex_world = inr w1 ∧
    (flats = true →
       before = flat_commands ex_gui_detected "set1" ++
                light_prelude ex_gui_detected "set1" ∧
       ["stack"; "pp_flat"; "rej"; "3"; "3"; "-norm=mul"]
         ∈ flat_commands ex_gui_detected "set1") ∧
    (flats = false → before = light_prelude ex_gui_detected "set1") ∧
    take 2 calib = ["calibrate"; "light"] ∧
    ("-flat=pp_flat_stacked" ∈ calib ↔
       use_flats_check ex_gui_detected = true ∧
       FS.path_exists (files w1) (master_flat ex_gui_detected "set1") = true) ∧
    (∀ flag, flag ∈ ["-cfa"; "-equalize_cfa"; "-debayer"] →
       flag ∈ calib ↔ debayer_check ex_gui_detected = true).
Proof.
  intros run.
  apply (C6_calibration_commands ex_siril ex_gui_detected "set1" ex_world
           run.1.1 run.1.2).
  vm_compute. reflexivity.
Defined.

(** C3.  The code at a coefficient of 8.5: the control holds and shows 8.5,
    the calibration command carries 8. *)
Lemma C3_bias_coefficient_truncated :
  Text.str_tenths (bias_coeff_spin ex_gui_bias_85) = "8.5" ∧
  calls (process_set ex_siril ex_gui_bias_85 "set1" ex_world).1.1 !! 9 =
    Some ["calibrate"; "light";
          "-bias=" +:+ dquote +:+ "=8*$OFFSET" +:+ dquote;
          "-flat=pp_flat_stacked"; "-cfa"; "-equalize_cfa"; "-debayer"].
Proof. split; vm_compute; reflexivity. Qed.

(** C7, as stated, fails: [set2] has no flats folder, flats are in use and
    the warning is logged, yet the light calibration of [set2] is given
    the master flat that lies in its process folder. *)
Lemma C7_counterexample :
  use_flats_check ex_gui_detected = true ∧
  FS.path_exists (files ex_world)
    ([working_dir ex_gui_detected] // "set2" // "flats") = false ∧
  (process_set ex_siril ex_gui_detected "set2" ex_world).2 = Ok tt ∧
  (process_set ex_siril ex_gui_detected "set2" ex_world).1.1 !! 0 =
    Some (Log "Warning: No flats folder in set2" "orange") ∧
  calls (process_set ex_siril ex_gui_detected "set2" ex_world).1.1 !! 3 =
    Some ["calibrate"; "light";
          "-bias=" +:+ dquote +:+ "=8*$OFFSET" +:+ dquote;
          "-flat=pp_flat_stacked"; "-cfa"; "-equalize_cfa"; "-debayer"].
Proof. repeat split; vm_compute; reflexivity. Qed.


(** * Failure: what a refused command leaves in the trace *)

Section abort_facts.

Context {E : Type}.
Variable siril :
  option (list string → E → gmap (list string) FS.node →
          string + E * gmap (list string) FS.node).

Implicit Types (w : world E) (g : gui) (ev : list event).

Lemma app_eq_cons_inv {A : Type} (l1 l2 pre post : list A) (x : A) :
  l1 ++ l2 = pre ++ x :: post →
  (∃ post1, l1 = pre ++ x :: post1 ∧ post = post1 ++ l2) ∨
  (∃ pre2, pre = l1 ++ pre2 ∧ l2 = pre2 ++ x :: post).
Proof.
  revert pre. induction l1 as [| y l1 IH]; intros pre H.
  - right. by exists pre.
  - destruct pre as [| z pre]; simpl in H.
    + injection H as -> <-. left. by exists l1.
    + injection H as -> H. destruct (IH pre H) as [(p1 & -> & ->) | (p2 & -> & ->)].
      * left. by exists p1.
      * right. by exists p2.
Qed.

(** Traces without a refused command and without a terminal event. *)
Definition plain (ev : list event) : Prop :=
  finished_events ev = [] ∧
  ∀ pre args e post, ev ≠ pre ++ Call args (Some e) :: post.

Lemma plain_trace_ok {A : Type} (suffix : string → list event) (m : M E A) :
  (∀ w ev w' r, m w = (ev, w', r) → plain ev) → trace_ok suffix m.
Proof.
  intros Hm w ev w' r Hrun. destruct (Hm w ev w' r Hrun) as [Hfin Hno].
  split; [done |]. intros pre args e post Heq. by destruct (Hno pre args e post).
Qed.

Lemma plain_nil : plain [].
Proof. split; [done |]. intros [| ??] ????; done. Qed.

Lemma plain_log (message color : string) : plain [Log message color].
Proof.
  split; [done |]. intros pre args e post Heq.
  destruct pre as [| ? pre]; simplify_eq/=. by destruct pre.
Qed.

Lemma plain_progress (n : nat) : plain [Progress n].
Proof.
  split; [done |]. intros pre args e post Heq.
  destruct pre as [| ? pre]; simplify_eq/=. by destruct pre.
Qed.

Lemma trace_ok_ret {A : Type} suffix (a : A) : trace_ok suffix (ret (E:=E) a).
Proof. apply plain_trace_ok. intros ???? [= <- _ _]. apply plain_nil. Qed.

Lemma trace_ok_raise {A : Type} suffix (e : string) :
  trace_ok suffix (raise (E:=E) (A:=A) e).
Proof. apply plain_trace_ok. intros ???? [= <- _ _]. apply plain_nil. Qed.

Lemma trace_ok_get_files suffix : trace_ok suffix (get_files (E:=E)).
Proof. apply plain_trace_ok. intros ???? [= <- _ _]. apply plain_nil. Qed.

Lemma trace_ok_fs_op suffix op : trace_ok suffix (fs_op (E:=E) op).
Proof.
  apply plain_trace_ok. intros w ev w' r. unfold fs_op.
  destruct (op (files w)); intros [= <- _ _]; apply plain_nil.
Qed.

Lemma trace_ok_log suffix (message color : string) :
  trace_ok suffix (emit (E:=E) (Log message color)).
Proof. apply plain_trace_ok. intros ???? [= <- _ _]. apply plain_log. Qed.

Lemma trace_ok_progress suffix (n : nat) :
  trace_ok suffix (emit (E:=E) (Progress n)).
Proof. apply plain_trace_ok. intros ???? [= <- _ _]. apply plain_progress. Qed.

Lemma trace_ok_bind {A B : Type} suffix (m : M E A) (k : A → M E B) :
  trace_ok suffix m → (∀ a, trace_ok suffix (k a)) → trace_ok suffix (bind m k).
Proof.
  intros Hm Hk w ev w' r. unfold bind.
  destruct (m w) as [[ev1 w1] [a | e1]] eqn:Hmw.
  - destruct (k a w1) as [[ev2 w2] r2] eqn:Hkw. intros [= <- <- <-].
    destruct (Hm _ _ _ _ Hmw) as [Hf1 Hc1]. destruct (Hk a _ _ _ _ Hkw) as [Hf2 Hc2].
    split; [by rewrite finished_events_app, Hf1, Hf2 |].
    intros pre args e post [(p1 & -> & ->) | (p2 & -> & ->)]%app_eq_cons_inv.
    + by destruct (Hc1 _ _ _ _ eq_refl).
    + by apply (Hc2 p2 args e post).
  - intros [= <- <- <-]. destruct (Hm _ _ _ _ Hmw) as [Hf1 Hc1].
    split; [done |]. intros pre args e post Heq.
    destruct (Hc1 _ _ _ _ Heq) as [-> [= ->]]. done.
Qed.

Lemma trace_ok_cmd args : trace_ok cmd_failed (cmd siril args).
Proof.
  intros w ev w' r. rewrite cmd_eq.
  destruct (engine_step siril args w) as [e | w1]; intros [= <- <- <-].
  - split; [done |]. intros pre args' e' post Heq.
    destruct pre as [| ? [| ? [| ? pre]]]; simplify_eq/=; try done.
    by destruct pre.
  - split; [done |]. intros pre args' e' post Heq.
    destruct pre as [| ? [| ? pre]]; simplify_eq/=; try done.
    by destruct pre.
Qed.

Lemma trace_ok_for_each {A : Type} suffix (l : list A) (body : A → M E unit) :
  (∀ x, trace_ok suffix (body x)) → trace_ok suffix (for_each l body).
Proof.
  intros Hb. induction l as [| x l IH]; simpl.
  - apply trace_ok_ret.
  - apply trace_ok_bind; [apply Hb | by intros _].
Qed.

Lemma trace_ok_for_fold {A S : Type} suffix (l : list A) (body : S → A → M E S) :
  (∀ s x, trace_ok suffix (body s x)) → ∀ s, trace_ok suffix (for_fold l body s).
Proof.
  intros Hb. induction l as [| x l IH]; intros s; simpl.
  - apply trace_ok_ret.
  - apply trace_ok_bind; [apply Hb | intros s'; apply IH].
Qed.

(** [except Exception as e: log(prefix + e); raise] adds one line to what
    follows a refused command. *)
Lemma trace_ok_try_log {A : Type} suffix (body : M E A) (prefix color : string) :
  trace_ok suffix body →
  trace_ok (λ e, suffix e ++ [Log (prefix +:+ e) color])
    (try_except body (λ e, emit (Log (prefix +:+ e) color) ;;; raise e)).
Proof.
  intros Hb w ev w' r. unfold try_except.
  destruct (body w) as [[ev1 w1] [a | e1]] eqn:Hbw.
  - intros [= <- <- <-]. destruct (Hb _ _ _ _ Hbw) as [Hf Hc].
    split; [done |]. intros pre args e post Heq.
    by destruct (Hc _ _ _ _ Heq).
  - unfold bind, emit, raise. simpl. intros [= <- <- <-].
    destruct (Hb _ _ _ _ Hbw) as [Hf Hc].
    split; [by rewrite finished_events_app, Hf |].
    intros pre args e post [(p1 & -> & ->) | (p2 & -> & Heq)]%app_eq_cons_inv.
    + destruct (Hc _ _ _ _ eq_refl) as [-> [= ->]]. done.
    + destruct p2 as [| ? [| ??]]; done.
Qed.

Ltac trace_ok_step :=
  first
    [ apply trace_ok_cmd | apply trace_ok_log | apply trace_ok_progress
    | apply trace_ok_ret | apply trace_ok_get_files | apply trace_ok_fs_op
    | apply trace_ok_raise
    | apply trace_ok_bind; [| intros ?] ].

Lemma trace_ok_process_set g (set_name : string) :
  trace_ok cmd_failed (process_set siril g set_name).
Proof.
  unfold process_set. apply trace_ok_bind; [| intros _; repeat trace_ok_step].
  destruct (use_flats_check g); [| trace_ok_step].
  apply trace_ok_bind; [trace_ok_step | intros fs].
  destruct (FS.path_exists fs _); repeat trace_ok_step.
Qed.

Lemma trace_ok_link_frame (dir : list string) (seq_name : string)
    (k : nat) (fit_file : list string) :
  trace_ok cmd_failed (link_frame (E:=E) dir seq_name k fit_file).
Proof.
  unfold link_frame. apply trace_ok_bind; [trace_ok_step | intros fs].
  apply trace_ok_bind; [| intros _; repeat trace_ok_step].
  destruct (FS.path_exists fs _); trace_ok_step.
Qed.

Lemma trace_ok_link_set g (dir : list string) (seq_name : string)
    (k : nat) (set_name : string) :
  trace_ok cmd_failed (link_set (E:=E) g dir seq_name k set_name).
Proof.
  unfold link_set. apply trace_ok_bind; [trace_ok_step | intros fs].
  destruct (FS.sorted _).
  - repeat trace_ok_step.
  - apply trace_ok_bind; [trace_ok_step | intros _].
    apply trace_ok_for_fold. intros. apply trace_ok_link_frame.
Qed.

Lemma trace_ok_combine_sequences g (seq_name : string) :
  trace_ok cmd_failed (combine_sequences (E:=E) g seq_name).
Proof.
  unfold combine_sequences. apply trace_ok_bind; [| intros k; trace_ok_step].
  apply trace_ok_for_fold. intros. apply trace_ok_link_set.
Qed.

Lemma trace_ok_register_combined g (seq_name : string) :
  trace_ok cmd_failed (register_combined siril g seq_name).
Proof. unfold register_combined. repeat trace_ok_step. Qed.

Lemma trace_ok_stack_combined g (seq_name : string) :
  trace_ok cmd_failed (stack_combined siril g seq_name).
Proof. unfold stack_combined. repeat trace_ok_step. Qed.

Lemma trace_ok_process_workflow g :
  trace_ok workflow_failed (process_workflow siril g).
Proof.
  unfold process_workflow.
  apply (trace_ok_try_log cmd_failed _ "Error in workflow: " "red").
  repeat first
    [ apply trace_ok_process_set | apply trace_ok_combine_sequences
    | apply trace_ok_register_combined | apply trace_ok_stack_combined
    | apply trace_ok_for_each; intros [idx set_name]
    | trace_ok_step ].
Qed.

(** [SirilWorker.run] around a task: one terminal event, the last of the
    trace, and the full tail after a refused command. *)
Lemma run_spec (task : M E (option bool)) w ev w' r :
  trace_ok workflow_failed task →
  run task w = (ev, w', r) →
  (∃ ok msg, finished_events ev = [(ok, msg)] ∧ last ev = Some (Finished ok msg)) ∧
  ∀ pre args e post, ev = pre ++ Call args (Some e) :: post → post = failure_tail e.
Proof.
  intros Htask. unfold run, try_except, bind.
  destruct (task w) as [[ev1 w1] [res | e1]] eqn:Ht;
    destruct (Htask _ _ _ _ Ht) as [Hf Hc].
  - assert (∃ ok msg,
      (match res with
       | None | Some true => emit (E:=E) (Finished true "Task completed successfully")
       | Some false => emit (Finished false "Task completed with errors")
       end) w1 = ([Finished ok msg], w1, Ok tt)) as (ok & msg & Hemit).
    { destruct res as [[] |]; by eexists _, _. }
    rewrite Hemit. intros [= <- <- <-]. split.
    + exists ok, msg. by rewrite finished_events_app, Hf, last_snoc.
    + intros pre args e post [(p1 & -> & ->) | (p2 & -> & Heq)]%app_eq_cons_inv.
      * by destruct (Hc _ _ _ _ eq_refl).
      * destruct p2 as [| ? p2]; simplify_eq/=. by destruct p2.
  - unfold emit. simpl. intros [= <- <- <-]. split.
    + exists false, e1. rewrite finished_events_app, Hf. split; [done |].
      by rewrite last_app.
    + intros pre args e post [(p1 & -> & ->) | (p2 & -> & Heq)]%app_eq_cons_inv.
      * destruct (Hc _ _ _ _ eq_refl) as [-> [= ->]]. done.
      * destruct p2 as [| ? [| ? p2]]; simplify_eq/=. by destruct p2.
Qed.

(** With flats in use and no flats folder, [process_set] logs the warning
    and goes straight to the lights. *)
Lemma process_set_missing_flats g (set_name : string) w ev w' r :
  use_flats_check g = true →
  FS.path_exists (files w) ([working_dir g] // set_name // "flats") = false →
  process_set siril g set_name w = (ev, w', r) →
  ∃ result rest,
    ev = [Log ("Warning: No flats folder in " +:+ set_name) "orange";
          Log ("Processing lights for " +:+ set_name +:+ "...") "blue";
          Log ("$ " +:+ Text.join " "
                 ["cd"; FS.path_str ([working_dir g] // set_name // "lights")]) "blue";
          Call ["cd"; FS.path_str ([working_dir g] // set_name // "lights")] result]
         ++ rest.
Proof.
  intros Hu Hf. unfold process_set. rewrite Hu.
  unfold bind at 1. rewrite bind_get_files, Hf. unfold emit at 1.
  rewrite bind_emit. unfold bind at 1. rewrite cmd_eq.
  destruct (engine_step siril _ w) as [e | w1].
  - intros [= <- <- <-]. by eexists _, _.
  - match goal with |- context [bind ?m ?k w1] => destruct (bind m k w1) as [[ev2 w2] r2] end.
    intros [= <- <- <-]. by eexists _, _.
Qed.

End abort_facts.

(** C7, amended.  In every run of the workflow under [SirilWorker.run]
    there is one terminal event and it ends the trace; when the engine
    refuses a command, what follows it is the failure log of the command,
    of the workflow and of the worker and the terminal failure event with
    the engine's message: no later command, no second attempt.  A missing
    flats folder, with flats in use, only logs a warning: [process_set]
    goes on with the lights, and in a run that returns no flat command has
    been issued and the calibration command carries the master-flat
    argument exactly when a master-flat file is already in the process
    folder. *)
Theorem C7_failure_aborts_the_run {E : Type}
    (siril : option (list string → E → gmap (list string) FS.node →
                     string + E * gmap (list string) FS.node))
    (g : gui) (w : world E) :
  (∀ ev w' r,
     run (process_workflow siril g) w = (ev, w', r) →
     (∃ ok msg, finished_events ev = [(ok, msg)] ∧ last ev = Some (Finished ok msg)) ∧
     ∀ pre args e post,
       ev = pre ++ Call args (Some e) :: post → post = failure_tail e) ∧
  (∀ set_name ev w' r,
     use_flats_check g = true →
     FS.path_exists (files w) ([working_dir g] // set_name // "flats") = false →
     process_set siril g set_name w = (ev, w', r) →
     (∃ result rest,
        ev = [Log ("Warning: No flats folder in " +:+ set_name) "orange";
              Log ("Processing lights for " +:+ set_name +:+ "...") "blue";
              Log ("$ " +:+ Text.join " "
                     ["cd"; FS.path_str ([working_dir g] // set_name // "lights")])
                  "blue";
              Call ["cd"; FS.path_str ([working_dir g] // set_name // "lights")] result]
             ++ rest) ∧
     (r = Ok tt →
      ∃ w1 calib,
        exec siril (light_prelude g set_name) w = inr w1 ∧
        calls ev = light_prelude g set_name ++ [calib; ["cd"; working_dir g]] ∧
        ("-flat=pp_flat_stacked" ∈ calib ↔
           FS.path_exists (files w1) (master_flat g set_name) = true))).
Proof.
  split.
  - intros ev w' r Hrun.
    apply (run_spec (process_workflow siril g) w ev w' r); [| done].
    apply trace_ok_process_workflow.
  - intros set_name ev w' r Hu Hf Hrun. split.
    + by apply (process_set_missing_flats siril g set_name w ev w' r).
    + intros ->.
      destruct (process_set_ok siril g set_name w ev w' Hrun) as (w1 & Hb & _ & Hc & _).
      rewrite Hu, Hf in Hb, Hc. simpl in Hb, Hc.
      exists w1, (calibrate_light_args g (files w1) set_name).
      split; [done |]. split; [done |].
      rewrite calibrate_light_args_flat, Hu.
      split; [by intros [_ Hm] | by intros Hm; split].
Qed.

(** A run in which the engine refuses to register: nothing is issued
    after the refused command. *)
Example run_aborts_at_register :
  let ev := (run (process_workflow ex_siril_no_register ex_gui_detected) ex_world).1.1 in
  last (calls ev) = Some ["register"; "m31"] ∧
  drop (length ev - 5) ev =
    Call ["register"; "m31"] (Some "register failed") :: failure_tail "register failed".
Proof. split; vm_compute; reflexivity. Qed.

(** * The scan of [detect_sets] always ends *)

Section detect_total.

Implicit Types (fs : gmap (list string) FS.node) (wp : list string).

Lemma first_absent_below fs wp (k : nat) :
  (∀ j, 1 ≤ j ≤ k → FS.path_exists fs (wp // set_name j) = true) ∨
  ∃ n, n < k ∧
       (∀ j, 1 ≤ j ≤ n → FS.path_exists fs (wp // set_name j) = true) ∧
       FS.path_exists fs (wp // set_name (S n)) = false.
Proof.
  induction k as [| k [IH | (n & Hn & Hex & Hab)]].
  - left. intros j Hj. lia.
  - destruct (FS.path_exists fs (wp // set_name (S k))) eqn:Hk.
    + left. intros j Hj.
      destruct (decide (j = S k)) as [-> |]; [done | apply IH; lia].
    + right. exists k. split; [lia | done].
  - right. exists n. split; [lia | done].
Qed.

(** Some set folder is absent, and the first such comes after at most as
    many folders as the file system has entries. *)
Lemma first_absent fs wp :
  ∃ n, n ≤ size fs ∧
       (∀ j, 1 ≤ j ≤ n → FS.path_exists fs (wp // set_name j) = true) ∧
       FS.path_exists fs (wp // set_name (S n)) = false.
Proof.
  destruct (first_absent_below fs wp (S (size fs))) as [Hall | (n & Hn & Hex & Hab)].
  - assert (S (size fs) ≤ size fs); [| lia].
    apply (existing_sets_bound fs wp). intros j Hj. apply Hall. lia.
  - exists n. split; [lia | done].
Qed.

Lemma detect_log_line_is_log fs wp (i : nat) : is_log (detect_log_line fs wp i).
Proof. unfold detect_log_line. by destruct (FS.path_exists _ _). Qed.

End detect_total.

Lemma detect_sets_returns (g : gui) (fs : gmap (list string) FS.node) :
  ∃ g' logged,
    detect_sets g fs = Some (g', logged) ∧
    length logged ≤ size fs ∧
    Forall is_log logged.
Proof.
  destruct (working_dir g) as [| c wd] eqn:Hwd.
  - exists g, []. unfold detect_sets. rewrite Hwd. split; [done |]. split; [simpl; lia | done].
  - destruct (first_absent fs [working_dir g]) as (n & Hn & Hex & Hab).
    destruct (detect_sets_spec g fs n) as (g' & Hrun & _); [by rewrite Hwd | done | done |].
    exists g', (detect_log_line fs [working_dir g] <$> seq 1 n).
    split; [done |]. split.
    + by rewrite length_fmap, length_seq.
    + apply Forall_fmap, Forall_forall. intros i _. apply detect_log_line_is_log.
Qed.

Lemma detect_sets_detected (g g' : gui) (fs : gmap (list string) FS.node)
    (logged : list event) :
  working_dir g ≠ EmptyString →
  detect_sets g fs = Some (g', logged) →
  (∀ s, s ∈ detected_sets g' →
     ∃ i, 1 ≤ i ∧ s = set_name i ∧
          FS.path_exists fs ([working_dir g] // s // "lights") = true ∧
          ∀ j, 1 ≤ j ≤ i → FS.path_exists fs ([working_dir g] // set_name j) = true) ∧
  NoDup (detected_sets g') ∧
  (start_button_enabled g' = true ↔ detected_sets g' ≠ []) ∧
  working_dir g' = working_dir g ∧
  preset_data_of g' = preset_data_of g.
Proof.
  intros Hwd Hrun.
  destruct (first_absent fs [working_dir g]) as (n & Hn & Hex & Hab).
  destruct (detect_sets_spec g fs n Hwd Hex Hab) as (g1 & Hrun1 & Hdet & Hwd1).
  rewrite Hrun in Hrun1. injection Hrun1 as <- _.
  split; [| split; [| split; [| split; [done |]]]].
  - intros s. rewrite Hdet.
    intros (i & -> & Hi)%list_elem_of_fmap.
    apply list_elem_of_filter in Hi as [Hl Hi%elem_of_seq].
    exists i. split; [lia |]. split; [done |]. split; [done |].
    intros j Hj. apply Hex. lia.
  - rewrite Hdet. apply NoDup_fmap_2_strong.
    + intros i j _ _. apply set_name_inj.
    + apply NoDup_filter, NoDup_seq.
  - clear Hdet Hwd1. unfold detect_sets in Hrun.
    destruct (working_dir g); [done |].
    destruct (detect_loop _ _ _ _ _ _) as [[detected lg] |]; [| done].
    destruct detected; injection Hrun as <- _; simpl; split; done.
  - clear Hdet Hwd1. unfold detect_sets in Hrun.
    destruct (working_dir g); [done |].
    destruct (detect_loop _ _ _ _ _ _) as [[detected lg] |]; [| done].
    destruct detected; injection Hrun as <- _; done.
Qed.

(** X1.  [detect_sets] returns for every window and every file system: its
    loop never runs out of rounds, because a finite file system cannot hold
    all of [set1], [set2], ...  It writes at most one line per entry of the
    file system, and only log lines. *)
Theorem detect_sets_always_returns (g : gui) (fs : gmap (list string) FS.node) :
  ∃ g' logged,
    detect_sets g fs = Some (g', logged) ∧
    length logged ≤ size fs ∧
    Forall is_log logged.
Proof. apply detect_sets_returns. Qed.

(** X2.  What [detect_sets] reports can be relied on: every detected name
    is [seti] for some [i ≥ 1] whose folder has a [lights] subfolder and
    all of whose predecessors [set1 .. seti] exist; no name is listed
    twice; the start button is enabled exactly when a set was detected;
    and the eight processing options are left as they were. *)
Theorem detect_sets_sound (g g' : gui) (fs : gmap (list string) FS.node)
    (logged : list event) :
  working_dir g ≠ EmptyString →
  detect_sets g fs = Some (g', logged) →
  (∀ s, s ∈ detected_sets g' →
     ∃ i, 1 ≤ i ∧ s = set_name i ∧
          FS.path_exists fs ([working_dir g] // s // "lights") = true ∧
          ∀ j, 1 ≤ j ≤ i → FS.path_exists fs ([working_dir g] // set_name j) = true) ∧
  NoDup (detected_sets g') ∧
  (start_button_enabled g' = true ↔ detected_sets g' ≠ []) ∧
  working_dir g' = working_dir g ∧
  preset_data_of g' = preset_data_of g.
Proof. apply detect_sets_detected. Qed.

Lemma detect_sets_sound_witness :
  let g' :=
    with_detected ex_gui ["set1"; "set2"] "Detected sets: set1, set2 (2 total)" true in
  (∀ s, s ∈ detected_sets g' →
     ∃ i, 1 ≤ i ∧ s = set_name i ∧
          FS.path_exists ex_files_gap ([working_dir ex_gui] // s // "lights") = true ∧
          ∀ j, 1 ≤ j ≤ i →
               FS.path_exists ex_files_gap ([working_dir ex_gui] // set_name j) = true) ∧
  NoDup (detected_sets g') ∧
  (start_button_enabled g' = true ↔ detected_sets g' ≠ []) ∧
  working_dir g' = working_dir ex_gui ∧
  preset_data_of g' = preset_data_of ex_gui.
Proof.
  apply (detect_sets_sound ex_gui _ ex_files_gap
           (detect_log_line ex_files_gap [working_dir ex_gui] <$> seq 1 2)).
  - discriminate.
  - vm_compute. reflexivity.
Defined.

(** * The window's slots *)

Section window_facts.

Lemma write_log_app (l1 l2 : list event) (win : window) :
  write_log (l1 ++ l2) win = write_log l2 (write_log l1 win).
Proof. apply foldl_app. Qed.

(** Writing to the log pane leaves the rest of the window alone. *)
Lemma write_log_frame (logged : list event) (win : window) :
  widgets (write_log logged win) = widgets win ∧
  dir_label (write_log logged win) = dir_label win ∧
  progress_bar (write_log logged win) = progress_bar win ∧
  log_text win `prefix_of` log_text (write_log logged win).
Proof.
  revert win. induction logged as [| e logged IH]; intros win; [done |].
  change (write_log (e :: logged) win) with
    (write_log logged
       (match e with Log message color => log message color win | _ => win end)).
  destruct (IH (match e with Log message color => log message color win | _ => win end))
    as (-> & -> & -> & Hp).
  destruct e; try done.
  repeat split; try done.
  etrans; [| exact Hp]. by apply prefix_app_r.
Qed.

End window_facts.

(** X3.  Choosing a directory always comes back with the directory taken
    over as working directory and shown in the label; the start button is
    enabled exactly when no warning was shown, and the one warning there
    can be is "No Sets Found", shown exactly when no set was detected.  The
    progress bar is untouched and the log only grows. *)
Theorem select_directory_outcome (directory : string) (win : window)
    (fs : gmap (list string) FS.node) :
  directory ≠ EmptyString →
  ∃ win' boxes,
    select_directory directory win fs = Some (win', boxes) ∧
    working_dir (widgets win') = directory ∧
    dir_label win' = directory ∧
    (boxes = [] ∧ start_button_enabled (widgets win') = true ∧
       detected_sets (widgets win') ≠ []
     ∨ boxes = [no_sets_found] ∧ start_button_enabled (widgets win') = false ∧
       detected_sets (widgets win') = []) ∧
    progress_bar win' = progress_bar win ∧
    log_text win `prefix_of` log_text win'.
Proof.
  intros Hd. unfold select_directory.
  destruct directory as [| c d] eqn:Hdir; [done |]. rewrite <- Hdir in *.
  destruct (detect_sets_returns (set_working_dir directory (widgets win)) fs)
    as (g & logged & Hrun & _).
  rewrite Hrun.
  destruct (detect_sets_detected (set_working_dir directory (widgets win)) g fs logged
              Hd Hrun) as (_ & _ & Hb & Hw & _).
  simpl in Hw.
  destruct (write_log_frame logged
              {| widgets := g; dir_label := directory;
                 progress_bar := progress_bar win; log_text := log_text win |})
    as (Hw1 & Hw2 & Hw3 & Hw4).
  simpl in Hw1, Hw2, Hw3, Hw4.
  destruct (detected_sets g) as [| s l] eqn:Hdet.
  - eexists _, _. split; [done |]. rewrite Hw1, Hw2, Hw3, Hw, Hdet.
    repeat split; try done. right. repeat split.
    destruct (start_button_enabled g); [| done]. by destruct (proj1 Hb).
  - eexists _, _. split; [done |]. simpl. rewrite Hw1, Hw2, Hw3, Hw, Hdet.
    repeat split; try done.
    + left. repeat split; [| done]. by apply Hb.
    + etrans; [exact Hw4 |]. by apply prefix_app_r.
Qed.

Lemma select_directory_outcome_witness :
  ∃ win' boxes,
    select_directory "/astro" ex_window ex_files_gap = Some (win', boxes) ∧
    working_dir (widgets win') = "/astro" ∧
    dir_label win' = "/astro" ∧
    (boxes = [] ∧ start_button_enabled (widgets win') = true ∧
       detected_sets (widgets win') ≠ []
     ∨ boxes = [no_sets_found] ∧ start_button_enabled (widgets win') = false ∧
       detected_sets (widgets win') = []) ∧
    progress_bar win' = progress_bar ex_window ∧
    log_text ex_window `prefix_of` log_text win'.
Proof. apply (select_directory_outcome "/astro" ex_window ex_files_gap). discriminate. Defined.

(** ** White space *)

Lemma isspace2_lead (c d : ascii) :
  Text.isspace2 c d = true → Text.isspace c = false.
Proof.
  unfold Text.isspace2, Text.isspace. cbn zeta.
  intros [Hc%Nat.eqb_eq _]%andb_prop. by rewrite Hc.
Qed.

Lemma isspace3_lead (c d e : ascii) :
  Text.isspace3 c d e = true → Text.isspace c = false ∧ Text.isspace2 c d = false.
Proof.
  unfold Text.isspace3, Text.isspace2, Text.isspace. cbn zeta.
  intros H.
  assert (Ascii.nat_of_ascii c = 225 ∨ Ascii.nat_of_ascii c = 226 ∨
          Ascii.nat_of_ascii c = 227) as [Hc | [Hc | Hc]].
  { repeat (apply orb_prop in H as [H | H]);
      repeat (apply andb_prop in H as [H _]); apply Nat.eqb_eq in H; auto. }
  all: by rewrite Hc.
Qed.

(** Nothing is left of blank text. *)
Lemma lstrip_blank (s : string) : blank s → Text.lstrip s = EmptyString.
Proof.
  induction 1 as [| c rest Hc _ IH | c d rest Hcd _ IH | c d e rest Hcde _ IH].
  - done.
  - simpl. by rewrite Hc.
  - pose proof (isspace2_lead c d Hcd) as Hc.
    change (Text.lstrip (String c (String d rest))) with
      (if Text.isspace c then Text.lstrip (String d rest)
       else if Text.isspace2 c d then Text.lstrip rest
       else match rest with
            | String e s3 =>
                if Text.isspace3 c d e then Text.lstrip s3
                else String c (String d rest)
            | EmptyString => String c (String d rest)
            end).
    by rewrite Hc, Hcd.
  - destruct (isspace3_lead c d e Hcde) as [Hc Hcd].
    change (Text.lstrip (String c (String d (String e rest)))) with
      (if Text.isspace c then Text.lstrip (String d (String e rest))
       else if Text.isspace2 c d then Text.lstrip (String e rest)
       else if Text.isspace3 c d e then Text.lstrip rest
       else String c (String d (String e rest))).
    by rewrite Hc, Hcd, Hcde.
Qed.

Lemma strip_blank (s : string) : blank s → Text.strip s = EmptyString.
Proof. intros H. unfold Text.strip. by rewrite (lstrip_blank s H). Qed.

Lemma ex_blank_name_blank : blank ex_blank_name.
Proof.
  apply blank_space2; [reflexivity |].
  apply blank_space3; [reflexivity |].
  apply blank_empty.
Qed.

Local Ltac guard_refused :=
  simpl; split; [split; [done | by intros (? & ? & ? & ? & ?)] |];
  split; [by eexists | done].

Lemma start_processing_cases (sirilpy_available reply_yes : bool) (win : window) :
  let result := start_processing sirilpy_available reply_yes win in
  let g := widgets win in
  (result.2 = true ↔
     working_dir g ≠ EmptyString ∧ detected_sets g ≠ [] ∧
     sirilpy_available = true ∧ Text.strip (seq_name_edit g) ≠ EmptyString ∧
     reply_yes = true) ∧
  (∃ box, result.1.2 = [box]) ∧
  (result.2 = false → result.1.1 = win) ∧
  (result.2 = true →
     widgets result.1.1 = start_button_setEnabled false g ∧
     progress_bar result.1.1 = 0 ∧
     log_text result.1.1 = log_text win ∧
     dir_label result.1.1 = dir_label win).
Proof.
  unfold start_processing. cbn zeta.
  destruct (working_dir (widgets win)) as [| c wd]; [guard_refused |].
  destruct (detected_sets (widgets win)) as [| s l]; [guard_refused |].
  destruct sirilpy_available; [| guard_refused].
  destruct (Text.strip (seq_name_edit (widgets win))) as [| c' nm]; [guard_refused |].
  destruct reply_yes; [| guard_refused].
  simpl. split; [done |]. split; [by eexists |]. done.
Qed.

(** X4.  [start_processing] starts the worker exactly when a working
    directory is set, at least one set is detected, [sirilpy] could be
    imported, the stripped sequence name is not empty and the user
    confirmed.  A name of white space only, Unicode white space included,
    never starts it: when the first three guards pass, the one box shown is
    the warning "No Sequence Name".  In every case one message box is
    shown; when the worker is not started the window is as it was; when it
    is, the start button is disabled and the bar reset. *)
Theorem start_processing_guards (sirilpy_available reply_yes : bool) (win : window) :
  let result := start_processing sirilpy_available reply_yes win in
  let g := widgets win in
  (result.2 = true ↔
     working_dir g ≠ EmptyString ∧ detected_sets g ≠ [] ∧
     sirilpy_available = true ∧ Text.strip (seq_name_edit g) ≠ EmptyString ∧
     reply_yes = true) ∧
  (blank (seq_name_edit g) →
     result.2 = false ∧
     (working_dir g ≠ EmptyString → detected_sets g ≠ [] → sirilpy_available = true →
      result.1.2 =
        [MessageBox "warning" "No Sequence Name" "Please enter a sequence name."])) ∧
  (∃ box, result.1.2 = [box]) ∧
  (result.2 = false → result.1.1 = win) ∧
  (result.2 = true →
     widgets result.1.1 = start_button_setEnabled false g ∧
     progress_bar result.1.1 = 0 ∧
     log_text result.1.1 = log_text win ∧
     dir_label result.1.1 = dir_label win).
Proof.
  destruct (start_processing_cases sirilpy_available reply_yes win)
    as (Hstart & Hbox & Hrefused & Hstarted).
  cbn zeta. split; [done |]. split; [| done].
  intros Hblank%strip_blank. split.
  - destruct (start_processing sirilpy_available reply_yes win).2 eqn:Hr; [| done].
    by destruct (proj1 Hstart eq_refl) as (_ & _ & _ & Hname & _).
  - intros Hdir Hsets ->. unfold start_processing. cbn zeta.
    destruct (working_dir (widgets win)); [done |].
    destruct (detected_sets (widgets win)); [done |].
    simpl. by rewrite Hblank.
Qed.

(** A name of a NO-BREAK SPACE and an IDEOGRAPHIC SPACE is refused. *)
Example start_processing_blank_name :
  start_processing true true ex_window_blank_name =
    (ex_window_blank_name,
     [MessageBox "warning" "No Sequence Name" "Please enter a sequence name."],
     false).
Proof. vm_compute. reflexivity. Qed.

(** * Settings and presets *)

Section settings_facts.

Implicit Types (g : gui) (preset_data : gmap string jvalue).

Lemma run_setters_invariant (P : gui → Prop) (steps : list (gui → string + gui)) g :
  Forall (λ step, ∀ g1 g2, P g1 → step g1 = inr g2 → P g2) steps →
  P g → P (run_setters steps g).1.
Proof.
  intros Hsteps. revert g. induction Hsteps as [| step steps Hstep _ IH]; intros g Hg.
  - done.
  - simpl. destruct (step g) as [e | g1] eqn:Hs; [done |]. by apply IH, (Hstep g).
Qed.

Lemma clamp_in_bias_range (t : Z) : in_range bias_range (clamp 0 1000 t).
Proof. unfold in_range. simpl. by apply clamp_bounds. Qed.

Lemma clamp_in_sigma_range (t : Z) : in_range sigma_range (clamp 1 100 t).
Proof. unfold in_range. simpl. by apply clamp_bounds. Qed.

End settings_facts.

(** X5.  Whatever the chosen file holds, and whether loading succeeds or
    stops at an error, [load_preset] leaves the three spin boxes inside
    their ranges and does not touch the working directory, the detected
    sets, their label or the start button. *)
Theorem load_preset_keeps_ranges (default_name : string) (g : gui)
    (file_path : string) (store : gmap string preset_file) :
  spins_in_range g →
  spins_in_range (load_preset default_name g file_path store).1 ∧
  directory_state (load_preset default_name g file_path store).1 = directory_state g.
Proof.
  intros Hg. unfold load_preset.
  destruct file_path as [| c p]; [by split |].
  destruct (store !! String c p) as [[e | preset_data] |]; [by split | | by split].
  assert (spins_in_range (run_setters (apply_preset default_name preset_data) g).1 ∧
          directory_state (run_setters (apply_preset default_name preset_data) g).1
            = directory_state g) as Hinv.
  { apply (run_setters_invariant
             (λ g1, spins_in_range g1 ∧ directory_state g1 = directory_state g));
      [| done].
    unfold apply_preset.
    repeat apply Forall_cons_2; [.. | apply Forall_nil_2];
      intros g1 g2 [(Hb & Hh & Hl) Hd] Hstep;
      match type of Hstep with
      | _ (dict_get ?d ?k ?f) _ = _ => destruct (dict_get d k f)
      end; try discriminate;
      injection Hstep as <-; (split; [| exact Hd]);
      unfold spins_in_range; cbn [bias_coeff_spin sigma_high_spin sigma_low_spin];
      (split; [| split]);
      first [assumption | apply clamp_in_bias_range | apply clamp_in_sigma_range]. }
  by destruct (run_setters _ g) as [g1 [e |]].
Qed.

Lemma load_preset_keeps_ranges_witness :
  spins_in_range (load_preset "20261104_seq" ex_gui "night.json" ex_preset_store).1 ∧
  directory_state (load_preset "20261104_seq" ex_gui "night.json" ex_preset_store).1
    = directory_state ex_gui.
Proof.
  apply (load_preset_keeps_ranges "20261104_seq" ex_gui "night.json" ex_preset_store).
  unfold spins_in_range, in_range. simpl. lia.
Defined.

(** X6.  Loading is not all-or-nothing: the setters run in order and the
    first one that is refused ends the load.  A file with a sequence name
    and a bias coefficient that is text changes the sequence name, changes
    nothing else, and shows the "Load Error" box instead of the log line. *)
Theorem load_preset_stops_midway (default_name : string) (g : gui)
    (file_path : string) (store : gmap string preset_file)
    (preset_data : gmap string jvalue) (name coefficient : string) :
  file_path ≠ EmptyString →
  store !! file_path = Some (Object preset_data) →
  preset_data !! "sequence_name" = Some (JStr name) →
  preset_data !! "bias_coefficient" = Some (JStr coefficient) →
  ∃ e,
    load_preset default_name g file_path store =
      (Gui (working_dir g) (detected_sets g) (sets_label g) (start_button_enabled g)
         name (bias_coeff_spin g) (use_flats_check g) (debayer_check g)
         (sigma_high_spin g) (sigma_low_spin g) (normalize_check g) (rgb_equal_check g),
       [MessageBox "warning" "Load Error" ("Failed to load preset: " +:+ e)]).
Proof.
  intros Hp Hs Hn Hb. unfold load_preset.
  destruct file_path as [| c p]; [done |]. rewrite Hs.
  unfold apply_preset, dict_get. rewrite Hn, Hb. simpl.
  by eexists.
Qed.

Lemma load_preset_stops_midway_witness :
  ∃ e,
    load_preset "20261104_seq" ex_gui "bad.json"
      {[ "bad.json" :=
           Object (<[ "sequence_name" := JStr "m42" ]>
                     {[ "bias_coefficient" := JStr "eight" ]}) ]} =
      (Gui (working_dir ex_gui) (detected_sets ex_gui) (sets_label ex_gui)
         (start_button_enabled ex_gui) "m42" (bias_coeff_spin ex_gui)
         (use_flats_check ex_gui) (debayer_check ex_gui) (sigma_high_spin ex_gui)
         (sigma_low_spin ex_gui) (normalize_check ex_gui) (rgb_equal_check ex_gui),
       [MessageBox "warning" "Load Error" ("Failed to load preset: " +:+ e)]).
Proof.
  apply (load_preset_stops_midway "20261104_seq" ex_gui "bad.json" _
           (<[ "sequence_name" := JStr "m42" ]> {[ "bias_coefficient" := JStr "eight" ]})
           "m42" "eight").
  - discriminate.
  - reflexivity.
  - reflexivity.
  - reflexivity.
Defined.

Lemma settings_saved_then_loaded (g g0 : gui) (config : option preset_file) :
  in_range bias_range (bias_coeff_spin g) →
  load_settings (save_settings g true config) g0 =
    Gui (working_dir g0) (detected_sets g0) (sets_label g0) (start_button_enabled g0)
      (seq_name_edit g0) (bias_coeff_spin g) (use_flats_check g0) (debayer_check g0)
      (sigma_high_spin g0) (sigma_low_spin g0) (normalize_check g0) (rgb_equal_check g0).
Proof.
  intros Hb. unfold save_settings, load_settings, settings_of.
  assert ((list_to_map
             [("last_directory",
               match working_dir g with
               | EmptyString => JOther
               | String _ _ => JStr (working_dir g)
               end);
              ("bias_coefficient", JNum (bias_coeff_spin g))] : gmap string jvalue)
            !! "bias_coefficient" = Some (JNum (bias_coeff_spin g))) as Hl.
  { simpl. rewrite lookup_insert_ne by done. by rewrite lookup_insert_eq. }
  destruct (working_dir g); rewrite Hl; simpl;
    by rewrite (clamp_in_range bias_range).
Qed.

(** X7.  Closing the window and opening it again brings back the bias
    coefficient and nothing else: [closeEvent] saves the working directory
    too, but [load_settings] never reads it, so the directory and every
    other widget are as the new window had them. *)
Theorem settings_round_trip (win : window) (g0 : gui) (config : option preset_file) :
  in_range bias_range (bias_coeff_spin (widgets win)) →
  load_settings (closeEvent win true config) g0 =
    Gui (working_dir g0) (detected_sets g0) (sets_label g0) (start_button_enabled g0)
      (seq_name_edit g0) (bias_coeff_spin (widgets win)) (use_flats_check g0)
      (debayer_check g0) (sigma_high_spin g0) (sigma_low_spin g0) (normalize_check g0)
      (rgb_equal_check g0).
Proof. apply settings_saved_then_loaded. Qed.

Lemma settings_round_trip_witness :
  load_settings (closeEvent (with_widgets ex_window ex_gui_bias_85) true None)
    (init_ui "20261104_seq") =
    Gui EmptyString [] "No sets detected" false "20261104_seq" 85 true true 30 30 true true.
Proof.
  apply (settings_round_trip (with_widgets ex_window ex_gui_bias_85)
           (init_ui "20261104_seq") None).
  unfold in_range. simpl. lia.
Defined.

Lemma load_settings_cases (config : option preset_file) (g : gui) :
  ∃ coefficient,
    load_settings config g =
      Gui (working_dir g) (detected_sets g) (sets_label g) (start_button_enabled g)
        (seq_name_edit g) coefficient (use_flats_check g) (debayer_check g)
        (sigma_high_spin g) (sigma_low_spin g) (normalize_check g) (rgb_equal_check g) ∧
    (coefficient = bias_coeff_spin g ∨ in_range bias_range coefficient).
Proof.
  unfold load_settings.
  assert (∃ coefficient,
            g = Gui (working_dir g) (detected_sets g) (sets_label g)
                  (start_button_enabled g) (seq_name_edit g) coefficient
                  (use_flats_check g) (debayer_check g) (sigma_high_spin g)
                  (sigma_low_spin g) (normalize_check g) (rgb_equal_check g) ∧
            (coefficient = bias_coeff_spin g ∨ in_range bias_range coefficient))
    as Hsame.
  { exists (bias_coeff_spin g). split; [by destruct g | by left]. }
  destruct config as [[e | settings] |]; [done | | done].
  destruct (settings !! "bias_coefficient") as [[s | t | b |] |]; try done.
  exists (clamp 0 1000 t). split; [done |]. right. apply clamp_in_bias_range.
Qed.

(** X8.  [load_settings] cannot fail and can change one widget only: for
    any content of the configuration file, missing, unreadable, without
    the key or with a value of the wrong type, the window is as before
    except possibly for the bias coefficient, and a coefficient it sets
    lies within 0 to 100. *)
Theorem load_settings_only_bias (config : option preset_file) (g : gui) :
  ∃ coefficient,
    load_settings config g =
      Gui (working_dir g) (detected_sets g) (sets_label g) (start_button_enabled g)
        (seq_name_edit g) coefficient (use_flats_check g) (debayer_check g)
        (sigma_high_spin g) (sigma_low_spin g) (normalize_check g) (rgb_equal_check g) ∧
    (coefficient = bias_coeff_spin g ∨ in_range bias_range coefficient).
Proof. apply load_settings_cases. Qed.

(** * Link names *)

Lemma link_name_injective (g : gui) (seq_name : string) (k1 k2 : nat) :
  link_name g seq_name k1 = link_name g seq_name k2 → k1 = k2.
Proof.
  unfold link_name. intros H%div_inj.
  apply String.app_inj, String.app_inj in H.
  by apply fmt_05d_inj, (string_app_inv_tail _ _ ".fit").
Qed.

(** X9.  Two frames never get the same link name: the five-digit padding of
    the counter is one-to-one, also beyond 99999, where the number takes
    more than five digits. *)
Theorem link_name_inj (g : gui) (seq_name : string) (k1 k2 : nat) :
  link_name g seq_name k1 = link_name g seq_name k2 → k1 = k2.
Proof. apply link_name_injective. Qed.

Lemma link_name_inj_witness : 12 = 12.
Proof. apply (link_name_inj ex_gui "m31" 12 12). reflexivity. Defined.

(** * What a run emits *)

Section emits_facts.

Context {E : Type}.
Variable siril :
  option (list string → E → gmap (list string) FS.node →
          string + E * gmap (list string) FS.node).
Variable P : event → Prop.

Lemma emits_only_ret {A : Type} (a : A) : emits_only P (ret (E:=E) a).
Proof. intros w ev w' r [= <- <- <-]. done. Qed.

Lemma emits_only_raise {A : Type} (e : string) : emits_only P (raise (E:=E) (A:=A) e).
Proof. intros w ev w' r [= <- <- <-]. done. Qed.

Lemma emits_only_get_files : emits_only P (get_files (E:=E)).
Proof. intros w ev w' r [= <- <- <-]. done. Qed.

Lemma emits_only_fs_op op : emits_only P (fs_op (E:=E) op).
Proof.
  intros w ev w' r. unfold fs_op.
  destruct (op (files w)); intros [= <- <- <-]; done.
Qed.

Lemma emits_only_emit (e : event) : P e → emits_only P (emit (E:=E) e).
Proof. intros He w ev w' r [= <- <- <-]. by apply Forall_singleton. Qed.

Lemma emits_only_bind {A B : Type} (m : M E A) (k : A → M E B) :
  emits_only P m → (∀ a, emits_only P (k a)) → emits_only P (bind m k).
Proof.
  intros Hm Hk w ev w' r. unfold bind.
  destruct (m w) as [[ev1 w1] [a | e]] eqn:Hmw.
  - destruct (k a w1) as [[ev2 w2] r2] eqn:Hkw. intros [= <- <- <-].
    apply Forall_app. split; [by eapply Hm | by eapply Hk].
  - intros [= <- <- <-]. by eapply Hm.
Qed.

Lemma emits_only_try_except {A : Type} (body : M E A) (handler : string → M E A) :
  emits_only P body → (∀ e, emits_only P (handler e)) →
  emits_only P (try_except body handler).
Proof.
  intros Hb Hh w ev w' r. unfold try_except.
  destruct (body w) as [[ev1 w1] [a | e]] eqn:Hbw.
  - intros [= <- <- <-]. by eapply Hb.
  - destruct (handler e w1) as [[ev2 w2] r2] eqn:Hhw. intros [= <- <- <-].
    apply Forall_app. split; [by eapply Hb | by eapply Hh].
Qed.

Lemma emits_only_for_each {A : Type} (l : list A) (body : A → M E unit) :
  (∀ x, x ∈ l → emits_only P (body x)) → emits_only P (for_each l body).
Proof.
  induction l as [| x l IH]; intros Hb; simpl.
  - apply emits_only_ret.
  - apply emits_only_bind; [apply Hb; by left | intros _].
    apply IH. intros y Hy. apply Hb. by right.
Qed.

Lemma emits_only_for_fold {A S : Type} (l : list A) (body : S → A → M E S) :
  (∀ s x, emits_only P (body s x)) → ∀ s, emits_only P (for_fold l body s).
Proof.
  intros Hb. induction l as [| x l IH]; intros s; simpl.
  - apply emits_only_ret.
  - apply emits_only_bind; [apply Hb | intros s'; apply IH].
Qed.

(** The lines the stages log are blue, green, orange or red. *)
Hypothesis P_log :
  ∀ message color : string, color ∈ ["blue"; "green"; "orange"; "red"] → P (Log message color).
Hypothesis P_call : ∀ args failure, P (Call args failure).

Lemma emits_only_log (message color : string) :
  color ∈ ["blue"; "green"; "orange"; "red"] → emits_only P (emit (E:=E) (Log message color)).
Proof. intros Hc. by apply emits_only_emit, P_log. Qed.

Lemma emits_only_cmd args : emits_only P (cmd siril args).
Proof.
  intros w ev w' r. rewrite cmd_eq.
  destruct (engine_step siril args w); intros [= <- <- <-];
    repeat apply Forall_cons_2; try apply Forall_nil_2;
    first [apply P_call | apply P_log; by repeat constructor].
Qed.

Ltac emits_step :=
  first
    [ apply emits_only_cmd
    | apply emits_only_log; by repeat constructor
    | apply emits_only_ret | apply emits_only_get_files | apply emits_only_fs_op
    | apply emits_only_raise
    | apply emits_only_bind; [| intros ?] ].

Lemma emits_only_process_set g (set_name : string) :
  emits_only P (process_set siril g set_name).
Proof.
  unfold process_set. apply emits_only_bind; [| intros _; repeat emits_step].
  destruct (use_flats_check g); [| emits_step].
  apply emits_only_bind; [emits_step | intros fs].
  destruct (FS.path_exists fs _); repeat emits_step.
Qed.

Lemma emits_only_register_combined g (seq_name : string) :
  emits_only P (register_combined siril g seq_name).
Proof. unfold register_combined. repeat emits_step. Qed.

Lemma emits_only_stack_combined g (seq_name : string) :
  emits_only P (stack_combined siril g seq_name).
Proof. unfold stack_combined. repeat emits_step. Qed.

End emits_facts.

Section combine_emits.

Context {E : Type}.
Variable P : event → Prop.
Hypothesis P_log :
  ∀ message color : string, color ∈ ["blue"; "green"; "orange"; "red"] → P (Log message color).

Lemma emits_only_link_frame (dir : list string) (seq_name : string)
    (k : nat) (fit_file : list string) :
  emits_only P (link_frame (E:=E) dir seq_name k fit_file).
Proof.
  unfold link_frame. apply emits_only_bind; [apply emits_only_get_files | intros fs].
  apply emits_only_bind.
  - destruct (FS.path_exists fs _); [apply emits_only_fs_op | apply emits_only_ret].
  - intros _. apply emits_only_bind; [apply emits_only_fs_op | intros _; apply emits_only_ret].
Qed.

Lemma emits_only_link_set g (dir : list string) (seq_name : string)
    (k : nat) (set_name : string) :
  emits_only P (link_set (E:=E) g dir seq_name k set_name).
Proof.
  unfold link_set. apply emits_only_bind; [apply emits_only_get_files | intros fs].
  destruct (FS.sorted _).
  - apply emits_only_bind; [| intros _; apply emits_only_ret].
    apply emits_only_emit, P_log. by repeat constructor.
  - apply emits_only_bind; [apply emits_only_emit, P_log; by repeat constructor | intros _].
    apply emits_only_for_fold. intros. apply emits_only_link_frame.
Qed.

Lemma emits_only_combine_sequences g (seq_name : string) :
  emits_only P (combine_sequences (E:=E) g seq_name).
Proof.
  unfold combine_sequences. apply emits_only_bind.
  - apply emits_only_for_fold. intros. apply emits_only_link_set.
  - intros k. apply emits_only_emit, P_log. by repeat constructor.
Qed.

End combine_emits.

Section progress_list.

Lemma progress_step_le (n idx : nat) :
  idx < n → (idx + 1) * (if 0 <? n then 60 / n else 0) ≤ 60.
Proof.
  intros Hi. destruct (Nat.ltb_spec 0 n) as [Hn | Hn]; [| lia].
  transitivity (n * (60 / n)); [| apply Nat.Div0.mul_div_le].
  apply Nat.mul_le_mono_r. lia.
Qed.

Lemma expected_progress_bounds (n p : nat) : p ∈ expected_progress n → 5 ≤ p ≤ 100.
Proof.
  unfold expected_progress.
  intros [Hp | [Hp | Hp]%elem_of_app]%elem_of_app.
  - apply list_elem_of_singleton in Hp as ->. lia.
  - apply list_elem_of_fmap in Hp as (idx & -> & Hi%elem_of_seq).
    pose proof (progress_step_le n idx). lia.
  - repeat (apply elem_of_cons in Hp as [-> | Hp]); [lia.. |]. by apply elem_of_nil in Hp.
Qed.

Lemma zip_seq_fst {A : Type} (l : list A) (i n idx : nat) (x : A) :
  (idx, x) ∈ zip (seq i n) l → idx ∈ seq i n.
Proof. intros H. by apply elem_of_zip_l in H. Qed.

Lemma expected_progress_stage (n p : nat) :
  p ∈ [5; 70; 85; 100] → p ∈ expected_progress n.
Proof.
  unfold expected_progress. intros [-> | Hp]%elem_of_cons; [by left |].
  apply elem_of_app. right. apply elem_of_app. by right.
Qed.

Lemma expected_progress_set (n idx : nat) :
  idx ∈ seq 0 n →
  5 + (idx + 1) * (if 0 <? n then 60 / n else 0) ∈ expected_progress n.
Proof.
  intros Hi. unfold expected_progress. apply elem_of_app. right. apply elem_of_app. left.
  apply list_elem_of_fmap. by exists idx.
Qed.

End progress_list.

Section workflow_emits.

Context {E : Type}.
Variable siril :
  option (list string → E → gmap (list string) FS.node →
          string + E * gmap (list string) FS.node).

Lemma emits_worker_event_process_workflow g :
  emits_only (worker_event (length (detected_sets g))) (process_workflow siril g).
Proof.
  set (n := length (detected_sets g)).
  assert (∀ message color : string,
            color ∈ ["blue"; "green"; "orange"; "red"] →
            worker_event n (Log message color)) as HL by done.
  assert (∀ args failure, worker_event n (Call args failure)) as HC by done.
  assert (∀ p, p ∈ expected_progress n → emits_only (worker_event n) (emit (E:=E) (Progress p)))
    as HP by (intros p Hp; by apply emits_only_emit).
  unfold process_workflow. apply emits_only_try_except.
  - repeat first
      [ apply emits_only_process_set; [exact HL | exact HC]
      | apply emits_only_combine_sequences; exact HL
      | apply emits_only_register_combined; [exact HL | exact HC]
      | apply emits_only_stack_combined; [exact HL | exact HC]
      | apply emits_only_cmd; [exact HL | exact HC]
      | apply emits_only_log; [exact HL | by repeat constructor]
      | apply emits_only_ret | apply emits_only_fs_op
      | apply HP; apply expected_progress_stage; by repeat constructor
      | apply emits_only_for_each; intros [idx set_name] Hin
      | apply emits_only_bind; [| intros ?] ].
    apply HP, expected_progress_set. by eapply zip_seq_fst.
  - intros e. apply emits_only_bind; [| intros _; apply emits_only_raise].
    apply emits_only_log; [exact HL | by repeat constructor].
Qed.

Lemma emits_worker_event_run g :
  emits_only (worker_event (length (detected_sets g))) (run (process_workflow siril g)).
Proof.
  unfold run. apply emits_only_try_except.
  - apply emits_only_bind; [apply emits_worker_event_process_workflow |].
    intros [[] |]; by apply emits_only_emit.
  - intros e. apply emits_only_bind; [| intros _; by apply emits_only_emit].
    apply emits_only_emit. simpl. by repeat constructor.
Qed.

Lemma worker_event_well_formed (n : nat) (e : event) :
  worker_event n e → well_formed_signal e.
Proof.
  destruct e as [message color | p | | |]; simpl; try done.
  - intros Hc. repeat (apply elem_of_cons in Hc as [-> | Hc]); [by eexists.. |].
    by apply elem_of_nil in Hc.
  - apply expected_progress_bounds.
Qed.

End workflow_emits.

(** X10.  Every signal of every run, finished or failed, is one the window
    shows as meant: each log line carries a colour that [log] knows, so
    that the fallback to black is never taken; each percentage lies
    between 5 and 100, inside the range of the bar; and the worker thread
    never opens a message box. *)
Theorem run_signals_well_formed {E : Type}
    (siril : option (list string → E → gmap (list string) FS.node →
                     string + E * gmap (list string) FS.node))
    (g : gui) (w : world E) :
  Forall well_formed_signal (run (process_workflow siril g) w).1.1.
Proof.
  destruct (run (process_workflow siril g) w) as [[ev w'] r] eqn:Hrun. simpl.
  eapply Forall_impl; [by eapply (emits_worker_event_run siril g) |].
  apply worker_event_well_formed.
Qed.

(** * What a stage leaves alone *)

Section preserves_facts.

Context {E : Type}.
Variable R : world E → world E → Prop.
Hypothesis R_refl : ∀ w, R w w.
Hypothesis R_trans : ∀ w1 w2 w3, R w1 w2 → R w2 w3 → R w1 w3.

Lemma preserves_ret {A : Type} (a : A) : preserves R (ret a).
Proof. intros w ev w' r [= _ <- _]. apply R_refl. Qed.

Lemma preserves_emit (e : event) : preserves R (emit e).
Proof. intros w ev w' r [= _ <- _]. apply R_refl. Qed.

Lemma preserves_get_files : preserves R get_files.
Proof. intros w ev w' r [= _ <- _]. apply R_refl. Qed.

Lemma preserves_fs_op op :
  (∀ w fs', op (files w) = inr fs' → R w (World (engine w) fs')) →
  preserves R (fs_op op).
Proof.
  intros Hop w ev w' r. unfold fs_op.
  destruct (op (files w)) as [e | fs'] eqn:Ho; intros [= _ <- _];
    [apply R_refl | by apply Hop].
Qed.

Lemma preserves_bind {A B : Type} (m : M E A) (k : A → M E B) :
  preserves R m → (∀ a, preserves R (k a)) → preserves R (bind m k).
Proof.
  intros Hm Hk w ev w' r. unfold bind.
  destruct (m w) as [[ev1 w1] [a | e]] eqn:Hmw.
  - destruct (k a w1) as [[ev2 w2] r2] eqn:Hkw. intros [= _ <- _].
    eapply R_trans; [by eapply Hm | by eapply Hk].
  - intros [= _ <- _]. by eapply Hm.
Qed.

Lemma preserves_for_fold {A S : Type} (l : list A) (body : S → A → M E S) :
  (∀ s x, preserves R (body s x)) → ∀ s, preserves R (for_fold l body s).
Proof.
  intros Hb. induction l as [| x l IH]; intros s; simpl.
  - apply preserves_ret.
  - apply preserves_bind; [apply Hb | intros s'; apply IH].
Qed.

End preserves_facts.

(** ** Link names of one component *)

Lemma list_ascii_of_string_app (s t : string) :
  String.list_ascii_of_string (s +:+ t) =
    String.list_ascii_of_string s ++ String.list_ascii_of_string t.
Proof.
  induction s as [| c s IH]; [done |].
  change (String.list_ascii_of_string (String c s +:+ t))
    with (c :: String.list_ascii_of_string (s +:+ t)).
  by rewrite IH.
Qed.

Lemma is_name_part_app (s t : string) :
  FS.is_name_part (s +:+ t) = FS.is_name_part s && FS.is_name_part t.
Proof.
  unfold FS.is_name_part. by rewrite list_ascii_of_string_app, forallb_app.
Qed.

Lemma is_name_part_digits (d : Decimal.uint) :
  FS.is_name_part (NilEmpty.string_of_uint d) = true.
Proof. induction d; cbn; done. Qed.

Lemma is_name_part_str_nat (n : nat) : FS.is_name_part (Text.str_nat n) = true.
Proof.
  unfold Text.str_nat, NilZero.string_of_uint.
  destruct (Nat.to_uint n) eqn:Hd; [done | rewrite <- Hd; apply is_name_part_digits ..].
Qed.

Lemma is_name_part_zeros (k : nat) : FS.is_name_part (Text.zeros k) = true.
Proof. induction k; cbn; done. Qed.

Lemma is_name_part_fmt_05d (k : nat) : FS.is_name_part (Text.fmt_05d k) = true.
Proof.
  unfold Text.fmt_05d. cbn zeta.
  by rewrite is_name_part_app, is_name_part_zeros, is_name_part_str_nat.
Qed.

Lemma split_slash_name_part (text : string) :
  FS.is_name_part text = true → FS.split_slash text = [text].
Proof.
  unfold FS.is_name_part. induction text as [| c text IH]; [done |].
  cbn. intros [[Hc%negb_true_iff _]%andb_prop Hrest]%andb_prop.
  by rewrite Hc, (IH Hrest).
Qed.

Lemma root_name_part (text : string) :
  FS.is_name_part text = true → FS.root text = EmptyString.
Proof.
  unfold FS.is_name_part.
  destruct text as [| c [| d rest]]; [done | |]; cbn;
    intros [[Hc%negb_true_iff _]%andb_prop _]%andb_prop; by rewrite Hc.
Qed.

(** Joining a name that is one component, and neither empty nor dots,
    appends it. *)
Lemma div_text_name (p : list string) (text : string) :
  FS.is_name_part text = true → 2 < String.length text →
  FS.div_text p text = p // text.
Proof.
  intros Hname Hlen. unfold FS.div_text, FS.components.
  rewrite (root_name_part text Hname), (split_slash_name_part text Hname).
  rewrite filter_cons_True, filter_nil.
  - simpl. unfold FS.step.
    destruct (String.eqb_spec text "..") as [-> | _]; [simpl in Hlen; lia | done].
  - split; intros ->; simpl in Hlen; lia.
Qed.

Lemma link_text_div (dir : list string) (seq_name : string) (k : nat) :
  FS.is_name_part seq_name = true →
  FS.div_text dir (seq_name +:+ "_" +:+ Text.fmt_05d k +:+ ".fit") =
    dir // (seq_name +:+ "_" +:+ Text.fmt_05d k +:+ ".fit").
Proof.
  intros Hname. apply div_text_name.
  - by rewrite !is_name_part_app, Hname, is_name_part_fmt_05d.
  - rewrite !string_app_length. simpl. lia.
Qed.

Section combine_frame.

Context {E : Type}.

Implicit Types (w : world E) (dir : list string).

Lemma same_outside_refl dir w : same_outside dir w w.
Proof. done. Qed.

Lemma same_outside_trans dir w1 w2 w3 :
  same_outside dir w1 w2 → same_outside dir w2 w3 → same_outside dir w1 w3.
Proof.
  intros [He1 Hf1] [He2 Hf2]. split; [congruence |].
  intros p Hp. by rewrite Hf2, Hf1.
Qed.

Lemma preserves_link_frame dir (seq_name : string) (k : nat) (fit_file : list string) :
  FS.is_name_part seq_name = true →
  preserves (same_outside dir) (link_frame (E:=E) dir seq_name k fit_file).
Proof.
  intros Hname. unfold link_frame. rewrite (link_text_div dir seq_name k Hname).
  apply preserves_bind; [apply same_outside_trans | |].
  { apply preserves_get_files, same_outside_refl. }
  intros fs.
  apply preserves_bind; [apply same_outside_trans | |].
  - destruct (FS.path_exists fs _); [| apply preserves_ret, same_outside_refl].
    apply preserves_fs_op; [apply same_outside_refl |].
    intros w fs'. unfold FS.unlink.
    destruct (files w !! _) as [[] |]; intros [= <-]; (split; [done |]);
      intros p Hp; simpl; by rewrite lookup_delete_ne.
  - intros _.
    apply preserves_bind; [apply same_outside_trans | |].
    + apply preserves_fs_op; [apply same_outside_refl |].
      intros w fs'. unfold FS.symlink_to.
      destruct (files w !! _); [done |].
      destruct (FS.is_dir _ _); [| by destruct (FS.path_exists _ _)].
      intros [= <-]. split; [done |].
      intros p Hp. simpl. by rewrite lookup_insert_ne.
    + intros _. apply preserves_ret, same_outside_refl.
Qed.

Lemma preserves_link_set g dir (seq_name : string) (k : nat) (set_name : string) :
  FS.is_name_part seq_name = true →
  preserves (same_outside dir) (link_set (E:=E) g dir seq_name k set_name).
Proof.
  intros Hname. unfold link_set.
  apply preserves_bind; [apply same_outside_trans | |].
  { apply preserves_get_files, same_outside_refl. }
  intros fs. destruct (FS.sorted _).
  - apply preserves_bind; [apply same_outside_trans | |].
    + apply preserves_emit, same_outside_refl.
    + intros _. apply preserves_ret, same_outside_refl.
  - apply preserves_bind; [apply same_outside_trans | |].
    + apply preserves_emit, same_outside_refl.
    + intros _.
      apply preserves_for_fold; [apply same_outside_refl | apply same_outside_trans |].
      intros. by apply preserves_link_frame.
Qed.

Lemma preserves_combine_sequences g (seq_name : string) :
  FS.is_name_part seq_name = true →
  preserves (same_outside (combined_dir g)) (combine_sequences (E:=E) g seq_name).
Proof.
  intros Hname. unfold combine_sequences.
  apply preserves_bind; [apply same_outside_trans | |].
  - apply preserves_for_fold; [apply same_outside_refl | apply same_outside_trans |].
    intros. by apply preserves_link_set.
  - intros k. apply preserves_emit, same_outside_refl.
Qed.

End combine_frame.

(** X11.  [combine_sequences] works on the combined folder and on nothing
    else.  For a sequence name that is a name part (no separator in it, so
    that every link name is one component under [multi_night_combined]):
    whether it returns or raises, it has issued no command and reported no
    progress (its trace holds log lines only), the engine's session is as
    it was, and every file-system entry that is not directly inside
    [multi_night_combined] is as it was; in particular no calibrated file
    is moved, changed or removed. *)
Theorem combine_sequences_stays_inside {E : Type} (g : gui) (seq_name : string)
    (w : world E) :
  FS.is_name_part seq_name = true →
  Forall is_log (combine_sequences g seq_name w).1.1 ∧
  same_outside (combined_dir g) w (combine_sequences g seq_name w).1.2.
Proof.
  intros Hname.
  destruct (combine_sequences g seq_name w) as [[ev w'] r] eqn:Hrun. simpl. split.
  - by eapply (emits_only_combine_sequences is_log).
  - by eapply preserves_combine_sequences.
Qed.

(** A name with a separator in it leads out of the combined folder: the
    name [../set1/process/pp_light] puts a link to itself in the place of
    the first calibrated file of [set1]. *)
Example combine_sequences_leaves_the_folder :
  let w' := (combine_sequences ex_gui_detected "../set1/process/pp_light"
               ex_world_combined).1.2 in
  files ex_world_combined !! ["/astro"; "set1"; "process"; "pp_light_00001.fit"] =
    Some FS.File ∧
  files w' !! ["/astro"; "set1"; "process"; "pp_light_00001.fit"] =
    Some (FS.Symlink ["/astro"; "set1"; "process"; "pp_light_00001.fit"]).
Proof. split; vm_compute; reflexivity. Qed.

Lemma combine_sequences_stays_inside_witness :
  FS.is_name_part "m31" = true ∧
  Forall is_log (combine_sequences ex_gui_detected "m31" ex_world_combined).1.1 ∧
  same_outside (combined_dir ex_gui_detected) ex_world_combined
    (combine_sequences ex_gui_detected "m31" ex_world_combined).1.2.
Proof.
  split; [reflexivity |].
  apply (combine_sequences_stays_inside ex_gui_detected "m31" ex_world_combined).
  reflexivity.
Defined.

Lemma parent_div (dir : list string) (c : string) : FS.parent (dir // c) = dir.
Proof. apply removelast_last. Qed.

Lemma div_ne (dir : list string) (c : string) : dir // c ≠ dir.
Proof.
  intros H. apply (f_equal length) in H. unfold FS.div in H.
  rewrite length_app in H. simpl in H. lia.
Qed.

Lemma is_dir_entry (fs : gmap (list string) FS.node) (dir : list string) :
  fs !! dir = Some FS.Dir → FS.is_dir fs dir = true.
Proof. intros H. unfold FS.is_dir. simpl. by rewrite H. Qed.

(** One round of linking in a folder that is there, under a name of one
    component.  When the link name
    is free the link is created; when the name resolves to a file, or to
    anything through a link, the entry is replaced by the new link.  When
    the name is held by a link whose target is gone, [exists()] is false,
    nothing is removed, and [symlink_to] raises; when it is a directory
    [unlink] raises. *)
Lemma link_frame_cases {E : Type} (dir : list string) (seq_name : string)
    (k : nat) (fit_file : list string) (w : world E) :
  FS.is_name_part seq_name = true →
  files w !! dir = Some FS.Dir →
  let link := dir // (seq_name +:+ "_" +:+ Text.fmt_05d k +:+ ".fit") in
  let linked :=
    ([], World (engine w) (<[link := FS.Symlink fit_file]> (files w)), Ok (k + 1)) in
  match files w !! link with
  | None => link_frame dir seq_name k fit_file w = linked
  | Some FS.Dir =>
      link_frame dir seq_name k fit_file w =
        ([], w, Raise ("[Errno 21] Is a directory: " +:+ FS.quoted link))
  | Some _ =>
      if FS.path_exists (files w) link
      then link_frame dir seq_name k fit_file w = linked
      else link_frame dir seq_name k fit_file w =
             ([], w, Raise ("[Errno 17] File exists: " +:+ FS.quoted fit_file +:+
                            " -> " +:+ FS.quoted link))
  end.
Proof.
  intros Hname Hfolder. cbn zeta. unfold link_frame.
  rewrite (link_text_div dir seq_name k Hname), bind_get_files.
  set (link := dir // (seq_name +:+ "_" +:+ Text.fmt_05d k +:+ ".fit")).
  assert (FS.is_dir (files w) (FS.parent link) = true) as Hparent.
  { unfold link. rewrite parent_div. by apply is_dir_entry. }
  assert (FS.is_dir (delete link (files w)) (FS.parent link) = true) as Hparent'.
  { unfold link. rewrite parent_div. apply is_dir_entry.
    rewrite lookup_delete_ne; [done | apply div_ne]. }
  destruct (files w !! link) as [node |] eqn:Hl.
  - assert (node = FS.Dir → FS.path_exists (files w) link = true) as Hdir.
    { intros ->. unfold FS.path_exists. simpl. by rewrite Hl. }
    destruct (FS.path_exists (files w) link) eqn:Hex.
    + unfold bind, fs_op, FS.unlink, FS.symlink_to, ret. rewrite Hl.
      destruct node as [| | target]; simpl;
        rewrite ?lookup_delete_eq, ?Hparent', ?insert_delete_eq; done.
    + unfold bind, fs_op, FS.symlink_to, ret. rewrite Hl.
      destruct node as [| | target]; [done | by discriminate Hdir | done].
  - rewrite (path_exists_absent _ _ Hl).
    unfold bind, fs_op, FS.symlink_to, ret. by rewrite Hl, Hparent.
Qed.

(** * Progress *)

Section expected_progress_facts.

Lemma seq_strongly_sorted (i n : nat) : StronglySorted le (seq i n).
Proof.
  revert i. induction n as [| n IH]; intros i; simpl; constructor; [apply IH |].
  apply Forall_forall. intros j Hj%elem_of_seq. lia.
Qed.

(** The expected percentages never go down. *)
Lemma expected_progress_sorted (n : nat) : StronglySorted le (expected_progress n).
Proof.
  unfold expected_progress.
  apply StronglySorted_app_2; [| repeat constructor | apply StronglySorted_app_2].
  - intros p q ->%list_elem_of_singleton Hq.
    assert (q ∈ expected_progress n) as Hq'
      by (unfold expected_progress; apply elem_of_app; by right).
    apply expected_progress_bounds in Hq'. lia.
  - intros p q (idx & -> & Hi%elem_of_seq)%list_elem_of_fmap Hq.
    pose proof (progress_step_le n idx).
    repeat (apply elem_of_cons in Hq as [-> | Hq]); [lia.. |].
    by apply elem_of_nil in Hq.
  - apply (StronglySorted_fmap _ le le); [| apply seq_strongly_sorted].
    intros i j Hij. apply Nat.add_le_mono_l, Nat.mul_le_mono_r. lia.
  - repeat constructor; lia.
Qed.

Lemma prefix_strongly_sorted (l1 l2 : list nat) :
  l1 `prefix_of` l2 → StronglySorted le l2 → StronglySorted le l1.
Proof. intros [k ->]. apply StronglySorted_app_1_l. Qed.

End expected_progress_facts.

Section progress_facts.

Context {E : Type}.
Variable siril :
  option (list string → E → gmap (list string) FS.node →
          string + E * gmap (list string) FS.node).

Lemma no_progress_values ev : Forall no_progress ev → progress_values ev = [].
Proof.
  induction 1 as [| e ev He _ IH]; [done |].
  destruct e; try done; exact IH.
Qed.

Lemma reports_nothing {A : Type} (m : M E A) :
  emits_only no_progress m → reports_up_to [] m.
Proof.
  intros Hm w ev w' r Hrun. rewrite (no_progress_values ev) by by eapply Hm.
  done.
Qed.

Lemma reports_bind {A B : Type} (ps1 ps2 : list nat) (m : M E A) (k : A → M E B) :
  reports_up_to ps1 m → (∀ a, reports_up_to ps2 (k a)) →
  reports_up_to (ps1 ++ ps2) (bind m k).
Proof.
  intros Hm Hk w ev w' r. unfold bind.
  destruct (m w) as [[ev1 w1] [a | e]] eqn:Hmw; destruct (Hm _ _ _ _ Hmw) as [Hp1 Hf1].
  - destruct (k a w1) as [[ev2 w2] r2] eqn:Hkw. destruct (Hk _ _ _ _ _ Hkw) as [Hp2 Hf2].
    intros [= <- <- <-]. rewrite progress_values_app, (Hf1 a eq_refl). split.
    + by apply prefix_app.
    + intros b Hb. by rewrite (Hf2 b Hb).
  - intros [= <- <- <-]. split; [by apply prefix_app_r | done].
Qed.

Lemma reports_then {A B : Type} (ps : list nat) (m : M E A) (k : A → M E B) :
  emits_only no_progress m → (∀ a, reports_up_to ps (k a)) →
  reports_up_to ps (bind m k).
Proof.
  intros Hm Hk. apply (reports_bind [] ps); [by apply reports_nothing | done].
Qed.

Lemma reports_progress {B : Type} (n : nat) (ps : list nat) (k : unit → M E B) :
  (∀ a, reports_up_to ps (k a)) →
  reports_up_to (n :: ps) (bind (emit (Progress n)) k).
Proof.
  intros Hk. apply (reports_bind [n] ps); [| done].
  intros w ev w' r [= <- <- <-]. done.
Qed.

Lemma reports_for_each {A : Type} (f : A → nat) (l : list A) (body : A → M E unit) :
  (∀ x, reports_up_to [f x] (body x)) → reports_up_to (f <$> l) (for_each l body).
Proof.
  intros Hb. induction l as [| x l IH]; simpl.
  - apply reports_nothing, emits_only_ret.
  - apply (reports_bind [f x] (f <$> l)); [apply Hb | by intros _].
Qed.

Lemma reports_try_raise {A : Type} (ps : list nat) (body : M E A)
    (message color : string → string) :
  reports_up_to ps body →
  reports_up_to ps
    (try_except body (λ e, emit (Log (message e) (color e)) ;;; raise e)).
Proof.
  intros Hb w ev w' r. unfold try_except.
  destruct (body w) as [[ev1 w1] [a | e]] eqn:Hbw; destruct (Hb _ _ _ _ Hbw) as [Hp Hf].
  - by intros [= <- <- <-].
  - intros [= <- <- <-]. rewrite progress_values_app. simpl. by rewrite app_nil_r.
Qed.

Lemma no_progress_log (message color : string) :
  emits_only no_progress (emit (E:=E) (Log message color)).
Proof. by apply emits_only_emit. Qed.

Lemma reports_process_workflow g :
  reports_up_to (expected_progress (length (detected_sets g))) (process_workflow siril g).
Proof.
  assert (∀ message color : string,
            color ∈ ["blue"; "green"; "orange"; "red"] →
            no_progress (Log message color)) as HL by done.
  assert (∀ args failure, no_progress (Call args failure)) as HC by done.
  unfold process_workflow.
  apply (reports_try_raise _ _ (λ e, "Error in workflow: " +:+ e) (λ _, "red")).
  unfold expected_progress.
  match goal with |- context [[5] ++ ?l] => change ([5] ++ l) with (5 :: l) end.
  apply reports_then; [apply no_progress_log | intros _].
  apply reports_then; [by apply emits_only_cmd | intros _].
  apply reports_progress. intros _.
  apply reports_then; [apply emits_only_fs_op | intros _].
  apply reports_then; [apply no_progress_log | intros _].
  apply reports_bind.
  - set (n := length (detected_sets g)).
    set (f := λ x : nat * string, 5 + (x.1 + 1) * (if 0 <? n then 60 / n else 0)).
    assert ((λ idx, 5 + (idx + 1) * (if 0 <? n then 60 / n else 0)) <$> seq 0 n
            = f <$> zip (seq 0 n) (detected_sets g)) as ->.
    { rewrite <- (fst_zip (seq 0 n) (detected_sets g)) at 1 by (by rewrite length_seq).
      by rewrite <- list_fmap_compose. }
    apply (reports_for_each f).
    intros [idx set_name].
    apply reports_then; [apply no_progress_log | intros _].
    apply reports_then; [by apply emits_only_process_set | intros _].
    intros w ev w' r [= <- <- <-]. done.
  - intros _.
    apply reports_then; [apply no_progress_log | intros _].
    apply reports_then; [by apply emits_only_combine_sequences | intros _].
    apply reports_progress. intros _.
    apply reports_then; [apply no_progress_log | intros _].
    apply reports_then; [by apply emits_only_register_combined | intros _].
    apply reports_progress. intros _.
    apply reports_then; [apply no_progress_log | intros _].
    apply reports_then; [by apply emits_only_stack_combined | intros _].
    apply reports_progress. intros _.
    apply reports_then; [apply no_progress_log | intros _].
    apply reports_then; [apply no_progress_log | intros _].
    apply reports_then; [by apply emits_only_cmd | intros _].
    apply reports_nothing, emits_only_ret.
Qed.

(** The traces of [SirilWorker.run]: the task's trace, then the terminal
    event, with the error line before it when the task raised. *)
Lemma run_eq (task : M E (option bool)) w :
  run task w =
    match task w with
    | (ev, w', Ok (Some false)) =>
        (ev ++ [Finished false "Task completed with errors"], w', Ok tt)
    | (ev, w', Ok _) => (ev ++ [Finished true "Task completed successfully"], w', Ok tt)
    | (ev, w', Raise e) => (ev ++ [Log ("Error: " +:+ e) "red"; Finished false e], w', Ok tt)
    end.
Proof.
  unfold run, try_except, bind. destruct (task w) as [[ev w'] [[[] |] | e]]; done.
Qed.

End progress_facts.

(** X13.  The bar never goes backwards and never leaves its range.  In
    every run over [n] detected sets the percentages reported are an initial
    part of the list 5, then [5 + (i+1) * (60 // n)] for each set, then 70,
    85, 100; they are in non-decreasing order; and a run that ends with a
    success event has reported the whole list, so that it ends at 100. *)
Theorem run_progress {E : Type}
    (siril : option (list string → E → gmap (list string) FS.node →
                     string + E * gmap (list string) FS.node))
    (g : gui) (w : world E) :
  let ev := (run (process_workflow siril g) w).1.1 in
  let expected := expected_progress (length (detected_sets g)) in
  progress_values ev `prefix_of` expected ∧
  StronglySorted le (progress_values ev) ∧
  (∀ message, Finished true message ∈ ev → progress_values ev = expected) ∧
  StronglySorted le expected ∧
  last expected = Some 100.
Proof.
  cbn zeta.
  destruct (process_workflow siril g w) as [[ev w'] r] eqn:Hrun.
  destruct (reports_process_workflow siril g _ _ _ _ Hrun) as [Hp Hf].
  assert (finished_events ev = []) as Hfin
    by (by destruct (trace_ok_process_workflow siril g _ _ _ _ Hrun)).
  assert (∀ ok message, Finished ok message ∉ ev) as Hnot.
  { intros ok message Hin. apply list_elem_of_split in Hin as (l1 & l2 & ->).
    rewrite finished_events_app in Hfin. by destruct (finished_events l1). }
  assert (∃ tail,
            (run (process_workflow siril g) w).1.1 = ev ++ tail ∧
            progress_values tail = [] ∧
            ∀ message, Finished true message ∈ tail → ∃ a, r = Ok a)
    as (tail & -> & Ht & Hok).
  { rewrite run_eq, Hrun. destruct r as [[[] |] | e]; eexists; (split; [done |]);
      (split; [done |]); intros message Hin;
      repeat (apply elem_of_cons in Hin as [[=] | Hin]);
      try (by apply elem_of_nil in Hin); by eexists. }
  rewrite progress_values_app, Ht, app_nil_r.
  split; [done |]. split; [| split; [| split]].
  - apply (prefix_strongly_sorted _ _ Hp), expected_progress_sorted.
  - intros message [Hin | Hin]%elem_of_app; [by destruct (Hnot _ _ Hin) |].
    destruct (Hok _ Hin) as [a Ha]. by eapply Hf.
  - apply expected_progress_sorted.
  - unfold expected_progress. by rewrite !last_app.
Qed.

(** * The commands of a run that succeeds *)

Section workflow_commands_facts.

Context {E : Type}.
Variable siril :
  option (list string → E → gmap (list string) FS.node →
          string + E * gmap (list string) FS.node).

Implicit Types (w : world E) (g : gui) (ev : list event).

Lemma calls_log (message color : string) ev : calls (Log message color :: ev) = calls ev.
Proof. done. Qed.

Lemma calls_progress (n : nat) ev : calls (Progress n :: ev) = calls ev.
Proof. done. Qed.

Lemma calls_call args failure ev : calls (Call args failure :: ev) = args :: calls ev.
Proof. done. Qed.

Lemma calls_concat (evs : list (list event)) : calls (concat evs) = concat (calls <$> evs).
Proof.
  induction evs as [| ev evs IH]; [done |].
  simpl. by rewrite calls_app, IH.
Qed.

Lemma is_log_calls ev : Forall is_log ev → calls ev = [].
Proof.
  induction 1 as [| e ev He _ IH]; [done |].
  destruct e; try done; exact IH.
Qed.

Lemma for_each_ok {A : Type} (l : list A) (body : A → M E unit) w ev w' :
  for_each l body w = (ev, w', Ok tt) →
  ∃ evs,
    ev = concat evs ∧
    Forall2 (λ x evx, ∃ w1 w2, body x w1 = (evx, w2, Ok tt)) l evs.
Proof.
  revert w ev. induction l as [| x l IH]; intros w ev; simpl.
  - intros [= <- <-]. by exists [].
  - intros (ev1 & w1 & [] & ev2 & Hx & Hl & ->)%bind_ok_inv.
    destruct (IH _ _ Hl) as (evs & -> & Hall).
    exists (ev1 :: evs). split; [done |]. constructor; [by eexists _, _ | done].
Qed.

Lemma process_set_calls g (set_name : string) w ev w' :
  process_set siril g set_name w = (ev, w', Ok tt) →
  ∃ fs1, calls ev = set_commands g (files w) fs1 set_name.
Proof.
  intros Hrun.
  destruct (process_set_ok siril g set_name w ev w' Hrun) as (w1 & _ & _ & Hc & _).
  exists (files w1). rewrite Hc. unfold set_commands. by rewrite <- app_assoc.
Qed.

Lemma fs_op_ok op w ev w' :
  fs_op (E:=E) op w = (ev, w', Ok tt) → ev = [].
Proof. unfold fs_op. destruct (op (files w)); by intros [= <-]. Qed.

Lemma register_combined_calls g (seq_name : string) w ev w' :
  register_combined siril g seq_name w = (ev, w', Ok tt) →
  calls ev =
    [["cd"; FS.path_str (combined_dir g)]; ["register"; seq_name]; ["cd"; working_dir g]].
Proof.
  unfold register_combined. cbn zeta.
  intros (w1 & ev1 & _ & H & ->)%bind_cmd_ok.
  apply bind_emit_ok in H as (ev2 & H & ->).
  apply bind_cmd_ok in H as (w2 & ev3 & _ & H & ->).
  apply cmd_ok in H as [_ ->]. done.
Qed.

Lemma stack_combined_calls g (seq_name : string) w ev w' :
  stack_combined siril g seq_name w = (ev, w', Ok tt) →
  calls ev =
    [["cd"; FS.path_str (combined_dir g)]; stack_args g seq_name; ["cd"; working_dir g]].
Proof.
  unfold stack_combined. cbn zeta.
  intros (w1 & ev1 & _ & H & ->)%bind_cmd_ok.
  apply bind_cmd_ok in H as (w2 & ev3 & _ & H & ->).
  apply cmd_ok in H as [_ ->]. done.
Qed.

Lemma process_workflow_ok g w ev w' (result : option bool) :
  process_workflow siril g w = (ev, w', Ok result) →
  ∃ per_set : list (list (list string)),
    calls ev =
      ["cd"; working_dir g] :: concat per_set ++
      closing_commands g (Text.strip (seq_name_edit g)) ∧
    Forall2 (λ set_name commands, ∃ fs fs1, commands = set_commands g fs fs1 set_name)
      (detected_sets g) per_set ∧
    result = None.
Proof.
  unfold process_workflow, try_except.
  match goal with |- context [match ?body w with _ => _ end] =>
    destruct (body w) as [[ev0 w0] [a | e]] eqn:H
  end; [intros [= -> -> ->] | by unfold bind, emit, raise].
  cbn zeta in H.
  apply bind_emit_ok in H as (? & H & ->).
  apply bind_cmd_ok in H as (? & ? & _ & H & ->).
  apply bind_emit_ok in H as (? & H & ->).
  apply bind_ok_inv in H as (? & ? & [] & ? & ->%fs_op_ok & H & ->).
  apply bind_emit_ok in H as (? & H & ->).
  apply bind_ok_inv in H as (evf & ? & [] & ? & Hfor & H & ->).
  apply bind_emit_ok in H as (? & H & ->).
  apply bind_ok_inv in H as (evc & wc & [] & ? & Hcomb & H & ->).
  apply bind_emit_ok in H as (? & H & ->).
  apply bind_emit_ok in H as (? & H & ->).
  apply bind_ok_inv in H as (evr & ? & [] & ? & Hreg%register_combined_calls & H & ->).
  apply bind_emit_ok in H as (? & H & ->).
  apply bind_emit_ok in H as (? & H & ->).
  apply bind_ok_inv in H as (evs & ? & [] & ? & Hstack%stack_combined_calls & H & ->).
  apply bind_emit_ok in H as (? & H & ->).
  apply bind_emit_ok in H as (? & H & ->).
  apply bind_emit_ok in H as (? & H & ->).
  apply bind_cmd_ok in H as (? & ? & _ & H & ->).
  injection H as <- <- <-.
  apply for_each_ok in Hfor as (evs' & -> & Hall).
  assert (calls evc = []) as Hc.
  { apply is_log_calls. by eapply (emits_only_combine_sequences is_log). }
  exists (calls <$> evs'). split; [| split; [| done]].
  - cbn [app].
    repeat first
      [ rewrite calls_log | rewrite calls_progress | rewrite calls_call
      | rewrite calls_app ].
    rewrite calls_concat, Hc, Hreg, Hstack. done.
  - apply Forall2_fmap_r.
    rewrite <- (snd_zip (seq 0 (length (detected_sets g))) (detected_sets g))
      by (by rewrite length_seq).
    apply Forall2_fmap_l. eapply Forall2_impl; [exact Hall |].
    intros [idx set_name] evx (w1 & w2 & Hx). simpl.
    apply bind_emit_ok in Hx as (? & Hx & ->).
    apply bind_ok_inv in Hx as (evp & ? & [] & ? & Hp%process_set_calls & Hx & ->).
    injection Hx as <- _. destruct Hp as [fs1 Hp].
    exists (files w1), fs1.
    by rewrite calls_log, calls_app, Hp, app_nil_r.
Qed.

End workflow_commands_facts.

Section call_results_facts.

Context {E : Type}.
Variable siril :
  option (list string → E → gmap (list string) FS.node →
          string + E * gmap (list string) FS.node).

Lemma call_results_none (ev : list event) :
  (∀ pre args e post, ev ≠ pre ++ Call args (Some e) :: post) →
  Forall (λ failure, failure = None) (call_results ev).
Proof.
  induction ev as [| x ev IH]; intros Hno; [done |].
  assert (Forall (λ failure, failure = None) (call_results ev)) as Hev.
  { apply IH. intros pre args e post ->. by apply (Hno (x :: pre) args e post). }
  destruct x as [| | | args [e |] |]; try done.
  - by destruct (Hno [] args e ev).
  - by constructor.
Qed.

Lemma failure_tail_calls (e : string) : calls (failure_tail e) = [].
Proof. done. Qed.

(** In a trace of a run a refused command has only accepted commands
    before it. *)
Lemma run_single_failure g (w : world E) pre args e post :
  (run (process_workflow siril g) w).1.1 = pre ++ Call args (Some e) :: post →
  Forall (λ failure, failure = None) (call_results pre) ∧
  post = failure_tail e.
Proof.
  destruct (run (process_workflow siril g) w) as [[ev w'] r] eqn:Hrun. simpl.
  destruct (run_spec (process_workflow siril g) w ev w' r
              (trace_ok_process_workflow siril g) Hrun) as [_ Hfail].
  intros ->. split; [| by eapply Hfail].
  apply call_results_none. intros pre' args' e' post' ->.
  pose proof (Hfail pre' args' e' (post' ++ Call args (Some e) :: post)) as Hp.
  rewrite <- app_assoc in Hp. specialize (Hp eq_refl).
  assert (args ∈ calls (failure_tail e')) as Hin.
  { rewrite <- Hp, calls_app. apply elem_of_app. right. by left. }
  rewrite failure_tail_calls in Hin. by apply elem_of_nil in Hin.
Qed.

End call_results_facts.
(** X14.  The commands of a run that succeeds, in order: [cd] to the
    working directory; then, set by set as detected, the commands of
    [process_set]; no command at all while the links are made; then, each
    from inside the combined folder and followed by the way back, the
    registration and the stacking of the sequence under its stripped name;
    last of all [close].  None of these commands was refused. *)
Theorem workflow_commands {E : Type}
    (siril : option (list string → E → gmap (list string) FS.node →
                     string + E * gmap (list string) FS.node))
    (g : gui) (w : world E) (ev : list event) (w' : world E)
    (result : option bool) :
  process_workflow siril g w = (ev, w', Ok result) →
  ∃ per_set : list (list (list string)),
    calls ev =
      ["cd"; working_dir g] :: concat per_set ++
      closing_commands g (Text.strip (seq_name_edit g)) ∧
    Forall2 (λ set_name commands, ∃ fs fs1, commands = set_commands g fs fs1 set_name)
      (detected_sets g) per_set ∧
    Forall (λ failure, failure = None) (call_results ev) ∧
    result = None.
Proof.
  intros Hrun.
  destruct (process_workflow_ok siril g w ev w' result Hrun) as (per_set & Hc & Hall & Hr).
  exists per_set. split; [done |]. split; [done |]. split; [| done].
  apply call_results_none. intros pre args e post ->.
  by destruct (trace_ok_process_workflow siril g _ _ _ _ Hrun) as [_ Hf],
    (Hf pre args e post eq_refl).
Qed.

Lemma workflow_commands_witness :
  ∃ per_set : list (list (list string)),
    calls (process_workflow ex_siril ex_gui_detected ex_world).1.1 =
      ["cd"; working_dir ex_gui_detected] :: concat per_set ++
      closing_commands ex_gui_detected (Text.strip (seq_name_edit ex_gui_detected)) ∧
    Forall2 (λ set_name commands,
               ∃ fs fs1, commands = set_commands ex_gui_detected fs fs1 set_name)
      (detected_sets ex_gui_detected) per_set ∧
    Forall (λ failure, failure = None)
      (call_results (process_workflow ex_siril ex_gui_detected ex_world).1.1) ∧
    @None bool = None.
Proof.
  apply (workflow_commands ex_siril ex_gui_detected ex_world
           (process_workflow ex_siril ex_gui_detected ex_world).1.1
           (process_workflow ex_siril ex_gui_detected ex_world).1.2 None).
  vm_compute. reflexivity.
Defined.

(** X15.  At most one command of a run is refused, and it is the last
    one: every command before a refused command was accepted, no command
    follows it, and the run ends with the terminal failure event that
    carries the engine's message. *)
Theorem run_failure_is_final {E : Type}
    (siril : option (list string → E → gmap (list string) FS.node →
                     string + E * gmap (list string) FS.node))
    (g : gui) (w : world E) (pre : list event) (args : list string) (e : string)
    (post : list event) :
  (run (process_workflow siril g) w).1.1 = pre ++ Call args (Some e) :: post →
  Forall (λ failure, failure = None) (call_results pre) ∧
  calls post = [] ∧
  last post = Some (Finished false e) ∧
  finished_events (pre ++ Call args (Some e) :: post) = [(false, e)].
Proof.
  intros Hev. destruct (run_single_failure siril g w pre args e post Hev) as [Hpre ->].
  split; [done |]. split; [done |]. split; [done |].
  destruct (run (process_workflow siril g) w) as [[ev w'] r] eqn:Hrun. simpl in Hev.
  destruct (run_spec (process_workflow siril g) w ev w' r
              (trace_ok_process_workflow siril g) Hrun) as [(ok & msg & Hfin & Hlast) _].
  rewrite <- Hev, Hfin. rewrite Hev in Hlast.
  rewrite last_app in Hlast. simpl in Hlast. by injection Hlast as <- <-.
Qed.

Lemma run_failure_is_final_witness :
  let ev := (run (process_workflow ex_siril_no_register ex_gui_detected) ex_world).1.1 in
  Forall (λ failure, failure = None) (call_results (take (length ev - 5) ev)) ∧
  calls (failure_tail "register failed") = [] ∧
  last (failure_tail "register failed") = Some (Finished false "register failed") ∧
  finished_events
    (take (length ev - 5) ev ++
     Call ["register"; "m31"] (Some "register failed") :: failure_tail "register failed")
    = [(false, "register failed")].
Proof.
  intros ev.
  apply (run_failure_is_final ex_siril_no_register ex_gui_detected ex_world
           (take (length ev - 5) ev) ["register"; "m31"] "register failed"
           (failure_tail "register failed")).
  vm_compute. reflexivity.
Defined.

(** * Pressing the start button *)

Section press_start_facts.

Lemma last_cons_default {A : Type} (d x : A) (l : list A) :
  default d (last (x :: l)) = default x (last l).
Proof.
  revert d x. induction l as [| y l IH]; intros d x; [done |].
  change (last (x :: y :: l)) with (last (y :: l)). by rewrite (IH d y), (IH x y).
Qed.

(** Delivering the signals of a task: the log grows, the bar follows the
    percentages, nothing else changes and no box is shown. *)
Lemma deliver_all_signals (signals : list event) (win : window) :
  finished_events signals = [] →
  Forall (λ p, p ≤ 100) (progress_values signals) →
  ∃ lines,
    deliver_all signals win =
      ({| widgets := widgets win;
          dir_label := dir_label win;
          progress_bar := default (progress_bar win) (last (progress_values signals));
          log_text := log_text win ++ lines |}, []).
Proof.
  revert win. induction signals as [| e signals IH]; intros win Hfin Hp.
  - exists []. destruct win. simpl. by rewrite app_nil_r.
  - destruct e as [message color | p | | |]; try done.
    + destruct (IH (log message color win) Hfin Hp) as [lines Hd].
      eexists (_ :: lines). simpl. rewrite Hd. simpl. by rewrite <- app_assoc.
    + change (progress_values (Progress p :: signals)) with (p :: progress_values signals)
        in Hp |- *.
      apply Forall_cons in Hp as [Hp100 Hp].
      destruct (IH (progress_bar_setValue p win) Hfin Hp) as [lines Hd].
      exists lines. simpl. rewrite Hd. unfold progress_bar_setValue.
      apply Nat.leb_le in Hp100. rewrite Hp100. simpl.
      by rewrite last_cons_default.
    + destruct (IH win Hfin Hp) as [lines Hd]. exists lines. simpl. by rewrite Hd.
    + destruct (IH win Hfin Hp) as [lines Hd]. exists lines. simpl. by rewrite Hd.
Qed.

Lemma deliver_all_app (l1 l2 : list event) (win : window) :
  deliver_all (l1 ++ l2) win =
    ((deliver_all l2 (deliver_all l1 win).1).1,
     (deliver_all l1 win).2 ++ (deliver_all l2 (deliver_all l1 win).1).2).
Proof.
  revert win. induction l1 as [| e l1 IH]; intros win; simpl.
  - by destruct (deliver_all l2 win).
  - destruct (deliver e win) as [win1 boxes1]. rewrite IH.
    destruct (deliver_all l1 win1) as [win2 boxes2]. simpl.
    destruct (deliver_all l2 win2) as [win3 boxes3]. simpl.
    by rewrite app_assoc.
Qed.

Lemma start_processing_started (sirilpy_available reply_yes : bool) (win : window) :
  (start_processing sirilpy_available reply_yes win).2 = true →
  ∃ question,
    start_processing sirilpy_available reply_yes win =
      (progress_bar_setValue 0
         (with_widgets win (start_button_setEnabled false (widgets win))),
       [question], true).
Proof.
  unfold start_processing. cbn zeta.
  destruct (working_dir (widgets win)); [done |].
  destruct (detected_sets (widgets win)); [done |].
  destruct sirilpy_available; [| done].
  destruct (Text.strip (seq_name_edit (widgets win))); [done |].
  destruct reply_yes; [| done]. by eexists.
Qed.

Lemma prefix_last_elem_of (l1 l2 : list nat) (x : nat) :
  l1 `prefix_of` l2 → last l1 = Some x → x ∈ l2.
Proof.
  intros [k ->] Hl. apply elem_of_app. left.
  apply last_Some in Hl as [l' ->]. apply elem_of_app. right. by left.
Qed.

End press_start_facts.

(** X16.  A run started from the window always gives the window back:
    when the worker's signals have been delivered the start button is
    enabled again and the options are as they were, whether the run
    succeeded or failed; two boxes were shown, the question and one closing
    box.  After the "Processing Complete" box the bar stands at 100; after
    the "Processing Error" box, which carries the message of the failure,
    it stands at 0 or at the last percentage reported.  When
    [start_processing] does not start the worker, nothing is run. *)
Theorem press_start_outcome {E : Type}
    (siril : option (list string → E → gmap (list string) FS.node →
                     string + E * gmap (list string) FS.node))
    (sirilpy_available reply_yes : bool) (win : window) (w : world E) :
  let started := (start_processing sirilpy_available reply_yes win).2 in
  let result := press_start siril sirilpy_available reply_yes win w in
  (started = false →
     result = ((start_processing sirilpy_available reply_yes win).1, w)) ∧
  (started = true →
     widgets result.1.1 = start_button_setEnabled true (widgets win) ∧
     dir_label result.1.1 = dir_label win ∧
     log_text win `prefix_of` log_text result.1.1 ∧
     ∃ question closing,
       result.1.2 = [question; closing] ∧
       ((∃ text, closing = MessageBox "information" "Processing Complete" text) ∧
          progress_bar result.1.1 = 100
        ∨ (∃ e, closing = MessageBox "warning" "Processing Error"
                            ("Processing failed: " +:+ e)) ∧
          progress_bar result.1.1 ∈
            0 :: expected_progress (length (detected_sets (widgets win))))).
Proof.
  cbn zeta. unfold press_start. split.
  - destruct (start_processing sirilpy_available reply_yes win) as [[win1 boxes] []];
      [done |]. done.
  - intros [question Hs]%start_processing_started. rewrite Hs.
    set (win1 := progress_bar_setValue 0
                   (with_widgets win (start_button_setEnabled false (widgets win)))).
    set (g := widgets win1).
    assert (length (detected_sets g) = length (detected_sets (widgets win))) as Hn by done.
    rewrite run_eq.
    destruct (process_workflow siril g w) as [[ev w'] r] eqn:Hrun.
    destruct (reports_process_workflow siril g _ _ _ _ Hrun) as [Hp Hf].
    assert (finished_events ev = []) as Hfin
      by (by destruct (trace_ok_process_workflow siril g _ _ _ _ Hrun)).
    assert (Forall (λ p, p ≤ 100) (progress_values ev)) as H100.
    { apply Forall_forall. intros p Hin.
      destruct Hp as [k Hk].
      assert (p ∈ expected_progress (length (detected_sets g))) as Hin'
        by (rewrite Hk; apply elem_of_app; by left).
      apply expected_progress_bounds in Hin'. lia. }
    destruct (deliver_all_signals ev win1 Hfin H100) as [lines Hd].
    assert (progress_bar win1 = 0) as Hbar by done.
    assert (default 0 (last (progress_values ev))
              ∈ 0 :: expected_progress (length (detected_sets (widgets win)))) as Hlast.
    { rewrite <- Hn. destruct (last (progress_values ev)) as [x |] eqn:Hl; [| by left].
      right. by eapply prefix_last_elem_of. }
    destruct r as [result | e].
    + assert (result = None) as ->
        by (by destruct (process_workflow_ok siril g w ev w' result Hrun) as (? & _ & _ & ?)).
      rewrite deliver_all_app, Hd, Hbar. simpl.
      split; [done |]. split; [done |]. split; [by apply prefix_app_r |].
      eexists _, _. split; [done |]. left. split; [by eexists |].
      rewrite (Hf None eq_refl). unfold expected_progress. by rewrite !last_app.
    + rewrite deliver_all_app, Hd, Hbar. simpl.
      split; [done |]. split; [done |].
      split; [rewrite <- app_assoc; by apply prefix_app_r |].
      eexists _, _. split; [done |]. right. split; [by eexists | done].
Qed.

Lemma press_start_outcome_witness :
  let result := press_start ex_siril true true ex_window ex_world in
  widgets result.1.1 = start_button_setEnabled true (widgets ex_window) ∧
  dir_label result.1.1 = dir_label ex_window ∧
  log_text ex_window `prefix_of` log_text result.1.1 ∧
  ∃ question closing,
    result.1.2 = [question; closing] ∧
    ((∃ text, closing = MessageBox "information" "Processing Complete" text) ∧
       progress_bar result.1.1 = 100
     ∨ (∃ e, closing = MessageBox "warning" "Processing Error"
                         ("Processing failed: " +:+ e)) ∧
       progress_bar result.1.1 ∈
         0 :: expected_progress (length (detected_sets (widgets ex_window)))).
Proof.
  apply (press_start_outcome ex_siril true true ex_window ex_world).
  vm_compute. reflexivity.
Defined.

(** * The order of paths *)

Section path_order.

Implicit Types (p q r : list string) (a b c : string).


Lemma string_compare_lt_trans a b c :
  String.compare a b = Lt → String.compare b c = Lt → String.compare a c = Lt.
Proof.
  intros Hab Hbc.
  assert (String.le a c) as Hac.
  { transitivity b; unfold String.le, String.leb; [by rewrite Hab | by rewrite Hbc]. }
  unfold String.le, String.leb in Hac.
  destruct (String.compare a c) eqn:Hc; [| done | done].
  apply String.compare_eq_iff in Hc as ->.
  rewrite String.compare_antisym, Hab in Hbc. done.
Qed.

Lemma path_compare_antisym p q :
  FS.path_compare p q = CompOpp (FS.path_compare q p).
Proof.
  revert q. induction p as [| a p IH]; intros [| b q]; simpl; try done.
  rewrite (String.compare_antisym a b).
  destruct (String.compare b a); simpl; [apply IH | done | done].
Qed.

Lemma path_compare_eq p q : FS.path_compare p q = Eq → p = q.
Proof.
  revert q. induction p as [| a p IH]; intros [| b q]; simpl; try done.
  destruct (String.compare a b) eqn:Hab; [| done | done].
  apply String.compare_eq_iff in Hab as ->. by intros ->%IH.
Qed.

Lemma path_compare_lt_trans p q r :
  FS.path_compare p q = Lt → FS.path_compare q r = Lt → FS.path_compare p r = Lt.
Proof.
  revert q r. induction p as [| a p IH]; intros [| b q] [| c r]; simpl; try done.
  destruct (String.compare a b) eqn:Hab; [| | done];
    destruct (String.compare b c) eqn:Hbc; try done.
  - apply String.compare_eq_iff in Hab as ->. rewrite Hbc. apply IH.
  - apply String.compare_eq_iff in Hab as ->. by rewrite Hbc.
  - apply String.compare_eq_iff in Hbc as <-. by rewrite Hab.
  - by rewrite (string_compare_lt_trans a b c).
Qed.

End path_order.

#[global] Instance path_le_total : Total FS.path_le.
Proof.
  intros p q. unfold FS.path_le.
  destruct (FS.path_compare p q) eqn:Hpq; [by left | by left |].
  right. by rewrite path_compare_antisym, Hpq.
Qed.

#[global] Instance path_le_transitive : Transitive FS.path_le.
Proof.
  intros p q r. unfold FS.path_le. intros Hpq Hqr.
  destruct (FS.path_compare p q) eqn:H1; [| | done].
  - by apply path_compare_eq in H1 as ->.
  - destruct (FS.path_compare q r) eqn:H2; [| | done].
    + apply path_compare_eq in H2 as <-. by rewrite H1.
    + by rewrite (path_compare_lt_trans p q r).
Qed.

#[global] Instance path_le_antisymm : AntiSymm (=) FS.path_le.
Proof.
  intros p q. unfold FS.path_le. intros Hpq Hqp.
  apply path_compare_eq.
  destruct (FS.path_compare p q) eqn:H1; [done | | done].
  rewrite path_compare_antisym, H1 in Hqp. done.
Qed.

(** * Listing a folder while links are made elsewhere *)

Section glob_facts.

Implicit Types (fs : gmap (list string) FS.node) (dir p : list string).

Lemma keys_insert fs p (node : FS.node) :
  (map_to_list (<[p := node]> fs)).*1 ≡ₚ p :: (map_to_list (delete p fs)).*1.
Proof.
  rewrite <- insert_delete_eq.
  by rewrite map_to_list_insert by apply lookup_delete_eq.
Qed.

Lemma keys_present fs p (node : FS.node) :
  fs !! p = Some node → (map_to_list fs).*1 ≡ₚ p :: (map_to_list (delete p fs)).*1.
Proof.
  intros Hp. rewrite <- (insert_id fs p node Hp) at 1. apply keys_insert.
Qed.

(** An entry made or replaced outside the pattern does not change what the
    pattern matches. *)
Lemma glob_insert fs dir p (node : FS.node) :
  FS.pp_light_in dir p = false →
  FS.glob_pp_light (<[p := node]> fs) dir ≡ₚ FS.glob_pp_light fs dir.
Proof.
  intros Hp. unfold FS.glob_pp_light.
  assert (¬ FS.pp_light_in dir p) as Hnot by (by apply Is_true_false).
  rewrite keys_insert, filter_cons_False by done.
  destruct (fs !! p) as [old |] eqn:Hfs.
  - by rewrite (keys_present fs p old Hfs), filter_cons_False by done.
  - by rewrite delete_id.
Qed.

Lemma sorted_permutation (l1 l2 : list (list string)) :
  l1 ≡ₚ l2 → FS.sorted l1 = FS.sorted l2.
Proof.
  intros Hl. unfold FS.sorted.
  apply (Sorted_unique FS.path_le); [apply Sorted_merge_sort, _.. |].
  by rewrite !merge_sort_Permutation.
Qed.

Lemma link_name_not_pp_light g (seq_name set_name : string) (k : nat) :
  FS.pp_light_in (process_dir g set_name) (link_name g seq_name k) = false.
Proof. unfold FS.pp_light_in. simpl. apply andb_false_r. Qed.

Lemma calibrated_link_all g (seq_name set_name : string) (frames : list (list string)) :
  ∀ (k : nat) fs,
    calibrated g (link_all g seq_name k frames fs) set_name = calibrated g fs set_name.
Proof.
  induction frames as [| f frames IH]; intros k fs; [done |].
  simpl. rewrite IH. unfold calibrated.
  apply sorted_permutation, glob_insert, link_name_not_pp_light.
Qed.

Lemma link_all_app g (seq_name : string) (l1 l2 : list (list string)) :
  ∀ (k : nat) fs,
    link_all g seq_name k (l1 ++ l2) fs =
      link_all g seq_name (k + length l1) l2 (link_all g seq_name k l1 fs).
Proof.
  induction l1 as [| f l1 IH]; intros k fs; simpl.
  - by rewrite Nat.add_0_r.
  - rewrite IH. by replace (S k + length l1) with (k + S (length l1)) by lia.
Qed.

Lemma link_all_lookup_other g (seq_name : string) (frames : list (list string)) p :
  ∀ (k : nat) fs,
    (∀ i, i < length frames → p ≠ link_name g seq_name (k + i)) →
    link_all g seq_name k frames fs !! p = fs !! p.
Proof.
  induction frames as [| f frames IH]; intros k fs Hp; [done |].
  simpl. rewrite IH.
  - apply lookup_insert_ne. intros <-. apply (Hp 0); [simpl; lia |].
    by rewrite Nat.add_0_r.
  - intros i Hi. replace (S k + i) with (k + S i) by lia. apply Hp. simpl. lia.
Qed.

Lemma link_all_lookup g (seq_name : string) (frames : list (list string)) :
  ∀ (k i : nat) fs f,
    frames !! i = Some f →
    link_all g seq_name k frames fs !! link_name g seq_name (k + i)
      = Some (FS.Symlink f).
Proof.
  induction frames as [| f0 frames IH]; intros k i fs f Hi; [done |].
  destruct i as [| i]; simpl in *.
  - injection Hi as ->. rewrite Nat.add_0_r, link_all_lookup_other.
    + apply lookup_insert_eq.
    + intros i _ Heq%link_name_injective. lia.
  - replace (k + S i) with (S k + i) by lia. by apply IH.
Qed.

End glob_facts.

(** * [combine_sequences]: the links it makes *)

Section combine_facts.

Context {E : Type}.

Implicit Types (w : world E) (g : gui) (fs : gmap (list string) FS.node).

Lemma world_eta w : World (engine w) (files w) = w.
Proof. by destruct w. Qed.

Lemma link_frame_ok g (seq_name : string) (k : nat) (f : list string) w ev w' (k' : nat) :
  FS.is_name_part seq_name = true →
  link_frame (combined_dir g) seq_name k f w = (ev, w', Ok k') →
  ev = [] ∧ k' = k + 1 ∧
  w' = World (engine w) (<[link_name g seq_name k := FS.Symlink f]> (files w)).
Proof.
  intros Hname. unfold link_frame.
  rewrite (link_text_div (combined_dir g) seq_name k Hname), bind_get_files.
  change (combined_dir g // (seq_name +:+ "_" +:+ Text.fmt_05d k +:+ ".fit"))
    with (link_name g seq_name k).
  unfold bind, fs_op, ret, FS.unlink, FS.symlink_to.
  destruct (FS.path_exists (files w) (link_name g seq_name k)).
  - destruct (files w !! link_name g seq_name k) as [[| | t] |]; simpl; try done;
      rewrite lookup_delete_eq;
      (destruct (FS.is_dir _ _); [| by destruct (FS.path_exists _ _)]);
      simpl; rewrite insert_delete_eq; by intros [= <- <- <-].
  - simpl. destruct (files w !! link_name g seq_name k); [done |].
    destruct (FS.is_dir _ _); [| by destruct (FS.path_exists _ _)].
    simpl. by intros [= <- <- <-].
Qed.

Lemma for_fold_link_frame_ok g (seq_name : string) (frames : list (list string)) :
  FS.is_name_part seq_name = true →
  ∀ (k : nat) w ev w' (k' : nat),
    for_fold frames (link_frame (combined_dir g) seq_name) k w = (ev, w', Ok k') →
    ev = [] ∧ k' = k + length frames ∧
    w' = World (engine w) (link_all g seq_name k frames (files w)).
Proof.
  intros Hname.
  induction frames as [| f frames IH]; intros k w ev w' k'; simpl.
  - intros [= <- <- <-]. by rewrite Nat.add_0_r, world_eta.
  - intros (ev1 & w1 & k1 & ev2 & Hframe & Hrest & ->)%bind_ok_inv.
    apply (link_frame_ok _ _ _ _ _ _ _ _ Hname) in Hframe as (-> & -> & ->).
    apply IH in Hrest as (-> & -> & ->). simpl.
    replace (k + 1) with (S k) by lia. split; [done |]. split; [lia | done].
Qed.

Lemma link_set_ok g (seq_name : string) (k : nat) (set_name : string) w ev w' (k' : nat) :
  FS.is_name_part seq_name = true →
  link_set g (combined_dir g) seq_name k set_name w = (ev, w', Ok k') →
  ev = [link_log g (files w) set_name] ∧
  k' = k + length (calibrated g (files w) set_name) ∧
  w' = World (engine w)
         (link_all g seq_name k (calibrated g (files w) set_name) (files w)).
Proof.
  intros Hname. unfold link_set, link_log. rewrite bind_get_files.
  change (FS.sorted (FS.glob_pp_light (files w) ([working_dir g] // set_name // "process")))
    with (calibrated g (files w) set_name).
  destruct (calibrated g (files w) set_name) as [| f frames].
  - intros (ev2 & [= <- <- <-] & ->)%bind_emit_ok.
    by rewrite Nat.add_0_r, world_eta.
  - intros (ev2 & Hfold & ->)%bind_emit_ok.
    by apply (for_fold_link_frame_ok _ _ _ Hname) in Hfold as (-> & -> & ->).
Qed.

Lemma link_log_link_all g (seq_name set_name : string) (frames : list (list string))
    (k : nat) fs :
  link_log g (link_all g seq_name k frames fs) set_name = link_log g fs set_name.
Proof. unfold link_log. by rewrite calibrated_link_all. Qed.

Lemma for_fold_link_set_ok g (seq_name : string) (sets : list string) :
  FS.is_name_part seq_name = true →
  ∀ (k : nat) w ev w' (k' : nat),
    for_fold sets (link_set g (combined_dir g) seq_name) k w = (ev, w', Ok k') →
    ev = link_log g (files w) <$> sets ∧
    k' = k + length (concat (calibrated g (files w) <$> sets)) ∧
    w' = World (engine w)
           (link_all g seq_name k (concat (calibrated g (files w) <$> sets)) (files w)).
Proof.
  intros Hname.
  induction sets as [| s sets IH]; intros k w ev w' k'; csimpl.
  - intros [= <- <- <-]. by rewrite Nat.add_0_r, world_eta.
  - intros (ev1 & w1 & k1 & ev2 & Hset & Hrest & ->)%bind_ok_inv.
    apply (link_set_ok _ _ _ _ _ _ _ _ Hname) in Hset as (-> & -> & ->).
    apply IH in Hrest as (-> & -> & ->). csimpl.
    assert (calibrated g (link_all g seq_name k (calibrated g (files w) s) (files w))
              <$> sets = calibrated g (files w) <$> sets) as ->.
    { apply list_fmap_ext. intros _ s' _. apply calibrated_link_all. }
    assert (link_log g (link_all g seq_name k (calibrated g (files w) s) (files w))
              <$> sets = link_log g (files w) <$> sets) as ->.
    { apply list_fmap_ext. intros _ s' _. apply link_log_link_all. }
    rewrite link_all_app, length_app. split; [done |]. split; [lia | done].
Qed.

Lemma combine_sequences_ok g (seq_name : string) w ev w' :
  FS.is_name_part seq_name = true →
  combine_sequences g seq_name w = (ev, w', Ok tt) →
  ev = combine_log g (files w) ∧
  w' = World (engine w)
         (link_all g seq_name 1 (all_calibrated g (files w)) (files w)).
Proof.
  intros Hname. unfold combine_sequences. cbn zeta.
  intros (ev1 & w1 & k1 & ev2 & Hfold & Hlog & ->)%bind_ok_inv.
  apply (for_fold_link_set_ok _ _ _ Hname) in Hfold as (-> & -> & ->).
  injection Hlog as <- <-. split; [| done].
  unfold combine_log, all_calibrated. simpl. by rewrite Nat.sub_0_r.
Qed.

Lemma calibrated_spec g fs (set_name : string) :
  Sorted FS.path_le (calibrated g fs set_name) ∧
  calibrated g fs set_name ≡ₚ FS.glob_pp_light fs (process_dir g set_name).
Proof.
  unfold calibrated, FS.sorted. split;
    [apply Sorted_merge_sort, _ | apply merge_sort_Permutation].
Qed.

End combine_facts.

(** X17.  The links of a combination that returns, for a sequence name
    that is a name part (no separator in it).  The calibrated files are
    taken set by set in the order of detection and, within a set, in path
    order; the file at position [i] of that list (from 0) is the target of
    the link numbered [i+1], so the counters run from 1 without a gap and
    an earlier set has the smaller counters.  No other entry of the file
    system is changed, the engine is not involved, and the log holds one
    line per set followed by the number of links, which is the number of
    calibrated files. *)
Theorem combine_sequences_links {E : Type} (g : gui) (seq_name : string)
    (w : world E) (ev : list event) (w' : world E) :
  FS.is_name_part seq_name = true →
  combine_sequences g seq_name w = (ev, w', Ok tt) →
  let frames := all_calibrated g (files w) in
  Forall (λ set_name,
            Sorted FS.path_le (calibrated g (files w) set_name) ∧
            calibrated g (files w) set_name ≡ₚ
              FS.glob_pp_light (files w) (process_dir g set_name))
    (detected_sets g) ∧
  (∀ i f, frames !! i = Some f →
          files w' !! link_name g seq_name (S i) = Some (FS.Symlink f)) ∧
  (∀ p, (∀ i, i < length frames → p ≠ link_name g seq_name (S i)) →
        files w' !! p = files w !! p) ∧
  engine w' = engine w ∧
  ev = combine_log g (files w).
Proof.
  intros Hname Hrun.
  apply (combine_sequences_ok _ _ _ _ _ Hname) in Hrun as (-> & ->). cbn zeta. simpl.
  split; [apply Forall_forall; intros s _; apply calibrated_spec |].
  split; [intros i f Hi; by apply (link_all_lookup g seq_name _ 1 i) |].
  split; [| done].
  intros p Hp. by apply link_all_lookup_other.
Qed.

Lemma combine_sequences_links_witness :
  let run := combine_sequences ex_gui_detected "m31" ex_world_combined in
  let frames := all_calibrated ex_gui_detected (files ex_world_combined) in
  Forall (λ set_name,
            Sorted FS.path_le
              (calibrated ex_gui_detected (files ex_world_combined) set_name) ∧
            calibrated ex_gui_detected (files ex_world_combined) set_name ≡ₚ
              FS.glob_pp_light (files ex_world_combined)
                (process_dir ex_gui_detected set_name))
    (detected_sets ex_gui_detected) ∧
  (∀ i f, frames !! i = Some f →
          files run.1.2 !! link_name ex_gui_detected "m31" (S i) = Some (FS.Symlink f)) ∧
  (∀ p, (∀ i, i < length frames → p ≠ link_name ex_gui_detected "m31" (S i)) →
        files run.1.2 !! p = files ex_world_combined !! p) ∧
  engine run.1.2 = engine ex_world_combined ∧
  run.1.1 = combine_log ex_gui_detected (files ex_world_combined).
Proof.
  intros run.
  apply (combine_sequences_links ex_gui_detected "m31" ex_world_combined
           run.1.1 run.1.2).
  - reflexivity.
  - vm_compute. reflexivity.
Defined.

(** The example comes to three links, in the order of the sets and of the
    file names, and is logged as such. *)
Example combine_sequences_example :
  let run := combine_sequences ex_gui_detected "m31" ex_world_combined in
  run.2 = Ok tt ∧
  last run.1.1 = Some (Log "Created 3 symbolic links" "green") ∧
  files run.1.2 !! ["/astro"; "multi_night_combined"; "m31_00003.fit"] =
    Some (FS.Symlink ["/astro"; "set2"; "process"; "pp_light_00001.fit"]).
Proof. vm_compute. split; [reflexivity |]. split; reflexivity. Qed.

(** Without the combined folder the first link cannot be made. *)
Example combine_sequences_no_folder :
  (combine_sequences ex_gui_detected "m31" ex_world).2 =
    Raise ("[Errno 2] No such file or directory: " +:+
           "'/astro/set1/process/pp_light_00001.fit' -> " +:+
           "'/astro/multi_night_combined/m31_00001.fit'").
Proof. vm_compute. reflexivity. Qed.

(** * [combine_sequences] a second time *)

Section combine_again.

Context {E : Type}.

Implicit Types (w : world E) (g : gui) (fs : gmap (list string) FS.node).

Lemma resolve_symlink (fuel : nat) fs (p target : list string) :
  fs !! p = Some (FS.Symlink target) →
  FS.resolve (S fuel) fs p = FS.resolve fuel fs target.
Proof.
  intros Hp.
  change (FS.resolve (S fuel) fs p) with
    (match fs !! p with
     | Some (FS.Symlink t) => FS.resolve fuel fs t
     | other => other
     end).
  by rewrite Hp.
Qed.

Lemma resolve_file (fuel : nat) fs (p : list string) :
  fs !! p = Some FS.File → FS.resolve fuel fs p = Some FS.File.
Proof. intros Hp. destruct fuel; simpl; by rewrite Hp. Qed.

(** A link that is in place and points at a file is made again as it is. *)
Lemma link_frame_again g (seq_name : string) (k : nat) (f : list string) w :
  FS.is_name_part seq_name = true →
  files w !! combined_dir g = Some FS.Dir →
  files w !! link_name g seq_name k = Some (FS.Symlink f) →
  files w !! f = Some FS.File →
  link_frame (combined_dir g) seq_name k f w = ([], w, Ok (k + 1)).
Proof.
  intros Hname Hfolder Hl Hf.
  pose proof (link_frame_cases (combined_dir g) seq_name k f w Hname Hfolder) as H.
  cbn zeta in H.
  change (combined_dir g // (seq_name +:+ "_" +:+ Text.fmt_05d k +:+ ".fit"))
    with (link_name g seq_name k) in H.
  rewrite Hl in H.
  assert (FS.path_exists (files w) (link_name g seq_name k) = true) as Hex.
  { unfold FS.path_exists.
    by rewrite (resolve_symlink 39 _ _ f Hl), (resolve_file 39 _ _ Hf). }
  rewrite Hex in H. by rewrite H, insert_id, world_eta.
Qed.

Lemma for_fold_link_frame_again g (seq_name : string) (frames : list (list string)) :
  FS.is_name_part seq_name = true →
  ∀ (k : nat) w,
    files w !! combined_dir g = Some FS.Dir →
    (∀ i f, frames !! i = Some f →
            files w !! link_name g seq_name (k + i) = Some (FS.Symlink f) ∧
            files w !! f = Some FS.File) →
    for_fold frames (link_frame (combined_dir g) seq_name) k w =
      ([], w, Ok (k + length frames)).
Proof.
  intros Hname.
  induction frames as [| f frames IH]; intros k w Hfolder Hall; simpl.
  - by rewrite Nat.add_0_r.
  - destruct (Hall 0 f eq_refl) as [Hl Hf]. rewrite Nat.add_0_r in Hl.
    unfold bind. rewrite (link_frame_again g seq_name k f w Hname Hfolder Hl Hf).
    rewrite IH.
    + by replace (k + 1 + length frames) with (k + S (length frames)) by lia.
    + done.
    + intros i f' Hi. replace (k + 1 + i) with (k + S i) by lia. by apply Hall.
Qed.

Lemma link_set_again g (seq_name : string) (k : nat) (set_name : string) w :
  FS.is_name_part seq_name = true →
  files w !! combined_dir g = Some FS.Dir →
  (∀ i f, calibrated g (files w) set_name !! i = Some f →
          files w !! link_name g seq_name (k + i) = Some (FS.Symlink f) ∧
          files w !! f = Some FS.File) →
  link_set g (combined_dir g) seq_name k set_name w =
    ([link_log g (files w) set_name], w,
     Ok (k + length (calibrated g (files w) set_name))).
Proof.
  intros Hname Hfolder Hall. unfold link_set, link_log. rewrite bind_get_files.
  change (FS.sorted (FS.glob_pp_light (files w) ([working_dir g] // set_name // "process")))
    with (calibrated g (files w) set_name).
  destruct (calibrated g (files w) set_name) as [| f frames] eqn:Hc.
  - unfold bind, emit, ret. simpl. by rewrite Nat.add_0_r.
  - rewrite bind_emit, for_fold_link_frame_again; done.
Qed.

Lemma for_fold_link_set_again g (seq_name : string) (sets : list string) :
  FS.is_name_part seq_name = true →
  ∀ (k : nat) w,
    files w !! combined_dir g = Some FS.Dir →
    (∀ i f, concat (calibrated g (files w) <$> sets) !! i = Some f →
            files w !! link_name g seq_name (k + i) = Some (FS.Symlink f) ∧
            files w !! f = Some FS.File) →
    for_fold sets (link_set g (combined_dir g) seq_name) k w =
      (link_log g (files w) <$> sets, w,
       Ok (k + length (concat (calibrated g (files w) <$> sets)))).
Proof.
  intros Hname.
  induction sets as [| s sets IH]; intros k w Hfolder Hall; csimpl.
  - by rewrite Nat.add_0_r.
  - unfold bind. rewrite link_set_again.
    + rewrite IH.
      * rewrite length_app. simpl.
        by replace (k + length (calibrated g (files w) s) +
                    length (concat (calibrated g (files w) <$> sets)))
          with (k + (length (calibrated g (files w) s) +
                     length (concat (calibrated g (files w) <$> sets)))) by lia.
      * done.
      * intros i f Hi.
        replace (k + length (calibrated g (files w) s) + i)
          with (k + (length (calibrated g (files w) s) + i)) by lia.
        apply Hall. csimpl. by rewrite lookup_app_r, Nat.add_comm, Nat.add_sub by lia.
    + done.
    + done.
    + intros i f Hi. apply Hall. csimpl. by apply lookup_app_l_Some.
Qed.

Lemma elem_of_concat {A : Type} (x : A) (ls : list (list A)) :
  x ∈ concat ls → ∃ l, x ∈ l ∧ l ∈ ls.
Proof.
  induction ls as [| l ls IH]; simpl; [by intros ?%elem_of_nil |].
  intros [Hx | Hx]%elem_of_app.
  - exists l. split; [done | by left].
  - destruct (IH Hx) as (l' & Hl & Hin). exists l'. split; [done | by right].
Qed.

(** A calibrated file is an entry of a process folder, never a link of the
    combined sequence. *)
Lemma calibrated_not_link g fs (seq_name set_name : string) (k : nat) (f : list string) :
  f ∈ calibrated g fs set_name → f ≠ link_name g seq_name k.
Proof.
  intros Hf ->. pose proof (calibrated_spec g fs set_name) as [_ Hperm].
  rewrite Hperm in Hf. unfold FS.glob_pp_light in Hf.
  apply list_elem_of_filter in Hf as [Hin _].
  by rewrite link_name_not_pp_light in Hin.
Qed.

Lemma all_calibrated_link_all g (seq_name : string) (frames : list (list string))
    (k : nat) fs :
  all_calibrated g (link_all g seq_name k frames fs) = all_calibrated g fs.
Proof.
  unfold all_calibrated. f_equal. apply list_fmap_ext.
  intros _ s _. apply calibrated_link_all.
Qed.

Lemma combine_log_link_all g (seq_name : string) (frames : list (list string))
    (k : nat) fs :
  combine_log g (link_all g seq_name k frames fs) = combine_log g fs.
Proof.
  unfold combine_log. rewrite all_calibrated_link_all. f_equal.
  apply list_fmap_ext. intros _ s _. apply link_log_link_all.
Qed.

Lemma combine_sequences_again g (seq_name : string) w ev w1 :
  FS.is_name_part seq_name = true →
  files w !! combined_dir g = Some FS.Dir →
  combine_sequences g seq_name w = (ev, w1, Ok tt) →
  (∀ f, f ∈ all_calibrated g (files w) → files w !! f = Some FS.File) →
  combine_sequences g seq_name w1 = (ev, w1, Ok tt).
Proof.
  intros Hname Hfolder Hrun Hfiles.
  apply (combine_sequences_ok _ _ _ _ _ Hname) in Hrun as (-> & ->).
  set (frames := all_calibrated g (files w)).
  set (w1 := World (engine w) (link_all g seq_name 1 frames (files w))).
  assert (all_calibrated g (files w1) = frames) as Hsame
    by apply all_calibrated_link_all.
  unfold combine_sequences. cbn zeta. unfold bind.
  change ([working_dir g] // "multi_night_combined") with (combined_dir g).
  rewrite (for_fold_link_set_again g seq_name (detected_sets g) Hname 1 w1).
  - unfold emit. simpl. rewrite Nat.sub_0_r.
    by rewrite <- (combine_log_link_all g seq_name frames 1 (files w)).
  - simpl. rewrite link_all_lookup_other; [done |].
    intros j _ Heq. by apply (div_ne (combined_dir g)
                                (seq_name +:+ "_" +:+ Text.fmt_05d (S j) +:+ ".fit")).
  - fold (all_calibrated g (files w1)). rewrite Hsame. intros i f Hi.
    assert (f ∈ frames) as Hin by (by eapply list_elem_of_lookup_2).
    split; [by apply (link_all_lookup g seq_name frames 1 i) |].
    simpl. rewrite link_all_lookup_other; [by apply Hfiles |].
    intros j _. unfold frames, all_calibrated in Hin.
    apply elem_of_concat in Hin as (l & Hf & (s & -> & _)%list_elem_of_fmap).
    by eapply calibrated_not_link.
Qed.

End combine_again.

(** C4, as stated, fails: with the sequence name
    [../set1/process/pp_light] the link names are the paths of the
    calibrated files of [set1].  The first run returns, having put links
    to themselves in their place; on the second run [exists()] is false for
    such a link, it is not removed, and [symlink_to] raises. *)
Lemma C4_counterexample :
  let seq_name := "../set1/process/pp_light" in
  let first := combine_sequences ex_gui_detected seq_name ex_world_combined in
  let second := combine_sequences ex_gui_detected seq_name first.1.2 in
  first.2 = Ok tt ∧
  files first.1.2 !! ["/astro"; "set1"; "process"; "pp_light_00001.fit"] =
    Some (FS.Symlink ["/astro"; "set1"; "process"; "pp_light_00001.fit"]) ∧
  second.2 = Raise ("[Errno 17] File exists: " +:+
                    "'/astro/set1/process/pp_light_00001.fit' -> " +:+
                    "'/astro/set1/process/pp_light_00001.fit'").
Proof. repeat split; vm_compute; reflexivity. Qed.

(** C4, amended.  Take a working directory that is absolute (as the
    directory dialog gives it, so that the target of a link is read from
    the root), a sequence name without a separator and a combined folder
    that is a directory.  When a combination has returned and the
    calibrated files it linked are regular files, the calibrated files are
    the same afterwards, and running the combination again with the same
    name returns as well, leaves every entry as it is, so that the link
    names and their targets are those of the first run (each link is
    removed and made again), and writes the same log. *)
Theorem C4_combination_twice {E : Type} (g : gui) (seq_name : string)
    (w : world E) (ev : list event) (w1 : world E) :
  FS.root (working_dir g) ≠ EmptyString →
  FS.is_name_part seq_name = true →
  files w !! combined_dir g = Some FS.Dir →
  (∀ f, f ∈ all_calibrated g (files w) → files w !! f = Some FS.File) →
  combine_sequences g seq_name w = (ev, w1, Ok tt) →
  all_calibrated g (files w1) = all_calibrated g (files w) ∧
  (∀ i f, all_calibrated g (files w) !! i = Some f →
          files w1 !! link_name g seq_name (S i) = Some (FS.Symlink f)) ∧
  combine_sequences g seq_name w1 = (ev, w1, Ok tt).
Proof.
  intros _ Hname Hfolder Hfiles Hrun.
  split; [| split].
  - apply (combine_sequences_ok _ _ _ _ _ Hname) in Hrun as (_ & ->).
    apply all_calibrated_link_all.
  - apply (combine_sequences_ok _ _ _ _ _ Hname) in Hrun as (_ & ->).
    intros i f Hi. by apply (link_all_lookup g seq_name _ 1 i).
  - by apply (combine_sequences_again g seq_name w).
Qed.

Lemma C4_combination_twice_witness :
  let run := combine_sequences ex_gui_detected "m31" ex_world_combined in
  all_calibrated ex_gui_detected (files run.1.2) =
    all_calibrated ex_gui_detected (files ex_world_combined) ∧
  (∀ i f, all_calibrated ex_gui_detected (files ex_world_combined) !! i = Some f →
          files run.1.2 !! link_name ex_gui_detected "m31" (S i) = Some (FS.Symlink f)) ∧
  combine_sequences ex_gui_detected "m31" run.1.2 = (run.1.1, run.1.2, Ok tt).
Proof.
  intros run.
  apply (C4_combination_twice ex_gui_detected "m31" ex_world_combined
           run.1.1 run.1.2).
  - discriminate.
  - reflexivity.
  - reflexivity.
  - assert (all_calibrated ex_gui_detected (files ex_world_combined) =
              [["/astro"; "set1"; "process"; "pp_light_00001.fit"];
               ["/astro"; "set1"; "process"; "pp_light_00002.fit"];
               ["/astro"; "set2"; "process"; "pp_light_00001.fit"]]) as ->
      by (vm_compute; reflexivity).
    intros f Hf.
    repeat (apply elem_of_cons in Hf as [-> | Hf]); [reflexivity.. |].
    by apply elem_of_nil in Hf.
  - vm_compute. reflexivity.
Defined.

(** * A run that cannot make its folder *)

(** X19.  When the engine accepts the first [cd] and the name
    [multi_night_combined] in the working directory is then held by a
    regular file, [mkdir(exist_ok=True)] raises and the run ends there: the
    first [cd] is the only command issued, 5 is the only percentage
    reported, no set is processed, no file is changed by the script, and
    the terminal event carries the "File exists" message. *)
Theorem workflow_blocked_by_file {E : Type}
    (siril : option (list string → E → gmap (list string) FS.node →
                     string + E * gmap (list string) FS.node))
    (g : gui) (w w1 : world E) :
  engine_step siril ["cd"; working_dir g] w = inr w1 →
  files w1 !! combined_dir g = Some FS.File →
  let e := "[Errno 17] File exists: " +:+ FS.quoted (combined_dir g) in
  run (process_workflow siril g) w =
    ([Log "=== Starting Multi-Night Processing ===" "green";
      Log ("$ " +:+ Text.join " " ["cd"; working_dir g]) "blue";
      Call ["cd"; working_dir g] None;
      Progress 5;
      Log ("Error in workflow: " +:+ e) "red";
      Log ("Error: " +:+ e) "red";
      Finished false e],
     w1, Ok tt).
Proof.
  intros Hcd Hfile. cbn zeta.
  assert (FS.mkdir_exist_ok (combined_dir g) (files w1) =
            inl ("[Errno 17] File exists: " +:+ FS.quoted (combined_dir g))) as Hmk.
  { unfold FS.mkdir_exist_ok, FS.is_dir. rewrite Hfile.
    by rewrite (resolve_file 40 _ _ Hfile). }
  rewrite run_eq. unfold process_workflow, try_except. cbn zeta.
  rewrite bind_emit. unfold bind at 1. rewrite cmd_eq, Hcd.
  rewrite bind_emit. unfold bind at 1. unfold fs_op at 1.
  change ([working_dir g] // "multi_night_combined") with (combined_dir g).
  rewrite Hmk. done.
Qed.

Lemma workflow_blocked_by_file_witness :
  let w := World tt (<[ ["/astro"; "multi_night_combined"] := FS.File ]> ex_files_calibrated) in
  let e := "[Errno 17] File exists: " +:+ FS.quoted (combined_dir ex_gui_detected) in
  run (process_workflow ex_siril ex_gui_detected) w =
    ([Log "=== Starting Multi-Night Processing ===" "green";
      Log ("$ " +:+ Text.join " " ["cd"; working_dir ex_gui_detected]) "blue";
      Call ["cd"; working_dir ex_gui_detected] None;
      Progress 5;
      Log ("Error in workflow: " +:+ e) "red";
      Log ("Error: " +:+ e) "red";
      Finished false e],
     w, Ok tt).
Proof.
  intros w.
  apply (workflow_blocked_by_file ex_siril ex_gui_detected w w).
  - reflexivity.
  - vm_compute. reflexivity.
Defined.

(** * A new window *)

(** X20.  A window that has run [init_ui] and [load_settings], whatever the
    configuration file holds: there is no working directory and no detected
    set, the start button is disabled, the spin boxes are within their
    ranges, and every option has its default except possibly the bias
    coefficient.  In this state [start_processing] only shows the "No
    Directory" warning: the directory of the last session, although
    saved, has to be chosen again. *)
Theorem new_window_needs_directory (today : string) (sirilpy_available reply_yes : bool)
    (config : option preset_file) :
  let win := new_window today sirilpy_available config in
  directory_state (widgets win) = (EmptyString, [], "No sets detected", false) ∧
  spins_in_range (widgets win) ∧
  (∃ coefficient,
     widgets win =
       Gui EmptyString [] "No sets detected" false today coefficient true true 30 30
         true true) ∧
  start_processing sirilpy_available reply_yes win =
    (win, [MessageBox "warning" "No Directory"
             "Please select a working directory first."], false).
Proof.
  cbn zeta. unfold new_window.
  assert (widgets (init_window today sirilpy_available) = init_ui today) as Hw
    by (by destruct sirilpy_available).
  rewrite Hw.
  destruct (load_settings_cases config (init_ui today)) as (b & Hl & Hb).
  simpl in Hl. rewrite Hl. unfold with_widgets, start_processing. simpl.
  split; [done |]. split; [| split; [by eexists | done]].
  unfold spins_in_range, in_range. simpl.
  destruct Hb as [-> | Hb]; [simpl; lia |].
  unfold in_range in Hb. simpl in Hb. lia.
Qed.

(** * The percentages of a run that succeeds *)






(** Seven sets: the step is 8 and the sets end at 61. *)
Example progress_of_seven_sets :
  expected_progress 7 = [5; 13; 21; 29; 37; 45; 53; 61; 70; 85; 100].
Proof. reflexivity. Qed.

(** * [combine_sequences] on an empty combined folder *)

Section fresh_run.

Context {E : Type}.

Implicit Types (w : world E) (g : gui) (fs : gmap (list string) FS.node).







End fresh_run.

(** ** Counters and order *)






(** ** File-name order within a set *)







(** ** The example folder *)




